(** * Ai-resume: skill normalisation, gap analysis, ranking and extraction

    A shallow embedding of the Python sources

      - [utils/skill_processor.py]  (class [SkillProcessor])
      - [utils/skill_matcher.py]    (class [SkillMatcher])
      - [utils/resume_parser.py]    (class [ResumeParser])
      - [backend/main.py]           (the endpoints)
      - [frontend/app.py]           ([parse_skills_input])

    Conventions of the embedding.

    - A Python [str] is a [string]: the text in UTF-8, so that an ASCII
      character is one element.  Cutting and replacing at an ASCII
      character, comparison and [sorted] are then those of Python for
      every text.  The methods that go by character classes ([strip],
      [split()], [lower], [upper], [title], [isalpha], the classes [\w]
      and [\s]) and by counting characters ([len], slices) are given in
      [PyStr] as Python has them on ASCII text: bytes above 127 are
      neither word nor space characters and have no other letter case.
      A statement that needs them on its input says [ascii_text];
      [extract_name], which reads names in any script, takes them as
      parameters.
    - A Python [float] has two embeddings.  With exact rationals [Q]
      ([PyFloat], [SkillMatcher]) for what is said about sets, counts and
      comparisons of counts; as an IEEE 754 double ([Binary64],
      [SkillMatcher64]) for the bounds of the fit score, which depend on
      rounding.
    - A Python [set] of strings is a [gset string], the synonym [dict] a
      [gmap string string].  [list(s)] of a set [s] is [elements s]: Python
      leaves the order unspecified and nothing below depends on it.
    - An exception is a value of [exn]; code that may raise lives in the
      [result] monad.
    - The TF-IDF vectoriser, the regular-expression engine, the readers
      of PDF and DOCX files and the builtins [float] (of a string) and
      [str] (of an exception) are code outside the repository; they enter
      as Section variables.

    The file has three parts: the program, module by module as the
    sources have it; the vocabulary of the statements; the properties. *)

From Stdlib Require Import QArith Qpower Qround Lqa Lia ZArith.
From Stdlib Require Import Ascii String.
From stdpp Require Import gmap strings list sorting.

Local Open Scope bool_scope.
Set Warnings "-clear-no-such-hyp".

(** ** Python string primitives (ASCII) *)

Module PyStr.

Definition code (c : ascii) : N := N_of_ascii c.

Definition between (lo hi : N) (c : ascii) : bool :=
  ((lo <=? code c) && (code c <=? hi))%N.

(** [str.isspace] on one character: TAB..CR, FS..US and the blank. *)
Definition is_space (c : ascii) : bool :=
  between 9 13 c || between 28 32 c.

Definition is_upper (c : ascii) : bool := between 65 90 c.
Definition is_lower (c : ascii) : bool := between 97 122 c.
Definition is_alpha (c : ascii) : bool := is_upper c || is_lower c.
Definition is_digit (c : ascii) : bool := between 48 57 c.

(** The class [\w] of [re]: alphanumerics and the underscore. *)
Definition is_word (c : ascii) : bool :=
  is_alpha c || is_digit c || (code c =? 95)%N.

Definition lower_char (c : ascii) : ascii :=
  if is_upper c then ascii_of_N (code c + 32) else c.

Definition upper_char (c : ascii) : ascii :=
  if is_lower c then ascii_of_N (code c - 32) else c.

Definition chars (s : string) : list ascii := list_ascii_of_string s.
Definition str (l : list ascii) : string := string_of_list_ascii l.

Definition on_chars (f : list ascii -> list ascii) (s : string) : string :=
  str (f (chars s)).

(** [s.lower()], [s.upper()] *)
Definition lower : string -> string := on_chars (List.map lower_char).
Definition upper : string -> string := on_chars (List.map upper_char).

Fixpoint lstrip_chars (l : list ascii) : list ascii :=
  match l with
  | c :: r => if is_space c then lstrip_chars r else l
  | [] => []
  end.

Definition rstrip_chars (l : list ascii) : list ascii :=
  List.rev (lstrip_chars (List.rev l)).

Definition strip_chars (l : list ascii) : list ascii :=
  rstrip_chars (lstrip_chars l).

(** [s.strip()] *)
Definition strip : string -> string := on_chars strip_chars.

(** [s.replace(c, '')] for a one-character [c] *)
Definition remove_char (c : ascii) : string -> string :=
  on_chars (List.filter (fun d => negb (Ascii.eqb c d))).

(** [s.isalpha()]: at least one character and all of them letters. *)
Definition isalpha (s : string) : bool :=
  match chars s with
  | [] => false
  | l => List.forallb is_alpha l
  end.

(** [s.split(sep)] for a one-character separator: never empty, keeps
    empty fields. *)
Fixpoint split_on_chars (sep : ascii) (cur : list ascii) (l : list ascii)
  : list (list ascii) :=
  match l with
  | [] => [List.rev cur]
  | c :: r =>
      if Ascii.eqb c sep
      then List.rev cur :: split_on_chars sep [] r
      else split_on_chars sep (c :: cur) r
  end.

Definition split_on (sep : ascii) (s : string) : list string :=
  List.map str (split_on_chars sep [] (chars s)).

(** [s.split()]: maximal runs of non-space characters. *)
Fixpoint split_ws_chars (cur : list ascii) (l : list ascii)
  : list (list ascii) :=
  match l with
  | [] => match cur with [] => [] | _ => [List.rev cur] end
  | c :: r =>
      if is_space c
      then match cur with
           | [] => split_ws_chars [] r
           | _ => List.rev cur :: split_ws_chars [] r
           end
      else split_ws_chars (c :: cur) r
  end.

Definition split_ws (s : string) : list string :=
  List.map str (split_ws_chars [] (chars s)).

(** [sep.join(l)] *)
Fixpoint join (sep : string) (l : list string) : string :=
  match l with
  | [] => ""
  | [x] => x
  | x :: r => x +:+ sep +:+ join sep r
  end.

(** [not s] for a string: the empty string is falsy. *)
Definition is_empty (s : string) : bool :=
  match s with "" => true | _ => false end.

End PyStr.

(** ** [utils/skill_processor.py] *)

Module SkillProcessor.
Import PyStr.

(** [self.skill_synonyms] *)
Definition skill_synonyms : gmap string string :=
  list_to_map
    [ ("js", "javascript");
      ("ts", "typescript");
      ("py", "python");
      ("ml", "machine learning");
      ("ai", "artificial intelligence");
      ("dl", "deep learning");
      ("nlp", "natural language processing");
      ("cv", "computer vision");
      ("db", "database");
      ("sql", "structured query language");
      ("nosql", "non-relational database");
      ("aws", "amazon web services");
      ("gcp", "google cloud platform");
      ("k8s", "kubernetes");
      ("ci/cd", "continuous integration continuous deployment");
      ("rest", "restful api");
      ("api", "application programming interface") ].

(** The characters kept by [re.sub(r'[^\w\s+#/-]', '', skill)]. *)
Definition kept_char (c : ascii) : bool :=
  is_word c || is_space c
  || Ascii.eqb c "+" || Ascii.eqb c "#" || Ascii.eqb c "/" || Ascii.eqb c "-".

(** [re.sub(r'\s+', ' ', skill)]: every maximal run of white space
    becomes one blank; [in_run] says the previous character was white. *)
Fixpoint collapse_ws (in_run : bool) (l : list ascii) : list ascii :=
  match l with
  | [] => []
  | c :: r =>
      if is_space c
      then if in_run then collapse_ws true r else " "%char :: collapse_ws true r
      else c :: collapse_ws false r
  end.

Definition normalize_skill (skill : string) : string :=
  let skill := strip (lower skill) in
  let skill := on_chars (List.filter kept_char) skill in
  let skill := on_chars (collapse_ws false) skill in
  match skill_synonyms !! skill with
  | Some canonical => canonical
  | None => skill
  end.

(** The de-duplication loop of [normalize_skills]: [seen] and [result]
    are the two accumulators of the source. *)
Definition dedup_step (acc : gset string * list string) (skill : string)
  : gset string * list string :=
  let '(seen, result) := acc in
  if negb (is_empty skill) && bool_decide (skill ∉ seen)
  then (seen ∪ {[ skill ]}, result ++ [skill])
  else (seen, result).

Definition normalize_skills (skills : list string) : list string :=
  let normalized := List.map normalize_skill skills in
  snd (List.fold_left dedup_step normalized (∅, [])).

Definition skills_to_text (skills : list string) : string :=
  join " " (normalize_skills skills).

End SkillProcessor.

(** ** Exceptions and floats *)

Inductive exn : Type :=
  | ZeroDivisionError
  | ValueError (msg : string)
  | HTTPException (status_code : nat) (detail : string).

Inductive result (A : Type) : Type :=
  | Ok (a : A)
  | Raise (e : exn).

Arguments Ok {A} a.
Arguments Raise {A} e.

Global Instance result_ret : MRet result := fun A a => Ok a.

Global Instance result_bind : MBind result := fun A B k m =>
  match m with
  | Ok a => k a
  | Raise e => Raise e
  end.

Module PyFloat.

(** [a / b]: true division raises on a zero divisor. *)
Definition div (a b : Q) : result Q :=
  if Qeq_bool b 0 then Raise ZeroDivisionError else Ok (a / b)%Q.

(** [len(l)] used as a number. *)
Definition len {A : Type} (l : list A) : Q := inject_Z (Z.of_nat (length l)).

(** Rounding to the nearest integer, ties to the even neighbour. *)
Definition round_half_even (x : Q) : Z :=
  let f := Qfloor x in
  match (x - inject_Z f ?= 1 # 2)%Q with
  | Lt => f
  | Gt => (f + 1)%Z
  | Eq => if Z.even f then f else (f + 1)%Z
  end.

(** [round(x, 2)] *)
Definition round2 (x : Q) : Q :=
  (inject_Z (round_half_even (x * 100)) / 100)%Q.

(** [a >= b] and [a < b] *)
Definition ge (a b : Q) : bool := Qle_bool b a.
Definition lt (a b : Q) : bool := negb (Qle_bool b a).

End PyFloat.

(** ** Python floats as IEEE 754 doubles

    A [float] of Python is a double: a rational of the form [m * 2^e]
    with at most 53 significant bits, an infinity, or no number.  The
    result of an operation is the exact result rounded to the nearest
    double, ties to the even one. *)

Module Binary64.
Local Open Scope Q_scope.

Inductive double : Type :=
  | finite (q : Q)
  | infinite (negative : bool)
  | nan.

(** [2^e] for an integer [e]. *)
Definition pow2 (e : Z) : Q := 2 ^ e.

(** For [0 < x]: the [e] with [2^e <= x < 2^(e+1)]. *)
Definition ilog2 (x : Q) : Z :=
  let e := (Z.log2 (Qnum x) - Z.log2 (Zpos (Qden x)))%Z in
  if Qle_bool (pow2 e) x then e else (e - 1)%Z.

(** The exponent of the last place of the doubles around [x]: 52 places
    below the leading bit, and never below that of the subnormals. *)
Definition last_place (x : Q) : Z := Z.max (ilog2 x - 52) (-1074).

(** Rounding of a positive rational. *)
Definition round_pos (x : Q) : double :=
  let e := last_place x in
  let m := PyFloat.round_half_even (x / pow2 e) in
  let v := inject_Z m * pow2 e in
  if Qle_bool (pow2 1024) v then infinite false else finite (Qred v).

Definition opp (x : double) : double :=
  match x with
  | finite q => finite (Qred (- q))
  | infinite negative => infinite (negb negative)
  | nan => nan
  end.

(** The double nearest to a rational. *)
Definition round64 (x : Q) : double :=
  match Qcompare x 0 with
  | Eq => finite 0
  | Gt => round_pos x
  | Lt => opp (round_pos (- x))
  end.

(** [a / b] for two [int], here lengths: true division raises on a zero
    divisor. *)
Definition div_int (a b : nat) : result double :=
  match b with
  | O => Raise ZeroDivisionError
  | S _ => Ok (round64 (inject_Z (Z.of_nat a) / inject_Z (Z.of_nat b)))
  end.

(** [x * k] for a float [x] and an [int] [k] other than 0. *)
Definition mul_int (x : double) (k : Z) : double :=
  match x with
  | finite q => round64 (q * inject_Z k)
  | infinite negative => infinite (xorb negative (k <? 0)%Z)
  | nan => nan
  end.

(** [x + y] *)
Definition add (x y : double) : double :=
  match x, y with
  | finite a, finite b => round64 (a + b)
  | finite _, infinite s | infinite s, finite _ => infinite s
  | infinite s, infinite t => if Bool.eqb s t then infinite s else nan
  | nan, _ | _, nan => nan
  end.

(** [round(x, 2)]: the exact value of the double is rounded to
    hundredths, ties to even, and the result is the double nearest to
    that decimal. *)
Definition round2 (x : double) : double :=
  match x with
  | finite q => round64 (inject_Z (PyFloat.round_half_even (q * 100)) / 100)
  | _ => x
  end.

End Binary64.

(** ** [utils/skill_matcher.py] *)

Module SkillMatcher.
Import PyStr SkillProcessor.

(** The dictionary returned by [analyze_skill_gap]. *)
Record SkillGap : Type := {
  matching_required : list string;
  matching_preferred : list string;
  missing_required : list string;
  missing_preferred : list string;
  additional_skills : list string;
  similarity_score : Q;
  job_fit_score : Q;
  required_match_percentage : Q;
  total_skills_matched : nat
}.

(** [not l] for a list. *)
Definition is_nil {A : Type} (l : list A) : bool :=
  match l with [] => true | _ => false end.

Section WithVectorizer.

(** [self.vectorizer.fit_transform([a, b])] followed by
    [cosine_similarity] of the two rows: scikit-learn code, which
    returns a float or raises (for instance on an empty vocabulary). *)
Variable tfidf_cosine : string -> string -> result Q.

Definition calculate_similarity (resume_skills job_skills : list string) : Q :=
  let resume_text := skills_to_text resume_skills in
  let job_text := skills_to_text job_skills in
  if is_empty resume_text || is_empty job_text then 0%Q
  else match tfidf_cosine resume_text job_text with
       | Ok similarity => similarity
       | Raise _ => 0%Q
       end.

(** The three summands of [_calculate_job_fit_score]. *)
Definition required_score (matching_required required_skills : list string)
  : result Q :=
  if negb (is_nil required_skills)
  then required_match_ratio ←
         PyFloat.div (PyFloat.len matching_required) (PyFloat.len required_skills);
       Ok (required_match_ratio * 60)%Q
  else Ok 0%Q.

Definition preferred_score (matching_preferred preferred_skills : list string)
  : result Q :=
  if negb (is_nil preferred_skills)
  then preferred_match_ratio ←
         PyFloat.div (PyFloat.len matching_preferred) (PyFloat.len preferred_skills);
       Ok (preferred_match_ratio * 20)%Q
  else Ok 0%Q.

Definition similarity_component (similarity_score : Q) : Q :=
  (similarity_score * 20)%Q.

Definition _calculate_job_fit_score
    (matching_required required_skills
     matching_preferred preferred_skills : list string)
    (similarity_score : Q) : result Q :=
  required_score ← required_score matching_required required_skills;
  preferred_score ← preferred_score matching_preferred preferred_skills;
  let total_score :=
    (required_score + preferred_score + similarity_component similarity_score)%Q in
  Ok (PyFloat.round2 total_score).

Definition analyze_skill_gap
    (resume_skills required_skills preferred_skills : list string)
    : result SkillGap :=
  let resume_skills_norm := normalize_skills resume_skills in
  let required_skills_norm := normalize_skills required_skills in
  let preferred_skills_norm := normalize_skills preferred_skills in
  let resume_set : gset string := list_to_set resume_skills_norm in
  let required_set : gset string := list_to_set required_skills_norm in
  let preferred_set : gset string := list_to_set preferred_skills_norm in
  let matching_required := elements (resume_set ∩ required_set) in
  let matching_preferred := elements (resume_set ∩ preferred_set) in
  let missing_required := elements (required_set ∖ resume_set) in
  let missing_preferred := elements (preferred_set ∖ resume_set) in
  let additional_skills := elements (resume_set ∖ required_set ∖ preferred_set) in
  let similarity_score := calculate_similarity resume_skills required_skills in
  job_fit_score ← _calculate_job_fit_score
                     matching_required required_skills_norm
                     matching_preferred preferred_skills_norm
                     similarity_score;
  required_match_percentage ←
    (if negb (is_nil required_skills_norm)
     then ratio ← PyFloat.div (PyFloat.len matching_required)
                               (PyFloat.len required_skills_norm);
          Ok (ratio * 100)%Q
     else Ok 0%Q);
  Ok {| matching_required := matching_required;
        matching_preferred := matching_preferred;
        missing_required := missing_required;
        missing_preferred := missing_preferred;
        additional_skills := additional_skills;
        similarity_score := similarity_score;
        job_fit_score := job_fit_score;
        required_match_percentage := required_match_percentage;
        total_skills_matched :=
          length matching_required + length matching_preferred |}.

End WithVectorizer.

(** The four headlines and the fixed advice lines. *)
Definition headline_excellent : string := "[EXCELLENT] You meet most requirements.".
Definition headline_good : string := "[GOOD] Consider strengthening a few areas.".
Definition headline_moderate : string := "[MODERATE] Significant skill gaps to address.".
Definition headline_low : string := "[LOW] Major skill development needed.".

Definition generate_recommendations
    (missing_required missing_preferred : list string) (job_fit_score : Q)
    : list string :=
  let recommendations : list string := [] in
  let recommendations :=
    if PyFloat.ge job_fit_score 80 then recommendations ++ [headline_excellent]
    else if PyFloat.ge job_fit_score 60 then recommendations ++ [headline_good]
    else if PyFloat.ge job_fit_score 40 then recommendations ++ [headline_moderate]
    else recommendations ++ [headline_low] in
  let recommendations :=
    if negb (is_nil missing_required)
    then let top_missing := take 5 missing_required in
         recommendations ++
           ["[PRIORITY] Learn these required skills - " +:+ join ", " top_missing]
    else recommendations in
  let recommendations :=
    if negb (is_nil missing_preferred) && PyFloat.lt job_fit_score 90
    then let top_preferred := take 3 missing_preferred in
         recommendations ++
           ["[BONUS] Consider learning - " +:+ join ", " top_preferred]
    else recommendations in
  if PyFloat.lt job_fit_score 50
  then recommendations ++
         ["[ADVICE] Take online courses or certifications in missing skills";
          "[ADVICE] Consider entry-level or junior positions to build experience"]
  else if PyFloat.lt job_fit_score 70
  then recommendations ++
         ["[ADVICE] Build projects showcasing the missing skills";
          "[ADVICE] Network with professionals in this field"]
  else recommendations ++
         ["[ADVICE] Highlight your matching skills prominently in your resume";
          "[ADVICE] Prepare to discuss your relevant experience in interviews"].

End SkillMatcher.

(** ** [utils/skill_matcher.py] with doubles

    The scoring code once more, with the arithmetic of doubles: what the
    exact embedding above says about sets and counts is not repeated. *)

Module SkillMatcher64.
Import PyStr SkillProcessor Binary64.

Record SkillGap : Type := {
  matching_required : list string;
  matching_preferred : list string;
  missing_required : list string;
  missing_preferred : list string;
  additional_skills : list string;
  similarity_score : double;
  job_fit_score : double;
  required_match_percentage : double;
  total_skills_matched : nat
}.

Section WithVectorizer.

(** The cosine of scikit-learn, converted by [float(similarity)]. *)
Variable tfidf_cosine : string → string → result double.

Definition calculate_similarity (resume_skills job_skills : list string) : double :=
  let resume_text := skills_to_text resume_skills in
  let job_text := skills_to_text job_skills in
  if is_empty resume_text || is_empty job_text then finite 0
  else match tfidf_cosine resume_text job_text with
       | Ok similarity => similarity
       | Raise _ => finite 0
       end.

Definition required_score (matching_required required_skills : list string)
  : result double :=
  if negb (SkillMatcher.is_nil required_skills)
  then required_match_ratio ←
         div_int (length matching_required) (length required_skills);
       Ok (mul_int required_match_ratio 60)
  else Ok (finite 0).

Definition preferred_score (matching_preferred preferred_skills : list string)
  : result double :=
  if negb (SkillMatcher.is_nil preferred_skills)
  then preferred_match_ratio ←
         div_int (length matching_preferred) (length preferred_skills);
       Ok (mul_int preferred_match_ratio 20)
  else Ok (finite 0).

Definition similarity_component (similarity_score : double) : double :=
  mul_int similarity_score 20.

Definition _calculate_job_fit_score
    (matching_required required_skills
     matching_preferred preferred_skills : list string)
    (similarity_score : double) : result double :=
  required_score ← required_score matching_required required_skills;
  preferred_score ← preferred_score matching_preferred preferred_skills;
  let total_score :=
    add (add required_score preferred_score)
        (similarity_component similarity_score) in
  Ok (round2 total_score).

Definition analyze_skill_gap
    (resume_skills required_skills preferred_skills : list string)
    : result SkillGap :=
  let resume_skills_norm := normalize_skills resume_skills in
  let required_skills_norm := normalize_skills required_skills in
  let preferred_skills_norm := normalize_skills preferred_skills in
  let resume_set : gset string := list_to_set resume_skills_norm in
  let required_set : gset string := list_to_set required_skills_norm in
  let preferred_set : gset string := list_to_set preferred_skills_norm in
  let matching_required := elements (resume_set ∩ required_set) in
  let matching_preferred := elements (resume_set ∩ preferred_set) in
  let missing_required := elements (required_set ∖ resume_set) in
  let missing_preferred := elements (preferred_set ∖ resume_set) in
  let additional_skills := elements (resume_set ∖ required_set ∖ preferred_set) in
  let similarity_score := calculate_similarity resume_skills required_skills in
  job_fit_score ← _calculate_job_fit_score
                     matching_required required_skills_norm
                     matching_preferred preferred_skills_norm
                     similarity_score;
  required_match_percentage ←
    (if negb (SkillMatcher.is_nil required_skills_norm)
     then ratio ← div_int (length matching_required) (length required_skills_norm);
          Ok (mul_int ratio 100)
     else Ok (finite 0));
  Ok {| matching_required := matching_required;
        matching_preferred := matching_preferred;
        missing_required := missing_required;
        missing_preferred := missing_preferred;
        additional_skills := additional_skills;
        similarity_score := similarity_score;
        job_fit_score := job_fit_score;
        required_match_percentage := required_match_percentage;
        total_skills_matched :=
          length matching_required + length matching_preferred |}.

End WithVectorizer.

End SkillMatcher64.

(** ** [list.sort(key=..., reverse=True)]

    Python's [list.sort] is a stable sort, and with [reverse=True] it still
    keeps elements of equal key in their original order: CPython reverses
    the list, sorts it in ascending order and reverses the result.  The
    output of a stable sort is determined by its input, so the ascending
    pass is written as an insertion sort. *)

Module PySort.

Section ByKey.
Context {A : Type}.
Variable key : A -> Q.

(** [x] goes in front of the first element whose key is not smaller:
    an element that came earlier stays ahead of its equals. *)
Fixpoint insert_asc (x : A) (l : list A) : list A :=
  match l with
  | [] => [x]
  | y :: r =>
      if Qle_bool (key x) (key y) then x :: y :: r
      else y :: insert_asc x r
  end.

Fixpoint sort_asc (l : list A) : list A :=
  match l with
  | [] => []
  | x :: r => insert_asc x (sort_asc r)
  end.

Definition sort_reverse (l : list A) : list A :=
  reverse (sort_asc (reverse l)).

End ByKey.

End PySort.

(** ** [backend/models.py] and [backend/main.py] *)

Module Backend.
Import SkillMatcher.

Record ResumeSkills : Type := {
  skills : list string;
  experience_years : option Q;
  education : option string;
  job_titles : option (list string)
}.

Record JobRequirement : Type := {
  job_title : string;
  required_skills : list string;
  preferred_skills : option (list string);
  min_experience : option Q;
  education_required : option string
}.

(** One element of ["results"] in the reply of [/batch_match]. *)
Record BatchResult : Type := {
  res_job_title : string;
  fit_score : Q;
  res_similarity_score : Q;
  res_required_match_percentage : Q;
  skills_matched : nat;
  missing_required_count : nat
}.

(** [x or []] for an optional list. *)
Definition or_empty {A : Type} (x : option (list A)) : list A :=
  match x with
  | Some (y :: r) => y :: r
  | _ => []
  end.

Section WithVectorizer.
Variable tfidf_cosine : string -> string -> result Q.

(** The body of the [for job_req in job_requirements] loop. *)
Definition batch_row (resume_skills : ResumeSkills) (job_req : JobRequirement)
  : result BatchResult :=
  analysis_result ←
    analyze_skill_gap tfidf_cosine
      (skills resume_skills)
      (required_skills job_req)
      (or_empty (preferred_skills job_req));
  Ok {| res_job_title := job_title job_req;
        fit_score := job_fit_score analysis_result;
        res_similarity_score := similarity_score analysis_result;
        res_required_match_percentage := required_match_percentage analysis_result;
        skills_matched := total_skills_matched analysis_result;
        missing_required_count := length (missing_required analysis_result) |}.

(** The loop itself: [results] grows by one row per job; an exception
    leaves the loop. *)
Fixpoint batch_loop (resume_skills : ResumeSkills)
    (job_requirements : list JobRequirement) (results : list BatchResult)
    : result (list BatchResult) :=
  match job_requirements with
  | [] => Ok results
  | job_req :: rest =>
      row ← batch_row resume_skills job_req;
      batch_loop resume_skills rest (results ++ [row])
  end.

(** Loop and sort: the ranking proper. *)
Definition rank_jobs (resume_skills : ResumeSkills)
    (job_requirements : list JobRequirement) : result (list BatchResult) :=
  results ← batch_loop resume_skills job_requirements [];
  Ok (PySort.sort_reverse fit_score results).

(** The endpoint: the two guards, the ranking, and the handler that
    turns any other exception into a status 500. *)
Definition batch_match_resume (resume_skills : ResumeSkills)
    (job_requirements : list JobRequirement) : result (list BatchResult) :=
  if is_nil (skills resume_skills)
  then Raise (HTTPException 400 "Resume skills cannot be empty")
  else if is_nil job_requirements
  then Raise (HTTPException 400 "Job requirements list cannot be empty")
  else match rank_jobs resume_skills job_requirements with
       | Ok results => Ok results
       | Raise (HTTPException c d) => Raise (HTTPException c d)
       | Raise _ => Raise (HTTPException 500 "Internal server error")
       end.

End WithVectorizer.

End Backend.

(** ** [utils/resume_parser.py] *)

Module ResumeParser.
Import PyStr.

(** *** [extract_name] *)

Definition name_headers : list string := ["RESUME"; "CV"; "CURRICULUM VITAE"].

Section WithBuiltins.

(** The string methods that [extract_name] calls and whose result rests
    on the character tables of the interpreter: [s.strip()], [s.split()],
    [s.upper()] and [s.isalpha()].  [PyStr] has them for ASCII text; a
    name may be written in any script, so here they are parameters, like
    the other library code. *)
Variable str_strip : string → string.
Variable str_split : string → list string.
Variable str_upper : string → string.
Variable str_isalpha : string → bool.

(** [word.replace('.', '').isalpha()] *)
Definition name_word (word : string) : bool := str_isalpha (remove_char "." word).

(** The [for] loop over [lines[:5]]: [continue] moves to the next line,
    [return line] leaves with the stripped line. *)
Fixpoint extract_name_loop (lines : list string) : option string :=
  match lines with
  | [] => None
  | line :: rest =>
      let line := str_strip line in
      if is_empty line || bool_decide (str_upper line ∈ name_headers)
      then extract_name_loop rest
      else
        let words := str_split line in
        if (1 <=? length words)%nat && (length words <=? 4)%nat
        then if List.forallb name_word words then Some line
             else extract_name_loop rest
        else extract_name_loop rest
  end.

Definition extract_name (text : string) : option string :=
  let lines := split_on "010" (str_strip text) in
  extract_name_loop (take 5 lines).

End WithBuiltins.

(** *** [extract_education] *)

(** A match object of [re]: the span of the whole match and its groups. *)
Record re_match : Type := {
  m_start : nat;
  m_end : nat;
  m_group : nat -> string
}.

Inductive re_flag : Type := IGNORECASE | DOTALL.

Record EducationEntry : Type := {
  degree : string;
  institution : option string;
  year : option string;
  score : option string
}.

Definition edu_section_pattern : string :=
  "(?:ACADEMIC QUALIFICATION|EDUCATION|EDUCATIONAL QUALIFICATION)[\s:]*\n(.*?)(?:\n\n[A-Z]{2,}|\nWORK|EXPERIENCE|SKILLS|PROJECTS|$)".

(** The table [degree_patterns]: regular expression and canonical label. *)
Definition degree_patterns : list (string * string) :=
  [ ("B\.?Tech\s+(?:CSE|CS|IT|ECE|EE|ME)?(?:\s+AI\s*&?\s*ML)?", "B.Tech");
    ("Bachelor\s+of\s+Technology", "B.Tech");
    ("M\.?Tech", "M.Tech");
    ("Master\s+of\s+Technology", "M.Tech");
    ("B\.?E\.?", "B.E.");
    ("Bachelor\s+of\s+Engineering", "B.E.");
    ("BCA", "BCA");
    ("MCA", "MCA");
    ("MBA", "MBA");
    ("12th|XII|Higher\s+Secondary", "12th");
    ("10th|X(?:\s+|$)", "10th") ].

(** [s[a:b]] for [0 <= a] *)
Definition slice (a b : nat) (s : string) : string :=
  String.substring a (b - a) s.

Section WithRegex.

(** [re.search(pattern, text, flags)] and the matches produced by
    [re.finditer(pattern, text, flags)], in order. *)
Variable re_search : string -> list re_flag -> string -> option re_match.
Variable re_finditer : string -> list re_flag -> string -> list re_match.

(** The dictionary appended for an accepted match. *)
Definition education_entry (edu_text : string) (m : re_match) : EducationEntry :=
  let degree_full := strip (m_group m 0) in
  (* subtraction on [nat] stops at 0: [max(0, match.start() - 50)] *)
  let context_start := (m_start m - 50)%nat in
  let context_end := Nat.min (String.length edu_text) (m_end m + 150) in
  let context := slice context_start context_end edu_text in
  let year_match := re_search "(20\d{2}|19\d{2})" [] context in
  let year := (fun y => m_group y 0) <$> year_match in
  let score_match := re_search "(\d+\.?\d*)\s*(?:%|CGPA|cgpa)" [IGNORECASE] context in
  let score := (fun y => m_group y 0) <$> score_match in
  let inst_match :=
    re_search "([A-Z][A-Za-z\s]+(?:University|College|Board|Institute))" [] context in
  let institution := (fun y => strip (m_group y 1)) <$> inst_match in
  {| degree := degree_full;
     institution := institution;
     year := year;
     score := score |}.

(** The state of the two nested loops: [seen_degrees] and [education]. *)
Definition edu_state : Type := gset string * list EducationEntry.

(** One turn of the inner loop, for a match of a pattern labelled
    [degree_name]. *)
Definition match_step (edu_text degree_name : string)
    (st : edu_state) (m : re_match) : edu_state :=
  let '(seen_degrees, education) := st in
  if bool_decide (degree_name ∈ seen_degrees)
  then (seen_degrees, education)
  else (seen_degrees ∪ {[ degree_name ]},
        education ++ [education_entry edu_text m]).

(** One turn of the outer loop. *)
Definition pattern_step (edu_text : string)
    (st : edu_state) (entry : string * string) : edu_state :=
  let '(pattern, degree_name) := entry in
  List.fold_left (match_step edu_text degree_name)
                 (re_finditer pattern [IGNORECASE] edu_text) st.

Definition extract_education (text : string) : list EducationEntry :=
  let st : edu_state := (∅, []) in
  match re_search edu_section_pattern [IGNORECASE; DOTALL] text with
  | Some m =>
      let edu_text := m_group m 1 in
      snd (List.fold_left (pattern_step edu_text) degree_patterns st)
  | None => snd st
  end.

End WithRegex.

End ResumeParser.

(** ** More string primitives *)

Module PyStrMore.
Import PyStr.

(** [re.split] on a class of single characters: a cut at every character
    of the class, empty fields kept. *)
Fixpoint split_where_chars (p : ascii → bool) (cur : list ascii) (l : list ascii)
  : list (list ascii) :=
  match l with
  | [] => [List.rev cur]
  | c :: r =>
      if p c
      then List.rev cur :: split_where_chars p [] r
      else split_where_chars p (c :: cur) r
  end.

Definition split_where (p : ascii → bool) (s : string) : list string :=
  List.map str (split_where_chars p [] (chars s)).

(** [s.title()]: a letter is put in upper case after a character that is
    no letter and in lower case after a letter. *)
Fixpoint title_chars (after_letter : bool) (l : list ascii) : list ascii :=
  match l with
  | [] => []
  | c :: r =>
      if is_alpha c
      then (if after_letter then lower_char c else upper_char c) :: title_chars true r
      else c :: title_chars false r
  end.

Definition title : string → string := on_chars (title_chars false).

(** [sorted(s)] for a set of strings: the order of [str] is the
    lexicographic order of the code points. *)
Definition sorted (s : gset string) : list string :=
  merge_sort String.le (elements s).

End PyStrMore.

(** ** [utils/skill_processor.py], the other methods *)

Module SkillProcessorTools.
Import PyStr PyStrMore SkillProcessor.

(** The ASCII delimiters of [extract_skills_from_text]; the two others of
    the source, the bullets U+2022 and U+00B7, do not occur in ASCII
    text. *)
Definition is_delimiter (c : ascii) : bool :=
  Ascii.eqb c "," || Ascii.eqb c ";" || Ascii.eqb c "|" || Ascii.eqb c "010".

(** The loop that cleans and filters the pieces. *)
Definition keep_piece (skills : list string) (skill : string) : list string :=
  let skill := strip skill in
  if (2 <=? String.length skill)%nat && (String.length skill <=? 50)%nat
  then skills ++ [skill]
  else skills.

Definition extract_skills_from_text (text : string) : list string :=
  let potential_skills := split_where is_delimiter text in
  let skills := List.fold_left keep_piece potential_skills [] in
  normalize_skills skills.

(** The binary vector, as the list of its entries. *)
Definition create_skill_vector (skills : list string) (all_skills : gset string)
  : list nat :=
  let skill_set : gset string := list_to_set (normalize_skills skills) in
  List.map (λ skill, if bool_decide (skill ∈ skill_set) then 1 else 0)
           (sorted all_skills).

(** The dictionary returned by [calculate_skill_overlap]. *)
Record Overlap : Type := {
  matching : list string;
  only_in_first : list string;
  only_in_second : list string;
  overlap_ratio : Q;
  match_count : nat;
  total_unique : nat
}.

Definition calculate_skill_overlap (skills1 skills2 : list string) : result Overlap :=
  let set1 : gset string := list_to_set (normalize_skills skills1) in
  let set2 : gset string := list_to_set (normalize_skills skills2) in
  let matching := set1 ∩ set2 in
  let only_in_1 := set1 ∖ set2 in
  let only_in_2 := set2 ∖ set1 in
  let total_unique := size (set1 ∪ set2) in
  overlap_ratio ←
    (if (0 <? total_unique)%nat
     then PyFloat.div (PyFloat.len (elements matching))
                      (inject_Z (Z.of_nat total_unique))
     else Ok 0%Q);
  Ok {| matching := elements matching;
        only_in_first := elements only_in_1;
        only_in_second := elements only_in_2;
        overlap_ratio := overlap_ratio;
        match_count := size matching;
        total_unique := total_unique |}.

End SkillProcessorTools.

(** ** [frontend/app.py]: the skills typed into the form *)

Module Frontend.
Import PyStr PyStrMore.

(** The class [[,;\n|]] *)
Definition is_separator (c : ascii) : bool :=
  Ascii.eqb c "," || Ascii.eqb c ";" || Ascii.eqb c "010" || Ascii.eqb c "|".

Definition parse_skills_input (skills_text : string) : list string :=
  let skills := split_where is_separator skills_text in
  List.map strip (List.filter (λ s, negb (is_empty (strip s))) skills).

End Frontend.

(** ** [utils/resume_parser.py], the other methods *)

Module ResumeParserTools.
Import PyStr PyStrMore ResumeParser.

(** The line feed, [chr(10)]. *)
Definition nl : string := String "010" "".

(** [self.skill_patterns] *)
Definition skill_patterns : list string :=
  [ "\b(?:python|java|javascript|typescript|c\+\+|c#|ruby|php|swift|kotlin|go|rust)\b";
    "\b(?:react|angular|vue|node\.?js|express|django|flask|fastapi|spring|laravel)\b";
    "\b(?:sql|mysql|postgresql|mongodb|redis|elasticsearch|cassandra|oracle)\b";
    "\b(?:aws|azure|gcp|docker|kubernetes|jenkins|terraform|ansible)\b";
    "\b(?:machine learning|deep learning|nlp|computer vision|tensorflow|pytorch|scikit-learn)\b";
    "\b(?:git|github|gitlab|bitbucket|ci/cd|devops|agile|scrum)\b";
    "\b(?:html|css|sass|less|bootstrap|tailwind|material-ui)\b";
    "\b(?:rest api|graphql|microservices|websockets|grpc)\b";
    "\b(?:pandas|numpy|matplotlib|seaborn|plotly|jupyter)\b";
    "\b(?:linux|unix|bash|shell scripting|powershell)\b" ].

(** *** [_normalize_skill_name] *)

(** The pairs of the dictionary [skill_map]. *)
Definition skill_map_items : list (string * string) :=
  [ ("python", "Python");
    ("java", "Java");
    ("javascript", "JavaScript");
    ("typescript", "TypeScript");
    ("c++", "C++");
    ("c#", "C#");
    ("node.js", "Node.js");
    ("nodejs", "Node.js");
    ("react", "React");
    ("angular", "Angular");
    ("vue", "Vue");
    ("django", "Django");
    ("flask", "Flask");
    ("fastapi", "FastAPI");
    ("sql", "SQL");
    ("mysql", "MySQL");
    ("postgresql", "PostgreSQL");
    ("mongodb", "MongoDB");
    ("redis", "Redis");
    ("aws", "AWS");
    ("azure", "Azure");
    ("gcp", "GCP");
    ("docker", "Docker");
    ("kubernetes", "Kubernetes");
    ("git", "Git");
    ("github", "GitHub");
    ("html", "HTML");
    ("css", "CSS");
    ("rest api", "REST API");
    ("graphql", "GraphQL");
    ("tensorflow", "TensorFlow");
    ("pytorch", "PyTorch");
    ("scikit-learn", "Scikit-learn");
    ("machine learning", "Machine Learning");
    ("deep learning", "Deep Learning");
    ("nlp", "NLP");
    ("computer vision", "Computer Vision");
    ("pandas", "Pandas");
    ("numpy", "NumPy");
    ("ci/cd", "CI/CD");
    ("devops", "DevOps") ].

Definition skill_map : gmap string string := list_to_map skill_map_items.

(** [skill_map.get(skill_lower, skill)] *)
Definition _normalize_skill_name (skill : string) : string :=
  let skill_lower := lower skill in
  match skill_map !! skill_lower with
  | Some name => name
  | None => skill
  end.

(** *** The patterns of the other methods *)

Definition exclude_patterns : list string :=
  [ "^\d+\s+years?";
    "experience";
    "^\w+:$";
    ":\s*$";
    "at\s+\w+";
    "^\d{4}[-–]\d{4}";
    "bachelor|master|phd|degree";
    "developed|implemented|worked|built";
    "senior|junior|lead|principal";
    "engineer|developer|scientist|analyst";
    "programming\s+languages";
    "web\s+technologies";
    "tools?\s+&?\s+technologies";
    "databases?:";
    "^projects?$";
    "^technical\s+skills?$" ].

Definition skills_pattern : string :=
  "(?:skills?|technical skills?|core competencies|technologies)[\s:]*\n(.*?)(?:\n\n|\n[A-Z]|$)".

Definition email_pattern : string :=
  "\b[A-Za-z0-9._%+-]+@[A-Za-z0-9.-]+\.[A-Z|a-z]{2,}\b".

Definition phone_patterns : list string :=
  [ "\b\d{10}\b";
    "\b\d{5}\s?\d{5}\b";
    "\+91[-\s]?\d{10}\b";
    "\b91\d{10}\b" ].

Definition exp_section_pattern : string :=
  "(?:WORK EXPERIENCE|EXPERIENCE|PROFESSIONAL EXPERIENCE|EMPLOYMENT)[\s:]*\n(.*?)(?:\n\n[A-Z]{2,}|\nEDUCATION|SKILLS|PROJECTS|$)".

Definition exp_line_pattern : string :=
  "((?:Software|Senior|Junior|Lead|Full Stack|Backend|Frontend|Data|ML|DevOps)?\s*(?:Engineer|Developer|Analyst|Manager|Intern))\s+at\s+([A-Za-z\s&,\.]+?)(?:\s*\()(\d{4}\s*[-–]\s*(?:\d{4}|Present|Current))".

Definition years_patterns : list string :=
  [ "(\d+)\+?\s*years?\s+(?:of\s+)?experience";
    "experience[:\s]+(\d+)\+?\s*years?";
    "(\d+)\+?\s*yrs?\s+(?:of\s+)?experience" ].

(** The ASCII characters of the class [[,;•\n|]] that cuts a skills
    section into items. *)
Definition is_item_separator (c : ascii) : bool :=
  Ascii.eqb c "," || Ascii.eqb c ";" || Ascii.eqb c "010" || Ascii.eqb c "|".

(** [re.sub(r'^[-•*]\s*', '', item)]: a leading marker goes, with the
    white space after it. *)
Definition remove_marker_chars (l : list ascii) : list ascii :=
  match l with
  | c :: r => if Ascii.eqb c "-" || Ascii.eqb c "*" then lstrip_chars r else l
  | [] => []
  end.

Definition remove_marker : string → string := on_chars remove_marker_chars.

(** The dictionary appended by [extract_work_experience]. *)
Record WorkEntry : Type := {
  title : string;
  company : string;
  duration : string
}.

(** The file contents handed to the parser. *)
Definition bytes : Type := list Byte.byte.

(** The dictionary returned by [parse_resume_full]. *)
Record ParsedResume : Type := {
  text : string;
  name : option string;
  email : option string;
  phone : option string;
  skills : list string;
  education : list EducationEntry;
  work_experience : list WorkEntry;
  experience_years : option Binary64.double;
  filename : string
}.

(** [filename.lower().split('.')[-1]] *)
Definition file_extension (filename : string) : string :=
  List.last (split_on "." (lower filename)) "".

Section WithLibraries.

(** The regular-expression engine, as in [ResumeParser]. *)
Variable re_search : string → list re_flag → string → option re_match.
Variable re_finditer : string → list re_flag → string → list re_match.

(** The string methods of [extract_name]. *)
Variable str_strip : string → string.
Variable str_split : string → list string.
Variable str_upper : string → string.
Variable str_isalpha : string → bool.

(** [float(s)] for a string: the double nearest to the number written,
    an infinity when it is too large, or [None] where Python raises
    [ValueError]. *)
Variable py_float : string → option Binary64.double.

(** [PyPDF2.PdfReader(BytesIO(b))] and [extract_text()] on each of its
    pages; [docx.Document(BytesIO(b))] with the texts of its paragraphs
    and, table by table and row by row, of its cells.  Either may raise. *)
Variable pdf_pages : bytes → result (list string).
Variable docx_document : bytes → result (list string * list (list (list string))).

(** [str(e)] for an exception. *)
Variable exn_text : exn → string.

(** *** [_is_valid_skill] *)

(** The loop over [exclude_patterns]: [False] at the first pattern found
    in the text. *)
Fixpoint exclude_loop (patterns : list string) (text_lower : string) : bool :=
  match patterns with
  | [] => true
  | pattern :: rest =>
      match re_search pattern [] text_lower with
      | Some _ => false
      | None => exclude_loop rest text_lower
      end
  end.

Definition _is_valid_skill (text : string) : bool :=
  if is_empty text
     || (String.length text <? 2)%nat || (50 <? String.length text)%nat
  then false
  else exclude_loop exclude_patterns (lower text).

(** *** [_extract_skills_section] *)

(** The inner loop, over the items of one section. *)
Definition item_step (skills : list string) (item : string) : list string :=
  let item := strip item in
  let item := remove_marker item in
  if _is_valid_skill item
  then skills ++ [_normalize_skill_name item]
  else skills.

(** The outer loop, over the sections found. *)
Definition section_step (skills : list string) (m : re_match) : list string :=
  let skills_text := m_group m 1 in
  let skill_items := split_where is_item_separator skills_text in
  List.fold_left item_step skill_items skills.

Definition _extract_skills_section (text : string) : list string :=
  let matches := re_finditer skills_pattern [IGNORECASE; DOTALL] text in
  List.fold_left section_step matches [].

(** *** [extract_skills_from_text] *)

(** The inner loop, over the matches of one keyword pattern. *)
Definition keyword_step (skills : gset string) (m : re_match) : gset string :=
  let skill := m_group m 0 in
  let skill := PyStrMore.title (strip skill) in
  let skill := _normalize_skill_name skill in
  if _is_valid_skill skill then skills ∪ {[ skill ]} else skills.

(** The outer loop, over [skill_patterns]. *)
Definition pattern_step (text_lower : string) (skills : gset string)
    (pattern : string) : gset string :=
  List.fold_left keyword_step (re_finditer pattern [IGNORECASE] text_lower) skills.

Definition extract_skills_from_text (text : string) : list string :=
  let text_lower := lower text in
  let skills := List.fold_left (pattern_step text_lower) skill_patterns ∅ in
  let skills_section := _extract_skills_section text in
  let skills :=
    if negb (SkillMatcher.is_nil skills_section)
    then skills ∪ list_to_set skills_section
    else skills in
  sorted skills.

(** *** [extract_email], [extract_phone] *)

Definition extract_email (text : string) : option string :=
  (λ m, m_group m 0) <$> re_search email_pattern [] text.

Fixpoint phone_loop (patterns : list string) (text : string) : option string :=
  match patterns with
  | [] => None
  | pattern :: rest =>
      match re_search pattern [] text with
      | Some m => Some (m_group m 0)
      | None => phone_loop rest text
      end
  end.

Definition extract_phone (text : string) : option string :=
  phone_loop phone_patterns text.

(** *** [extract_work_experience] *)

(** The state of the loop: [seen_entries] and [experiences]. *)
Definition exp_state : Type := gset string * list WorkEntry.

(** [f"{title}|{company}"] *)
Definition entry_key (title company : string) : string :=
  title +:+ "|" +:+ company.

(** One turn of the loop over the lines of the section. *)
Definition line_step (st : exp_state) (line : string) : exp_state :=
  let '(seen_entries, experiences) := st in
  let line := strip line in
  if is_empty line then st
  else
    match re_search exp_line_pattern [IGNORECASE] line with
    | Some exp_match =>
        let title := strip (m_group exp_match 1) in
        let company := strip (m_group exp_match 2) in
        let duration := strip (m_group exp_match 3) in
        if bool_decide (entry_key title company ∉ seen_entries)
        then (seen_entries ∪ {[ entry_key title company ]},
              experiences ++ [{| title := title;
                                 company := company;
                                 duration := duration |}])
        else st
    | None => st
    end.

Definition extract_work_experience (text : string) : list WorkEntry :=
  let st : exp_state := (∅, []) in
  match re_search exp_section_pattern [IGNORECASE; DOTALL] text with
  | Some m =>
      let exp_text := m_group m 1 in
      let lines := split_on "010" exp_text in
      snd (List.fold_left line_step lines st)
  | None => snd st
  end.

(** *** [extract_experience_years] *)

(** The loop over the patterns: a match whose group is no number is
    passed over. *)
Fixpoint years_loop (patterns : list string) (text : string)
  : option Binary64.double :=
  match patterns with
  | [] => None
  | pattern :: rest =>
      match re_search pattern [IGNORECASE] text with
      | Some m =>
          match py_float (m_group m 1) with
          | Some years => Some years
          | None => years_loop rest text
          end
      | None => years_loop rest text
      end
  end.

Definition extract_experience_years (text : string) : option Binary64.double :=
  years_loop years_patterns text.

(** *** [parse_pdf], [parse_docx], [parse_resume] *)

Definition parse_pdf (file_content : bytes) : result string :=
  match pdf_pages file_content with
  | Ok pages =>
      let text := List.fold_left (λ text page, text +:+ (page +:+ nl)) pages "" in
      Ok (strip text)
  | Raise e => Raise (ValueError ("Error parsing PDF: " +:+ exn_text e))
  end.

Definition parse_docx (file_content : bytes) : result string :=
  match docx_document file_content with
  | Ok (paragraphs, tables) =>
      let text :=
        List.fold_left (λ text paragraph, text +:+ (paragraph +:+ nl)) paragraphs "" in
      let text :=
        List.fold_left
          (λ text table,
             List.fold_left
               (λ text row,
                  List.fold_left (λ text cell, text +:+ (cell +:+ " ")) row text +:+ nl)
               table text)
          tables text in
      Ok (strip text)
  | Raise e => Raise (ValueError ("Error parsing DOCX: " +:+ exn_text e))
  end.

Definition parse_resume (file_content : bytes) (filename : string) : result string :=
  let file_extension := file_extension filename in
  if String.eqb file_extension "pdf" then parse_pdf file_content
  else if bool_decide (file_extension ∈ ["docx"; "doc"]) then parse_docx file_content
  else Raise (ValueError ("Unsupported file format: " +:+ file_extension
                          +:+ ". Please upload PDF or DOCX files.")).

(** *** [parse_resume_full] *)

Definition parse_resume_full (file_content : bytes) (filename : string)
  : result ParsedResume :=
  text ← parse_resume file_content filename;
  let name := extract_name str_strip str_split str_upper str_isalpha text in
  let email := extract_email text in
  let phone := extract_phone text in
  let skills := extract_skills_from_text text in
  let education := extract_education re_search re_finditer text in
  let work_experience := extract_work_experience text in
  let experience_years := extract_experience_years text in
  Ok {| text := text;
        name := name;
        email := email;
        phone := phone;
        skills := skills;
        education := education;
        work_experience := work_experience;
        experience_years := experience_years;
        filename := filename |}.

End WithLibraries.

End ResumeParserTools.

(** ** [backend/main.py]: the endpoints [/upload_resume] and [/match_resume] *)

Module Endpoints.
Import PyStr.

(** [SkillGapAnalysis], [MatchRequest] and [MatchResponse] of
    [backend/models.py]. *)
Record SkillGapAnalysis : Type := {
  job_fit_score : Q;
  matching_skills : list string;
  missing_skills : list string;
  additional_skills : list string;
  similarity_score : Q;
  recommendations : list string
}.

Record MatchRequest : Type := {
  resume_skills : Backend.ResumeSkills;
  job_requirement : Backend.JobRequirement
}.

Record MatchResponse : Type := {
  analysis : SkillGapAnalysis;
  job_title : string;
  status : string
}.

(** The dictionary returned by [upload_resume]. *)
Record UploadResponse : Type := {
  up_status : string;
  up_filename : string;
  up_name : option string;
  up_email : option string;
  up_phone : option string;
  up_skills : list string;
  up_education : list ResumeParser.EducationEntry;
  up_work_experience : list ResumeParserTools.WorkEntry;
  up_experience_years : option Binary64.double;
  text_preview : string;
  total_skills_found : nat
}.

Definition allowed_extensions : list string := ["pdf"; "docx"; "doc"].

(** [text[:500] + "..." if len(text) > 500 else text] *)
Definition preview (text : string) : string :=
  if (500 <? String.length text)%nat
  then String.substring 0 500 text +:+ "..."
  else text.

Section WithLibraries.

Variable tfidf_cosine : string → string → result Q.
Variable re_search : string → list ResumeParser.re_flag → string → option ResumeParser.re_match.
Variable re_finditer : string → list ResumeParser.re_flag → string → list ResumeParser.re_match.
Variable str_strip : string → string.
Variable str_split : string → list string.
Variable str_upper : string → string.
Variable str_isalpha : string → bool.
Variable py_float : string → option Binary64.double.
Variable pdf_pages : ResumeParserTools.bytes → result (list string).
Variable docx_document :
  ResumeParserTools.bytes → result (list string * list (list (list string))).
Variable exn_text : exn → string.

(** *** [/match_resume] *)

(** The body of the [try]. *)
Definition match_resume_body (request : MatchRequest) : result MatchResponse :=
  let resume_skills := Backend.skills (resume_skills request) in
  let job_requirement := job_requirement request in
  if SkillMatcher.is_nil resume_skills
  then Raise (HTTPException 400 "Resume skills cannot be empty")
  else if SkillMatcher.is_nil (Backend.required_skills job_requirement)
  then Raise (HTTPException 400 "Job required skills cannot be empty")
  else
    analysis_result ←
      SkillMatcher.analyze_skill_gap tfidf_cosine
        resume_skills
        (Backend.required_skills job_requirement)
        (Backend.or_empty (Backend.preferred_skills job_requirement));
    let recommendations :=
      SkillMatcher.generate_recommendations
        (SkillMatcher.missing_required analysis_result)
        (SkillMatcher.missing_preferred analysis_result)
        (SkillMatcher.job_fit_score analysis_result) in
    let all_matching :=
      SkillMatcher.matching_required analysis_result
      ++ SkillMatcher.matching_preferred analysis_result in
    let skill_gap_analysis :=
      {| job_fit_score := SkillMatcher.job_fit_score analysis_result;
         matching_skills := all_matching;
         missing_skills := SkillMatcher.missing_required analysis_result;
         additional_skills := SkillMatcher.additional_skills analysis_result;
         similarity_score := SkillMatcher.similarity_score analysis_result;
         recommendations := recommendations |} in
    Ok {| analysis := skill_gap_analysis;
          job_title := Backend.job_title job_requirement;
          status := "success" |}.

(** The handlers: an [HTTPException] goes through, any other exception
    becomes a status 500. *)
Definition match_resume (request : MatchRequest) : result MatchResponse :=
  match match_resume_body request with
  | Ok response => Ok response
  | Raise (HTTPException status_code detail) =>
      Raise (HTTPException status_code detail)
  | Raise e =>
      Raise (HTTPException 500 ("Internal server error: " +:+ exn_text e))
  end.

(** *** [/upload_resume] *)

(** The body of the [try], for an upload that carries a file name;
    [file_content] is what [file.read()] gave. *)
Definition upload_resume_body (filename : string)
    (file_content : ResumeParserTools.bytes) : result UploadResponse :=
  let file_extension := ResumeParserTools.file_extension filename in
  if bool_decide (file_extension ∉ allowed_extensions)
  then Raise (HTTPException 400
                ("Invalid file type. Allowed types: " +:+ join ", " allowed_extensions))
  else if SkillMatcher.is_nil file_content
  then Raise (HTTPException 400 "Empty file uploaded")
  else
    parsed_data ←
      ResumeParserTools.parse_resume_full
        re_search re_finditer str_strip str_split str_upper str_isalpha
        py_float pdf_pages docx_document exn_text
        file_content filename;
    Ok {| up_status := "success";
          up_filename := ResumeParserTools.filename parsed_data;
          up_name := ResumeParserTools.name parsed_data;
          up_email := ResumeParserTools.email parsed_data;
          up_phone := ResumeParserTools.phone parsed_data;
          up_skills := ResumeParserTools.skills parsed_data;
          up_education := ResumeParserTools.education parsed_data;
          up_work_experience := ResumeParserTools.work_experience parsed_data;
          up_experience_years := ResumeParserTools.experience_years parsed_data;
          text_preview := preview (ResumeParserTools.text parsed_data);
          total_skills_found := length (ResumeParserTools.skills parsed_data) |}.

(** The handlers: [ValueError] becomes a status 400; every other
    exception, an [HTTPException] raised in the body included, becomes a
    status 500. *)
Definition upload_resume (filename : string)
    (file_content : ResumeParserTools.bytes) : result UploadResponse :=
  match upload_resume_body filename file_content with
  | Ok response => Ok response
  | Raise (ValueError msg) => Raise (HTTPException 400 (exn_text (ValueError msg)))
  | Raise e =>
      Raise (HTTPException 500 ("Error processing resume: " +:+ exn_text e))
  end.

End WithLibraries.

End Endpoints.

(** * Vocabulary of the statements

    Definitions that belong to no source file: the predicates, invariants
    and sample data the properties below are stated with. *)

Global Instance Qeq_decision (x y : Q) : Decision (x == y)%Q := Qeq_dec x y.

Module SkillProcessorSpec.
Import PyStr SkillProcessor.

(** Invariant of the de-duplication loop: [seen] is the set of [result],
    [result] has no repetition and no empty string, and it holds what it
    held before plus the non-empty strings visited. *)
Definition dedup_inv (visited : list string) (acc : gset string * list string) : Prop :=
  fst acc = list_to_set (snd acc)
  ∧ NoDup (snd acc)
  ∧ ∀ x, x ∈ snd acc ↔ x ≠ "" ∧ x ∈ visited.

(** [normalize_skill] on lists of characters: the steps before the lookup,
    and the lookup. *)
Definition norm_chars (l : list ascii) : list ascii :=
  collapse_ws false (List.filter kept_char (strip_chars (List.map lower_char l))).

Definition resolve (skill : string) : string :=
  match skill_synonyms !! skill with
  | Some canonical => canonical
  | None => skill
  end.

(** A tidy list of characters is one the steps before the trim leave
    alone: kept characters, none in upper case, no white space but single
    blanks. *)
Definition tidy_char (c : ascii) : bool :=
  kept_char c && Ascii.eqb (lower_char c) c && (negb (is_space c) || Ascii.eqb c " ").

Fixpoint single_spaced (after_space : bool) (l : list ascii) : bool :=
  match l with
  | [] => true
  | c :: r =>
      if is_space c then negb after_space && single_spaced true r
      else single_spaced false r
  end.

Definition tidy (l : list ascii) : Prop :=
  List.forallb tidy_char l = true ∧ single_spaced false l = true.

(** A tight list has no white space at either end. *)
Definition edge_ok (l : list ascii) : Prop :=
  match l with
  | [] => True
  | c :: _ => is_space c = false
  end.

Definition tight (l : list ascii) : Prop := edge_ok l ∧ edge_ok (List.rev l).

(** The first character, if there is one, is one the normaliser keeps. *)
Definition edge_kept (l : list ascii) : Prop :=
  match l with
  | [] => True
  | c :: _ => kept_char c = true
  end.

End SkillProcessorSpec.

Module SkillMatcherSpec.
Import PyStr SkillProcessor SkillMatcher PyFloat.
Local Open Scope Q_scope.

(** The set of normalised skills of a raw list: [set(normalize_skills(l))]. *)
Definition normalized (l : list string) : gset string :=
  list_to_set (normalize_skills l).

(** [len(m) / len(l)], or [0] for an empty [l]. *)
Definition ratio (m l : list string) : Q :=
  if is_nil l then 0 else len m / len l.

(** A stand-in vectoriser for the examples: identical documents have
    similarity 1, different ones 1/2. *)
Definition sample_cosine (a b : string) : result Q :=
  if String.eqb a b then Ok 1 else Ok (1 # 2).

Definition headlines : list string :=
  [headline_excellent; headline_good; headline_moderate; headline_low].

(** The headline chosen by the first [if] ladder. *)
Definition headline_for (job_fit_score : Q) : string :=
  if ge job_fit_score 80 then headline_excellent
  else if ge job_fit_score 60 then headline_good
  else if ge job_fit_score 40 then headline_moderate
  else headline_low.

(** Closes [line ∉ headlines] with a lemma [by_tag] that tells the
    headlines by their second character. *)
Ltac not_a_headline by_tag :=
  eapply by_tag; [reflexivity|];
  rewrite !elem_of_cons, elem_of_nil; intros [|[|[|[|[]]]]]; discriminate.

End SkillMatcherSpec.

Module SkillMatcher64Spec.
Import Binary64.
Local Open Scope Q_scope.

(** A stand-in vectoriser for doubles: nothing in common gives 0, and
    identical documents give the double next above 1, which is what the
    normalised dot product of scikit-learn comes to on some documents. *)
Definition sample_cosine_above_one (a b : string) : result double :=
  if String.eqb a b then Ok (finite (1 + (1 # 2 ^ 52))) else Ok (finite 0).

End SkillMatcher64Spec.

Module PySortSpec.
Local Open Scope Q_scope.

Section ByKey.
Context {A : Type}.
Variable key : A → Q.

Definition ascending (a b : A) : Prop := key a <= key b.
Definition descending (a b : A) : Prop := key b <= key a.

End ByKey.

End PySortSpec.

Module BackendSpec.
Import SkillMatcher Backend PySortSpec.

Definition by_fit_descending : BatchResult → BatchResult → Prop :=
  descending fit_score.

(** Sample data for the examples. *)
Definition sample_resume : ResumeSkills :=
  {| skills := ["js"; "react"];
     experience_years := None; education := None; job_titles := None |}.

Definition sample_job (title : string) (required : list string)
    (preferred : option (list string)) : JobRequirement :=
  {| job_title := title; required_skills := required;
     preferred_skills := preferred;
     min_experience := None; education_required := None |}.

Definition sample_jobs : list JobRequirement :=
  [ sample_job "a" ["js"; "go"] None;
    sample_job "b" ["react"] (Some ["js"]);
    sample_job "c" ["go"; "javascript"] None;
    sample_job "d" ["c"] None ].

End BackendSpec.

Module ResumeParserSpec.
Import PyStr ResumeParser.

Definition newline : string := String "010" "".

(** A header, four blank lines, and the name on the sixth line. *)
Definition sample_blank_lines : string :=
  join newline ["RESUME"; ""; ""; ""; ""; "John Doe"].

(** The headers that stand for no name, as the claim lists them. *)
Definition header_lines : list string := ["RESUME"; "CV"; "CURRICULUM VITAE"].

(** A word without its periods, wherever they stand. *)
Definition without_periods (word : string) : string :=
  str (List.filter (λ c, negb (Ascii.eqb c ".")) (chars word)).

(** The wording of the specification takes the periods from the end of a
    word only ([drop_periods] on the reversed word). *)
Fixpoint drop_periods (l : list ascii) : list ascii :=
  match l with
  | c :: r => if Ascii.eqb c "." then drop_periods r else l
  | [] => []
  end.

Definition rstrip_periods : string → string :=
  on_chars (λ l, List.rev (drop_periods (List.rev l))).

Section WithBuiltins.
Variable str_strip : string → string.
Variable str_split : string → list string.
Variable str_upper : string → string.
Variable str_isalpha : string → bool.

(** What makes a trimmed line a name: it is not empty and none of the
    headers in any letter case, it has one to four words, and every
    word, all its periods removed, is alphabetic. *)
Definition name_line (line : string) : bool :=
  negb (is_empty line)
  && negb (bool_decide (str_upper line ∈ header_lines))
  && (1 <=? length (str_split line))%nat
  && (length (str_split line) <=? 4)%nat
  && List.forallb (λ word, str_isalpha (without_periods word)) (str_split line).

(** The lines that are looked at: the first five lines of the trimmed
    text, each trimmed; blank lines take their place among the five. *)
Definition name_window (text : string) : list string :=
  str_strip <$> take 5 (split_on "010" (str_strip text)).

(** The wording of the specification, for comparison with the code: the
    window is the first five lines that are not empty, and a word loses
    only the periods at its end. *)
Definition name_line_spec (line : string) : bool :=
  negb (bool_decide (str_upper line ∈ header_lines))
  && (1 <=? length (str_split line))%nat
  && (length (str_split line) <=? 4)%nat
  && List.forallb (λ word, str_isalpha (rstrip_periods word)) (str_split line).

Definition extract_name_spec (text : string) : option string :=
  let lines := str_strip <$> split_on "010" text in
  let non_empty := List.filter (λ line, negb (is_empty line)) lines in
  List.find name_line_spec (take 5 non_empty).

End WithBuiltins.

(** The canonical labels, in the order of the table. *)
Definition degree_labels : list string :=
  ["B.Tech"; "M.Tech"; "B.E."; "BCA"; "MCA"; "MBA"; "12th"; "10th"].

(** The first pair of a label in a list of labelled matches. *)
Definition first_of (label : string) (visited : list (string * re_match))
  : option re_match :=
  snd <$> List.find (λ p, String.eqb (fst p) label) visited.

(** A stand-in engine for the examples.  It finds the section in every
    text (group 1 is the text itself) and nothing else with [re.search];
    [re.finditer] reports two matches of [MBA] and one of each pattern of
    [B.Tech], the long form standing first in the text. *)
Definition sample_match (start stop : nat) (text : string) : re_match :=
  {| m_start := start; m_end := stop;
     m_group := λ _, String.substring start (stop - start) text |}.

Definition sample_search (pattern : string) (flags : list re_flag) (text : string)
  : option re_match :=
  if String.eqb pattern edu_section_pattern
  then Some {| m_start := 0; m_end := String.length text; m_group := λ _, text |}
  else None.

Definition sample_finditer (pattern : string) (flags : list re_flag) (text : string)
  : list re_match :=
  if String.eqb pattern "MBA" then [sample_match 41 44 text; sample_match 51 54 text]
  else if String.eqb pattern "Bachelor\s+of\s+Technology" then [sample_match 0 22 text]
  else if String.eqb pattern "B\.?Tech\s+(?:CSE|CS|IT|ECE|EE|ME)?(?:\s+AI\s*&?\s*ML)?"
  then [sample_match 24 34 text]
  else [].

Definition sample_education_text : string :=
  "Bachelor of Technology, B.Tech CSE 2020; MBA 2022; MBA 2024".

Section WithRegex.
Variable re_search : string → list re_flag → string → option re_match.
Variable re_finditer : string → list re_flag → string → list re_match.

Abbreviation education_entry := (education_entry re_search).
Abbreviation match_step := (match_step re_search).

(** The text of the education section, when there is one. *)
Definition education_section (text : string) : option string :=
  (λ m, m_group m 1) <$> re_search edu_section_pattern [IGNORECASE; DOTALL] text.

(** The matches in the order in which the two loops come to them, each
    with the label of its pattern. *)
Definition visits (edu_text : string) (table : list (string * string))
  : list (string * re_match) :=
  flat_map (λ '(pattern, degree_name),
              (λ m, (degree_name, m)) <$> re_finditer pattern [IGNORECASE] edu_text)
           table.

Definition visit_step (edu_text : string) (st : edu_state)
    (visit : string * re_match) : edu_state :=
  match_step edu_text (fst visit) st (snd visit).

(** The entry built for a label: from the first match the loops come
    to among the patterns of that label. *)
Definition entry_for (text label : string) : option EducationEntry :=
  edu_text ← education_section text;
  education_entry edu_text <$> first_of label (visits edu_text degree_patterns).

(** Invariant of the loops after the visits [visited]: the entries are
    those of the labels seen so far, one each, built from the first
    visit of the label. *)
Definition edu_inv (edu_text : string) (visited : list (string * re_match))
    (st : edu_state) : Prop :=
  ∃ labels : list string,
    fst st = list_to_set labels
    ∧ NoDup labels
    ∧ (∀ label, label ∈ labels ↔ label ∈ visited.*1)
    ∧ Forall2 (λ label entry,
                 education_entry edu_text <$> first_of label visited = Some entry)
              labels (snd st).

End WithRegex.

End ResumeParserSpec.

Module RecommendationSpec.
Import SkillMatcher.

(** The number of lines that begin with a tag such as [[ADVICE]]. *)
Definition tagged (tag : string) (lines : list string) : nat :=
  length (List.filter (String.prefix tag) lines).

End RecommendationSpec.

Module ResumeParserToolsSpec.
Import PyStr SkillProcessor ResumeParser ResumeParserTools.

(** What the table [skill_map] is made of: a display name is found again
    under its own lower-case form, it has the normal form of its key, and
    it has 2 to 50 characters. *)
Definition display_pair (kv : string * string) : Prop :=
  skill_map !! lower kv.2 = Some kv.2
  ∧ normalize_skill kv.2 = normalize_skill kv.1
  ∧ 2 ≤ String.length kv.2 ≤ 50.

(** A skill as the parser reports it: 2 to 50 characters, and already
    under its display name. *)
Definition reported (skill : string) : Prop :=
  2 ≤ String.length skill ≤ 50 ∧ _normalize_skill_name skill = skill.

(** The key under which [extract_work_experience] remembers an entry. *)
Definition key_of (e : WorkEntry) : string := entry_key (title e) (company e).

(** The fields of an entry carry no white space at either end. *)
Definition trimmed (e : WorkEntry) : Prop :=
  strip (title e) = title e
  ∧ strip (company e) = company e
  ∧ strip (duration e) = duration e.

(** The loop of [extract_work_experience] keeps [seen_entries] equal to
    the keys of [experiences], which are pairwise different. *)
Definition exp_inv (st : exp_state) : Prop :=
  st.1 = list_to_set (key_of <$> st.2)
  ∧ NoDup (key_of <$> st.2)
  ∧ Forall trimmed st.2.

End ResumeParserToolsSpec.

Module EndpointsSpec.
Import PyStr ResumeParser ResumeParserTools.

(** Stand-ins for the libraries in the examples: an engine that finds
    nothing, a PDF reader that gives one page, a DOCX reader that fails,
    and the text of an exception. *)
Definition sample_no_search (pattern : string) (flags : list re_flag) (text : string)
  : option re_match := None.

Definition sample_no_finditer (pattern : string) (flags : list re_flag) (text : string)
  : list re_match := [].

Definition sample_float (s : string) : option Binary64.double := None.

(** An engine that finds a number of 400 digits wherever it looks, and
    what [float] makes of such a number. *)
Definition sample_digits : string := str (replicate 400 "9"%char).

Definition sample_digits_search (pattern : string) (flags : list re_flag)
    (text : string) : option re_match :=
  Some {| m_start := 0; m_end := 400; m_group := λ _, sample_digits |}.

Definition sample_float_overflow (s : string) : option Binary64.double :=
  Some (Binary64.infinite false).

Definition sample_pdf_pages (b : bytes) : result (list string) :=
  Ok ["Jane Doe"; "Python, SQL"].

Definition sample_docx_document (b : bytes)
  : result (list string * list (list (list string))) :=
  Raise (ValueError "File is not a zip file").

Definition sample_exn_text (e : exn) : string :=
  match e with
  | ValueError msg => msg
  | ZeroDivisionError => "float division by zero"
  | HTTPException status_code detail => detail
  end.

End EndpointsSpec.

Module TextSpec.
Import PyStr.

(** A text of ASCII characters only: every code is below 128.  On such
    text the string methods of [PyStr] are those of Python. *)
Definition ascii_text (s : string) : Prop :=
  Forall (λ c, (code c < 128)%N) (chars s).

(** [x] comes before [y] in the order of first appearance in [l]: a
    front part of [l] has [x] and has not [y]. *)
Definition first_before (l : list string) (x y : string) : Prop :=
  ∃ front back, l = front ++ back ∧ x ∈ front ∧ y ∉ front.

(** Closes [ascii_text s] for a literal [s], character by character. *)
Ltac ascii_text_holds :=
  unfold ascii_text; cbn [chars list_ascii_of_string];
  repeat first [apply Forall_nil_2 | apply Forall_cons_2; [reflexivity|]].

End TextSpec.

Module ReportSpec.
Import PyStr ResumeParserTools TextSpec.

(** A skill as the parser lists it: it is under its display name, and
    when it is written in ASCII it has 2 to 50 characters. *)
Definition listed (skill : string) : Prop :=
  (ascii_text skill → 2 ≤ String.length skill ≤ 50)
  ∧ _normalize_skill_name skill = skill.

(** How often [x] occurs in [l]. *)
Definition occurrences (x : string) (l : list string) : nat :=
  length (filter (λ y, y = x) l).

End ReportSpec.

(** * Properties *)

(** ** The normaliser *)

Module SkillProcessorFacts.
Import PyStr SkillProcessor SkillProcessorSpec.

Lemma is_empty_spec (s : string) : is_empty s = true ↔ s = "".
Proof. destruct s; simpl; split; congruence. Qed.

Lemma dedup_step_inv visited acc skill :
  dedup_inv visited acc → dedup_inv (visited ++ [skill]) (dedup_step acc skill).
Proof.
  destruct acc as [seen res]. intros (Hseen & Hnd & Hel). simpl in *. subst seen.
  unfold dedup_step.
  destruct (is_empty skill) eqn:He; simpl.
  - apply is_empty_spec in He. subst skill.
    split_and!; simpl; auto.
    intros x. rewrite Hel, elem_of_app, list_elem_of_singleton. naive_solver.
  - assert (skill ≠ "") as Hne by (intros ->; discriminate He).
    case_bool_decide as Hin; simpl.
    + rewrite elem_of_list_to_set in Hin.
      split_and!; simpl.
      * rewrite list_to_set_app_L. simpl. by rewrite union_empty_r_L.
      * apply NoDup_app. split_and!; auto.
        -- by intros x Hx ->%list_elem_of_singleton.
        -- apply NoDup_singleton.
      * intros x.
        rewrite elem_of_app, Hel, elem_of_app, list_elem_of_singleton.
        naive_solver.
    + rewrite elem_of_list_to_set in Hin.
      split_and!; simpl; auto.
      intros x. rewrite Hel, elem_of_app, list_elem_of_singleton.
      split; [naive_solver|].
      intros [? [?| ->]]; [naive_solver|]. by apply Hel in Hin.
Qed.

Lemma dedup_fold_inv l visited acc :
  dedup_inv visited acc →
  dedup_inv (visited ++ l) (List.fold_left dedup_step l acc).
Proof.
  revert visited acc. induction l as [|x l IH]; intros visited acc Hinv; simpl.
  - by rewrite app_nil_r.
  - replace (visited ++ x :: l) with ((visited ++ [x]) ++ l)
      by (by rewrite <- app_assoc).
    apply IH. by apply dedup_step_inv.
Qed.

Lemma dedup_inv_init : dedup_inv [] (∅, []).
Proof.
  split_and!; simpl; [done|constructor|].
  intros x. split; [by intros ?%elem_of_nil|by intros [_ ?%elem_of_nil]].
Qed.

Lemma normalize_skills_inv skills :
  dedup_inv (List.map normalize_skill skills)
            (List.fold_left dedup_step (List.map normalize_skill skills) (∅, [])).
Proof. apply (dedup_fold_inv _ [] _ dedup_inv_init). Qed.

Lemma NoDup_normalize_skills skills : NoDup (normalize_skills skills).
Proof. apply (normalize_skills_inv skills). Qed.

Lemma elem_of_normalize_skills skills x :
  x ∈ normalize_skills skills ↔
  x ≠ "" ∧ ∃ raw, raw ∈ skills ∧ normalize_skill raw = x.
Proof.
  destruct (normalize_skills_inv skills) as (_ & _ & Hel).
  unfold normalize_skills. rewrite Hel.
  change (List.map normalize_skill skills) with (normalize_skill <$> skills).
  rewrite list_elem_of_fmap. naive_solver.
Qed.

Lemma normalize_skills_nonempty_elems skills : "" ∉ normalize_skills skills.
Proof. rewrite elem_of_normalize_skills. naive_solver. Qed.

(** The joined text is empty exactly when nothing survives normalisation. *)
Lemma join_empty sep l : "" ∉ l → join sep l = "" → l = [].
Proof.
  destruct l as [|x [|y r]]; simpl; auto.
  - intros Hx ->. set_solver.
  - intros Hx. destruct x; [set_solver|]. discriminate.
Qed.

Lemma skills_to_text_empty skills :
  skills_to_text skills = "" ↔ normalize_skills skills = [].
Proof.
  unfold skills_to_text. split.
  - apply join_empty, normalize_skills_nonempty_elems.
  - by intros ->.
Qed.

(** *** What a second pass does *)

Lemma normalize_skill_chars skill :
  normalize_skill skill = resolve (str (norm_chars (chars skill))).
Proof.
  unfold normalize_skill, resolve, norm_chars, strip, lower, on_chars, str, chars.
  by rewrite !list_ascii_of_string_of_list_ascii.
Qed.

Lemma lower_char_idem c : lower_char (lower_char c) = lower_char c.
Proof. by destruct c as [[] [] [] [] [] [] [] []]. Qed.

Lemma lower_char_space c : is_space (lower_char c) = is_space c.
Proof. by destruct c as [[] [] [] [] [] [] [] []]. Qed.

Lemma space_tidy c : is_space c = true → tidy_char c = true → c = " "%char.
Proof.
  unfold tidy_char. intros ->. rewrite !andb_true_iff. simpl.
  by intros (_ & ?%Ascii.eqb_eq).
Qed.

(** The trim. *)
Lemma lstrip_chars_drop l : ∃ n, lstrip_chars l = drop n l.
Proof.
  induction l as [|c l [n IH]]; [by exists 0%nat|]. simpl.
  destruct (is_space c); [by exists (S n)|by exists 0%nat].
Qed.

Lemma rstrip_chars_take l : ∃ n, rstrip_chars l = take n l.
Proof.
  unfold rstrip_chars. destruct (lstrip_chars_drop (List.rev l)) as [n ->].
  exists (length l - n)%nat. by rewrite skipn_rev, rev_involutive.
Qed.

Lemma lstrip_chars_edge l : edge_ok (lstrip_chars l).
Proof.
  induction l as [|c l IH]; simpl; [done|].
  by destruct (is_space c) eqn:Hc.
Qed.

Lemma lstrip_chars_id l : edge_ok l → lstrip_chars l = l.
Proof. destruct l as [|c l]; simpl; [done|]. by intros ->. Qed.

Lemma lstrip_chars_snoc l c :
  is_space c = false → lstrip_chars (l ++ [c]) = lstrip_chars l ++ [c].
Proof.
  intros Hc. induction l as [|d l IH]; simpl; [by rewrite Hc|].
  by destruct (is_space d).
Qed.

Lemma rstrip_chars_edge l : edge_ok l → edge_ok (rstrip_chars l).
Proof.
  destruct l as [|c l]; [done|]. simpl. intros Hc.
  unfold rstrip_chars. simpl. rewrite lstrip_chars_snoc by done.
  by rewrite rev_app_distr.
Qed.

Lemma strip_chars_tight l : tight (strip_chars l).
Proof.
  unfold strip_chars. split.
  - apply rstrip_chars_edge, lstrip_chars_edge.
  - unfold rstrip_chars. rewrite rev_involutive. apply lstrip_chars_edge.
Qed.

Lemma strip_chars_id l : tight l → strip_chars l = l.
Proof.
  intros [Hl Hr]. unfold strip_chars, rstrip_chars.
  by rewrite (lstrip_chars_id l), (lstrip_chars_id (List.rev l)), rev_involutive.
Qed.

(** Tidiness passes to the pieces a trim can leave. *)
Lemma single_spaced_weaken b l : single_spaced b l = true → single_spaced false l = true.
Proof.
  destruct l as [|c l]; simpl; [done|].
  destruct (is_space c); [|done]. rewrite !andb_true_iff. naive_solver.
Qed.

Lemma single_spaced_drop b n l :
  single_spaced b l = true → single_spaced false (drop n l) = true.
Proof.
  revert b l. induction n as [|n IH]; intros b l; [apply single_spaced_weaken|].
  destruct l as [|c l]; simpl; [done|].
  destruct (is_space c); [|by apply IH].
  rewrite andb_true_iff. intros [_ H]. by eapply IH.
Qed.

Lemma single_spaced_take b n l :
  single_spaced b l = true → single_spaced b (take n l) = true.
Proof.
  revert b l. induction n as [|n IH]; intros b l; [done|].
  destruct l as [|c l]; simpl; [done|].
  destruct (is_space c); [|by apply IH].
  rewrite !andb_true_iff. intros [? H]. split; [done|by apply IH].
Qed.

Lemma forallb_drop {A} (f : A → bool) n l :
  List.forallb f l = true → List.forallb f (drop n l) = true.
Proof.
  rewrite !forallb_forall. intros H x Hx. apply H.
  apply list_elem_of_In. apply list_elem_of_In in Hx.
  by eapply (subseteq_drop n l).
Qed.

Lemma forallb_take {A} (f : A → bool) n l :
  List.forallb f l = true → List.forallb f (take n l) = true.
Proof.
  rewrite !forallb_forall. intros H x Hx. apply H.
  apply list_elem_of_In. apply list_elem_of_In in Hx.
  by eapply (subseteq_take n l).
Qed.

Lemma strip_chars_tidy l : tidy l → tidy (strip_chars l).
Proof.
  intros [Hall Hsp]. unfold strip_chars.
  destruct (rstrip_chars_take (lstrip_chars l)) as [k ->].
  destruct (lstrip_chars_drop l) as [n ->].
  split.
  - by apply forallb_take, forallb_drop.
  - by eapply single_spaced_take, single_spaced_drop.
Qed.

(** The steps before the lookup make a tidy list, and leave a tidy list
    as the trim leaves it. *)
Lemma collapse_ws_tidy_chars b l :
  Forall (λ c, kept_char c = true ∧ lower_char c = c) l →
  List.forallb tidy_char (collapse_ws b l) = true.
Proof.
  intros Hl. revert b. induction Hl as [|c l [Hk Hlow] _ IH]; intros b; simpl; [done|].
  destruct (is_space c) eqn:Hc.
  - destruct b; simpl; by rewrite IH.
  - simpl. rewrite IH, andb_true_r. unfold tidy_char.
    rewrite Hk, Hlow, Hc. simpl. by rewrite Ascii.eqb_refl.
Qed.

Lemma collapse_ws_single_spaced b l : single_spaced b (collapse_ws b l) = true.
Proof.
  revert b. induction l as [|c l IH]; intros b; simpl; [done|].
  destruct (is_space c) eqn:Hc.
  - destruct b; simpl; apply IH.
  - simpl. rewrite Hc. apply IH.
Qed.

Lemma collapse_ws_id b l :
  List.forallb tidy_char l = true → single_spaced b l = true → collapse_ws b l = l.
Proof.
  revert b. induction l as [|c l IH]; intros b; simpl; [done|].
  rewrite andb_true_iff. intros [Hc Hl].
  destruct (is_space c) eqn:Hsp.
  - rewrite andb_true_iff. intros [Hb Hrest]. apply negb_true_iff in Hb as ->.
    rewrite (space_tidy c Hsp Hc). f_equal. by apply IH.
  - intros Hrest. f_equal. by apply IH.
Qed.

Lemma norm_chars_tidy l : tidy (norm_chars l).
Proof.
  unfold norm_chars. split; [|apply collapse_ws_single_spaced].
  apply collapse_ws_tidy_chars, Forall_forall. intros c Hc.
  apply list_elem_of_In, filter_In in Hc as [Hc Hk]. split; [done|].
  destruct (rstrip_chars_take (lstrip_chars (List.map lower_char l))) as [k Hk'].
  destruct (lstrip_chars_drop (List.map lower_char l)) as [n Hn].
  unfold strip_chars in Hc. rewrite Hk', Hn in Hc.
  apply list_elem_of_In, subseteq_take, subseteq_drop in Hc.
  apply list_elem_of_In, in_map_iff in Hc as (d & <- & _). apply lower_char_idem.
Qed.

Lemma map_lower_tidy l : List.forallb tidy_char l = true → List.map lower_char l = l.
Proof.
  induction l as [|c l IH]; simpl; [done|].
  rewrite andb_true_iff. unfold tidy_char at 1. rewrite !andb_true_iff.
  intros [[[_ Hlow%Ascii.eqb_eq] _] Hl]. by rewrite Hlow, IH.
Qed.

Lemma filter_kept_tidy l :
  List.forallb tidy_char l = true → List.filter kept_char l = l.
Proof.
  intros Hl. apply forallb_filter_id. rewrite forallb_forall in *.
  intros c Hc. specialize (Hl c Hc). unfold tidy_char in Hl.
  rewrite !andb_true_iff in Hl. tauto.
Qed.

Lemma norm_chars_of_tidy l : tidy l → norm_chars l = strip_chars l.
Proof.
  intros Hl. unfold norm_chars. rewrite (map_lower_tidy l) by apply Hl.
  destruct (strip_chars_tidy l Hl) as [Hall Hsp].
  by rewrite filter_kept_tidy, collapse_ws_id.
Qed.

(** The canonical forms of the table are left alone. *)
Lemma synonym_stable key canonical :
  skill_synonyms !! key = Some canonical → normalize_skill canonical = canonical.
Proof.
  intros Hk. apply elem_of_list_to_map_2 in Hk.
  repeat (apply elem_of_cons in Hk as [[= _ ->]|Hk]; [by vm_compute|]).
  by apply elem_of_nil in Hk.
Qed.

Lemma resolve_stable skill : normalize_skill (resolve skill) = resolve skill
                             ∨ resolve skill = skill.
Proof.
  unfold resolve. destruct (skill_synonyms !! skill) eqn:Hk; [left|by right].
  by eapply synonym_stable.
Qed.

Lemma normalize_skill_tight l :
  tidy l → tight l → normalize_skill (str l) = resolve (str l).
Proof.
  intros Hl Ht. rewrite normalize_skill_chars. unfold chars, str.
  rewrite list_ascii_of_string_of_list_ascii, norm_chars_of_tidy by done.
  by rewrite strip_chars_id.
Qed.

Lemma collapse_ws_snoc b l c :
  is_space c = false → collapse_ws b (l ++ [c]) = collapse_ws b l ++ [c].
Proof.
  intros Hc. revert b. induction l as [|d l IH]; intros b; simpl; [by rewrite Hc|].
  destruct (is_space d); [destruct b|]; by rewrite IH.
Qed.

Lemma clean_edge l :
  edge_ok l → edge_kept l → edge_ok (collapse_ws false (List.filter kept_char l)).
Proof.
  destruct l as [|c l]; simpl; [done|]. intros Hs ->. simpl. by rewrite Hs.
Qed.

Lemma clean_tight l :
  tight l → edge_kept l → edge_kept (List.rev l) →
  tight (collapse_ws false (List.filter kept_char l)).
Proof.
  intros [Hl Hr] Hkl Hkr. split; [by apply clean_edge|].
  rewrite <- (rev_involutive l). destruct (List.rev l) as [|c m]; simpl in *; [done|].
  rewrite List.filter_app. simpl. rewrite Hkr, collapse_ws_snoc by done.
  by rewrite rev_app_distr.
Qed.

(** X29: one pass is enough when the trimmed lower-case skill begins and
    ends with a character the normaliser keeps. *)
Theorem normalize_skill_idempotent_on_kept_edges skill :
  let trimmed := strip_chars (List.map lower_char (chars skill)) in
  edge_kept trimmed → edge_kept (List.rev trimmed) →
  normalize_skill (normalize_skill skill) = normalize_skill skill.
Proof.
  intros trimmed Hfirst Hlast.
  rewrite (normalize_skill_chars skill).
  destruct (resolve_stable (str (norm_chars (chars skill)))) as [H|H]; [done|].
  rewrite H at 1. apply normalize_skill_tight; [apply norm_chars_tidy|].
  apply clean_tight; [apply strip_chars_tight|done..].
Qed.

Example normalize_skill_idempotent_sample :
  normalize_skill (normalize_skill " Node.js / React (v18) ")
  = normalize_skill " Node.js / React (v18) ".
Proof. by vm_compute. Qed.

(** X30: from the second pass on nothing changes any more: the blank
    that the first pass can leave at an end is all that a further pass
    removes. *)
Theorem normalize_skill_stable_after_two skill :
  normalize_skill (normalize_skill (normalize_skill skill))
  = normalize_skill (normalize_skill skill).
Proof.
  set (c := norm_chars (chars skill)).
  assert (tidy c) as Hc by apply norm_chars_tidy.
  assert (normalize_skill (str c) = resolve (str (strip_chars c))) as Hsecond.
  { rewrite normalize_skill_chars. unfold chars, str.
    by rewrite list_ascii_of_string_of_list_ascii, norm_chars_of_tidy. }
  assert (normalize_skill (resolve (str (strip_chars c)))
          = resolve (str (strip_chars c))) as Hthird.
  { destruct (resolve_stable (str (strip_chars c))) as [H|H]; [done|].
    rewrite H, normalize_skill_tight;
      [done|by apply strip_chars_tidy|apply strip_chars_tight]. }
  rewrite (normalize_skill_chars skill). fold c.
  destruct (resolve_stable (str c)) as [H|H].
  - by rewrite !H.
  - by rewrite H, Hsecond, Hthird.
Qed.

(** C3: the matching normaliser is not idempotent.  On ["* Python"] the
    trim comes first and removes nothing, the star is deleted afterwards,
    and the blank behind it stays in front: the result [" python"]
    normalises to ["python"] on a second pass.  The two spellings of one
    skill are therefore kept apart as two skills. *)
Theorem normalize_skill_not_idempotent :
  normalize_skill "* Python" = " python"
  ∧ normalize_skill (normalize_skill "* Python") = "python"
  ∧ normalize_skill (normalize_skill "* Python") ≠ normalize_skill "* Python"
  ∧ normalize_skills ["* Python"; "Python"] = [" python"; "python"].
Proof. by vm_compute. Qed.

(** A second pass repairs it, for instance on an input that is nothing but
    punctuation around a blank: the first pass leaves one blank, which
    [normalize_skills] keeps as a skill. *)
Example normalize_skill_blank_survives :
  normalize_skill ". ." = " "
  ∧ normalize_skill " " = ""
  ∧ normalize_skills [". ."] = [" "].
Proof. by vm_compute. Qed.

Example normalize_skill_synonyms :
  normalize_skill "JS" = normalize_skill "javascript"
  ∧ normalize_skill " K8s " = "kubernetes"
  ∧ normalize_skill "CI/CD" = "continuous integration continuous deployment"
  ∧ normalize_skill "C++" = "c++"
  ∧ normalize_skill "Node.js" = "nodejs".
Proof. by vm_compute. Qed.

End SkillProcessorFacts.

Module PyFloatFacts.
Import PyFloat.
Local Open Scope Q_scope.

Lemma round_half_even_cases (x : Q) :
  round_half_even x = Qfloor x
  ∨ (round_half_even x = (Qfloor x + 1)%Z ∧ inject_Z (Qfloor x) < x).
Proof.
  unfold round_half_even.
  destruct (Qcompare_spec (x - inject_Z (Qfloor x)) (1 # 2)) as [He|Hl|Hg].
  - destruct (Z.even (Qfloor x)); [by left|right; split; [done|lra]].
  - by left.
  - right. split; [done|lra].
Qed.

Lemma round_half_even_ge (k : Z) (x : Q) :
  inject_Z k <= x → (k <= round_half_even x)%Z.
Proof.
  intros Hk. apply Qfloor_resp_le in Hk. rewrite Qfloor_Z in Hk.
  destruct (round_half_even_cases x) as [-> | [-> _]]; lia.
Qed.

Lemma round_half_even_le (k : Z) (x : Q) :
  x <= inject_Z k → (round_half_even x <= k)%Z.
Proof.
  intros Hk.
  destruct (round_half_even_cases x) as [-> | [-> Hlt]].
  - rewrite Zle_Qle. pose proof (Qfloor_le x). lra.
  - assert (Qfloor x < k)%Z; [|lia]. rewrite Zlt_Qlt. lra.
Qed.

Lemma round2_ge (k : Z) (x : Q) :
  inject_Z k <= x → inject_Z k <= round2 x.
Proof.
  intros Hk. unfold round2.
  assert (inject_Z (k * 100) <= x * 100) as H.
  { rewrite inject_Z_mult. change (inject_Z 100) with 100.
    generalize dependent (inject_Z k). intros; lra. }
  apply round_half_even_ge in H. rewrite Zle_Qle, inject_Z_mult in H.
  by apply Qle_shift_div_l.
Qed.

Lemma round2_le (k : Z) (x : Q) :
  x <= inject_Z k → round2 x <= inject_Z k.
Proof.
  intros Hk. unfold round2.
  assert (x * 100 <= inject_Z (k * 100)) as H.
  { rewrite inject_Z_mult. change (inject_Z 100) with 100.
    generalize dependent (inject_Z k). intros; lra. }
  apply round_half_even_le in H. rewrite Zle_Qle, inject_Z_mult in H.
  by apply Qle_shift_div_r.
Qed.

Lemma round2_eq (k : Z) (x : Q) : x == inject_Z k → round2 x == inject_Z k.
Proof.
  intros Hx. apply Qle_antisym; [apply round2_le|apply round2_ge]; lra.
Qed.

Lemma len_nonneg {A} (l : list A) : 0 <= len l.
Proof. unfold len. change 0 with (inject_Z 0). rewrite <- Zle_Qle. lia. Qed.

Lemma len_pos {A} (l : list A) : l ≠ [] → 0 < len l.
Proof.
  intros Hl. unfold len. change 0 with (inject_Z 0). rewrite <- Zlt_Qlt.
  destruct l; [done|simpl; lia].
Qed.

Lemma len_le {A} (l k : list A) : (length l <= length k)%nat → len l <= len k.
Proof. intros H. unfold len. rewrite <- Zle_Qle. lia. Qed.

(** Division by the length of a non-empty list does not raise. *)
Lemma div_len {A} (a : Q) (l : list A) :
  SkillMatcher.is_nil l = false → div a (len l) = Ok (a / len l).
Proof.
  intros Hl. unfold div.
  destruct (Qeq_bool (len l) 0) eqn:He; [|done].
  apply Qeq_bool_iff in He. destruct l; [done|].
  assert (0 < len (a0 :: l)) by (by apply len_pos). lra.
Qed.

End PyFloatFacts.

(** ** The gap analyser *)

Module SkillMatcherFacts.
Import PyStr SkillProcessor SkillMatcher PyFloat.
Import SkillMatcherSpec SkillProcessorFacts PyFloatFacts.
Local Open Scope Q_scope.

Lemma sample_cosine_range a b s : sample_cosine a b = Ok s → 0 <= s <= 1.
Proof. unfold sample_cosine. destruct (String.eqb a b); intros [= <-]; lra. Qed.

Lemma elem_of_normalized l x :
  x ∈ normalized l ↔ x ≠ "" ∧ ∃ raw, raw ∈ l ∧ normalize_skill raw = x.
Proof. unfold normalized. by rewrite elem_of_list_to_set, elem_of_normalize_skills. Qed.

Lemma size_normalized l : size (normalized l) = length (normalize_skills l).
Proof. apply size_list_to_set, NoDup_normalize_skills. Qed.

Lemma length_elements_le (X : gset string) l :
  X ⊆ normalized l → (length (elements X) <= length (normalize_skills l))%nat.
Proof.
  intros HX. rewrite <- size_normalized. by apply subseteq_size in HX.
Qed.

Lemma ratio_range m l : (length m <= length l)%nat → 0 <= ratio m l <= 1.
Proof.
  intros Hlen. unfold ratio. destruct l as [|x l]; simpl; [lra|].
  assert (0 < len (x :: l)) as Hpos by (by apply len_pos).
  pose proof (len_nonneg m). pose proof (len_le _ _ Hlen).
  split.
  - apply Qle_shift_div_l; [done|lra].
  - apply Qle_shift_div_r; [done|lra].
Qed.

Lemma ratio_same m l : l ≠ [] → length m = length l → ratio m l == 1.
Proof.
  intros Hl Hlen. unfold ratio. destruct l as [|x l]; [done|]. simpl.
  assert (0 < len (x :: l)) as Hpos by (by apply len_pos).
  unfold len in *. rewrite Hlen. field. lra.
Qed.

Lemma required_score_ok m l : required_score m l = Ok (ratio m l * 60).
Proof.
  unfold required_score, ratio. destruct (is_nil l) eqn:Hl; simpl; [done|].
  by rewrite div_len.
Qed.

Lemma preferred_score_ok m l : preferred_score m l = Ok (ratio m l * 20).
Proof.
  unfold preferred_score, ratio. destruct (is_nil l) eqn:Hl; simpl; [done|].
  by rewrite div_len.
Qed.

Lemma calculate_job_fit_score_ok m l m' l' s :
  _calculate_job_fit_score m l m' l' s
  = Ok (round2 (ratio m l * 60 + ratio m' l' * 20 + similarity_component s)).
Proof.
  unfold _calculate_job_fit_score.
  by rewrite required_score_ok, preferred_score_ok.
Qed.

Section WithVectorizer.
Variable tfidf_cosine : string -> string -> result Q.

Abbreviation analyze_skill_gap := (analyze_skill_gap tfidf_cosine).
Abbreviation calculate_similarity := (calculate_similarity tfidf_cosine).

(** [analyze_skill_gap] returns, whatever its arguments, and this is
    what it returns. *)
Lemma analyze_skill_gap_returns A B P :
  ∃ r, analyze_skill_gap A B P = Ok r
    ∧ matching_required r = elements (normalized A ∩ normalized B)
    ∧ matching_preferred r = elements (normalized A ∩ normalized P)
    ∧ missing_required r = elements (normalized B ∖ normalized A)
    ∧ missing_preferred r = elements (normalized P ∖ normalized A)
    ∧ similarity_score r = calculate_similarity A B
    ∧ job_fit_score r
      = round2 (ratio (matching_required r) (normalize_skills B) * 60
                + ratio (matching_preferred r) (normalize_skills P) * 20
                + similarity_component (similarity_score r))
    ∧ required_match_percentage r
      = (if is_nil (normalize_skills B) then 0
         else len (matching_required r) / len (normalize_skills B) * 100)
    ∧ total_skills_matched r
      = (length (matching_required r) + length (matching_preferred r))%nat.
Proof.
  unfold SkillMatcher.analyze_skill_gap.
  rewrite calculate_job_fit_score_ok. simpl.
  destruct (is_nil (normalize_skills B)) eqn:HB; simpl.
  - eexists. split; [reflexivity|]. simpl. by split_and!.
  - rewrite div_len by done. simpl.
    eexists. split; [reflexivity|]. simpl. by split_and!.
Qed.

(** C1: the matching and the missing required skills are the
    intersection and the difference of the two normalised sets, and
    together they make up the normalised required set. *)
Theorem analyze_skill_gap_set_algebra (A B P : list string) :
  ∃ r, analyze_skill_gap A B P = Ok r
    ∧ list_to_set (matching_required r) = normalized A ∩ normalized B
    ∧ list_to_set (missing_required r) = normalized B ∖ normalized A
    ∧ list_to_set (matching_required r) ∪ list_to_set (missing_required r)
      = normalized B
    ∧ NoDup (matching_required r)
    ∧ NoDup (missing_required r).
Proof.
  destruct (analyze_skill_gap_returns A B P)
    as (r & Hr & Hmr & _ & Hmiss & _).
  exists r. rewrite Hmr, Hmiss, !list_to_set_elements_L.
  split_and!; [exact Hr|done|done| |apply NoDup_elements..].
  apply set_eq. intros x.
  rewrite elem_of_union, elem_of_intersection, elem_of_difference.
  destruct (decide (x ∈ normalized A)); naive_solver.
Qed.

Lemma calculate_similarity_empty A B :
  skills_to_text A = "" ∨ skills_to_text B = "" → calculate_similarity A B = 0.
Proof.
  unfold SkillMatcher.calculate_similarity. by intros [-> | ->]; rewrite ?orb_true_r.
Qed.

Lemma calculate_similarity_raise A B e :
  tfidf_cosine (skills_to_text A) (skills_to_text B) = Raise e →
  calculate_similarity A B = 0.
Proof.
  intros He. unfold SkillMatcher.calculate_similarity. rewrite He.
  by destruct (_ || _).
Qed.

(** C5: the analyser returns on every input, empty or not; the
    similarity is [0] when one of the joined texts is empty (that is,
    when one of the two lists normalises to nothing) and when the
    vectoriser raises, and the required percentage is [0] when no
    required skill survives normalisation. *)
Theorem analyze_skill_gap_never_raises (A B P : list string) :
  ∃ r, analyze_skill_gap A B P = Ok r
    ∧ (skills_to_text A = "" ∨ skills_to_text B = "" → similarity_score r = 0)
    ∧ (normalize_skills A = [] ∨ normalize_skills B = [] → similarity_score r = 0)
    ∧ (normalize_skills B = [] → required_match_percentage r = 0)
    ∧ (∀ e, tfidf_cosine (skills_to_text A) (skills_to_text B) = Raise e →
            similarity_score r = 0).
Proof.
  destruct (analyze_skill_gap_returns A B P)
    as (r & Hr & _ & _ & _ & _ & Hsim & _ & Hpct & _).
  exists r. rewrite Hsim, Hpct. split_and!.
  - exact Hr.
  - apply calculate_similarity_empty.
  - rewrite <- !skills_to_text_empty. apply calculate_similarity_empty.
  - by intros ->.
  - intros e. apply calculate_similarity_raise.
Qed.

Section NonNegative.

Hypothesis cosine_nonneg : ∀ a b s, tfidf_cosine a b = Ok s → 0 <= s.

Lemma calculate_similarity_nonneg A B : 0 <= calculate_similarity A B.
Proof.
  unfold SkillMatcher.calculate_similarity.
  destruct (_ || _); [lra|].
  destruct (tfidf_cosine _ _) as [s|e] eqn:Hs; [by eapply cosine_nonneg|lra].
Qed.

(** C4, as amended: when the list, given as resume and as required
    skills with no preferred skill, keeps at least one skill after
    normalisation, nothing is missing, the required percentage is 100,
    the fit score is at least 60, and it is 80 when the similarity
    is 1. *)
Theorem perfect_match (L : list string) :
  normalize_skills L ≠ [] →
  ∃ r, analyze_skill_gap L L [] = Ok r
    ∧ missing_required r = []
    ∧ required_match_percentage r == 100
    ∧ 60 <= job_fit_score r
    ∧ (similarity_score r == 1 → job_fit_score r == 80).
Proof.
  intros Hne.
  destruct (analyze_skill_gap_returns L L [])
    as (r & Hr & Hmr & Hmp & Hmiss & _ & Hsim & Hfit & Hpct & _).
  exists r.
  rewrite (idemp_L (∩)) in Hmr. rewrite difference_diag_L, elements_empty in Hmiss.
  assert (length (matching_required r) = length (normalize_skills L)) as Hlen.
  { rewrite Hmr. apply (size_normalized L). }
  pose proof (ratio_same _ _ Hne Hlen) as Hone.
  assert (ratio (matching_preferred r) (normalize_skills []) = 0) as Hzero by done.
  pose proof (calculate_similarity_nonneg L L) as Hs. rewrite <- Hsim in Hs.
  rewrite Hzero in Hfit. unfold similarity_component in Hfit.
  split_and!; [exact Hr|exact Hmiss|..].
  - rewrite Hpct. unfold ratio in Hone.
    destruct (is_nil (normalize_skills L)); lra.
  - rewrite Hfit. change 60 with (inject_Z 60). apply round2_ge.
    change (inject_Z 60) with 60. lra.
  - intros Hsim1. rewrite Hfit. change 80 with (inject_Z 80). apply round2_eq.
    change (inject_Z 80) with 80. lra.
Qed.

End NonNegative.

End WithVectorizer.

(** C4 as stated fails: the one-element list [[""]] is not empty, yet
    nothing of it survives normalisation, the guard on the empty required
    list gives percentage 0 and the score is 0. *)
Lemma perfect_match_blank_skill :
  [""] ≠ ([] : list string)
  ∧ ∃ r, analyze_skill_gap sample_cosine [""] [""] [] = Ok r
      ∧ required_match_percentage r = 0
      ∧ job_fit_score r == 0
      ∧ ¬ required_match_percentage r == 100
      ∧ ¬ 60 <= job_fit_score r.
Proof.
  split; [done|]. eexists. split; [by vm_compute|]. simpl.
  split_and!; [reflexivity|reflexivity|by intros [=]|by intros H; vm_compute in H].
Qed.

(** C4 (amended) at a concrete list. *)
Lemma perfect_match_witness :
  normalize_skills ["Python"; "JS"; "py"] ≠ []
  ∧ ∃ r, analyze_skill_gap sample_cosine
           ["Python"; "JS"; "py"] ["Python"; "JS"; "py"] [] = Ok r
      ∧ missing_required r = []
      ∧ required_match_percentage r == 100
      ∧ 60 <= job_fit_score r
      ∧ (similarity_score r == 1 → job_fit_score r == 80).
Proof.
  split; [by vm_compute|].
  apply (perfect_match sample_cosine).
  - intros a b s Hs. apply (sample_cosine_range a b s Hs).
  - by vm_compute.
Defined.

End SkillMatcherFacts.

(** ** Doubles: rounding keeps the bounds that lie on its grid *)

Module Binary64Facts.
Import PyFloat Binary64 PyFloatFacts.
Local Open Scope Q_scope.

Lemma pow2_pos e : 0 < pow2 e.
Proof. by apply Qpower_0_lt. Qed.

Lemma pow2_add a b : pow2 (a + b) == pow2 a * pow2 b.
Proof. by apply Qpower_plus. Qed.

Lemma pow2_lt_inv a b : pow2 a < pow2 b → (a < b)%Z.
Proof. intros H. by apply (Qpower_lt_compat_l_inv 2). Qed.

Lemma pow2_inject (n : Z) : (0 <= n)%Z → pow2 n == inject_Z (2 ^ n).
Proof. intros Hn. unfold pow2. by rewrite Zpower_Qpower. Qed.

(** The leading bit is not above the number. *)
Lemma ilog2_le (x : Q) : 0 < x → pow2 (ilog2 x) <= x.
Proof.
  intros Hx. unfold ilog2.
  destruct (Qle_bool _ x) eqn:Hle; [by apply Qle_bool_iff|].
  destruct x as [n d]. cbn [Qnum Qden]. clear Hle.
  assert (0 < n)%Z as Hn by (unfold Qlt in Hx; simpl in Hx; lia).
  set (a := Z.log2 n). set (b := Z.log2 (Z.pos d)).
  assert (0 <= a)%Z as Ha by apply Z.log2_nonneg.
  assert (0 <= b)%Z as Hb by apply Z.log2_nonneg.
  assert (2 ^ a <= n)%Z as Hlow by (apply Z.log2_spec; lia).
  assert (Z.pos d < 2 ^ (b + 1))%Z as Hhigh.
  { replace (b + 1)%Z with (Z.succ b) by lia. apply Z.log2_spec. lia. }
  replace (a - b - 1)%Z with (a + - (b + 1))%Z by lia.
  rewrite pow2_add. unfold pow2 at 2. rewrite Qpower_opp.
  fold (pow2 (b + 1)). rewrite !pow2_inject by lia.
  apply Qle_shift_div_r.
  { change 0 with (inject_Z 0). rewrite <- Zlt_Qlt. lia. }
  unfold Qle. simpl. rewrite Z.mul_1_r.
  transitivity (n * Z.pos d)%Z; [|nia].
  apply Z.mul_le_mono_nonneg; lia.
Qed.

Lemma round_half_even_nonneg (x : Q) : 0 <= x → (0 <= round_half_even x)%Z.
Proof. intros Hx. by apply round_half_even_ge. Qed.

(** Below a half above an integer the rounding does not pass it. *)
Lemma round_half_even_below (k : Z) (x : Q) :
  x < inject_Z k + (1 # 2) → (round_half_even x <= k)%Z.
Proof.
  intros Hx.
  assert (Qfloor x <= k)%Z as Hfloor.
  { assert (Qfloor x < k + 1)%Z; [|lia].
    rewrite Zlt_Qlt, inject_Z_plus. pose proof (Qfloor_le x).
    change (inject_Z 1) with 1. lra. }
  unfold round_half_even.
  destruct (Qcompare_spec (x - inject_Z (Qfloor x)) (1 # 2)) as [He|Hl|Hg].
  - destruct (Z.eq_dec (Qfloor x) k) as [Hk|Hk]; [rewrite Hk in He; lra|].
    destruct (Z.even (Qfloor x)); lia.
  - done.
  - destruct (Z.eq_dec (Qfloor x) k) as [Hk|Hk]; [rewrite Hk in Hg; lra|lia].
Qed.

(** A bound [k * 2^j] with [k] of at most 53 bits lies on the grid of
    every double below it: rounding does not pass it. *)
Lemma round64_grid (x : Q) (k j : Z) :
  0 <= x → x <= inject_Z k * pow2 j →
  (k < 2 ^ 53)%Z → (-1074 <= j)%Z → (j <= 970)%Z →
  ∃ v, round64 x = finite v ∧ 0 <= v <= inject_Z k * pow2 j.
Proof.
  intros Hx Hb Hk Hj Hj'. set (b := inject_Z k * pow2 j) in *.
  unfold round64. destruct (Qcompare_spec x 0) as [H0|Hneg|Hpos]; [|lra|].
  { exists 0. split; [done|]. lra. }
  unfold round_pos. set (e := last_place x).
  pose proof (pow2_pos e) as He. pose proof (pow2_pos j) as Hpj.
  assert (b < pow2 (53 + j)) as Hb53.
  { unfold b. rewrite pow2_add, (pow2_inject 53) by lia.
    apply Qmult_lt_compat_r; [done|]. by rewrite <- Zlt_Qlt. }
  assert (e <= j)%Z as Hej.
  { unfold e, last_place. apply Z.max_lub; [|done].
    assert (ilog2 x < 53 + j)%Z; [|lia]. apply pow2_lt_inv.
    pose proof (ilog2_le x Hpos). lra. }
  assert (b == inject_Z (k * 2 ^ (j - e)) * pow2 e) as Hgrid.
  { rewrite inject_Z_mult, <- pow2_inject by lia. unfold b.
    replace j with ((j - e) + e)%Z at 1 by lia. rewrite pow2_add. ring. }
  set (m := round_half_even (x / pow2 e)).
  assert (0 <= m)%Z as Hm0.
  { apply round_half_even_nonneg. apply Qle_shift_div_l; [done|]. lra. }
  assert (m <= k * 2 ^ (j - e))%Z as Hm.
  { apply round_half_even_le. apply Qle_shift_div_r; [done|]. lra. }
  assert (0 <= inject_Z m * pow2 e <= b) as Hv.
  { split.
    - apply Qmult_le_0_compat; [|lra]. change 0 with (inject_Z 0).
      by rewrite <- Zle_Qle.
    - rewrite Hgrid. apply Qmult_le_compat_r; [|lra]. by rewrite <- Zle_Qle. }
  assert (b < pow2 1024) as Hfin.
  { eapply Qlt_le_trans; [exact Hb53|].
    apply (Qpower_le_compat_l 2); [lia|done]. }
  destruct (Qle_bool (pow2 1024) (inject_Z m * pow2 e)) eqn:Hover.
  { apply Qle_bool_iff in Hover. lra. }
  exists (Qred (inject_Z m * pow2 e)). split; [done|]. rewrite Qred_correct. lra.
Qed.

Lemma round64_grid_int (x : Q) (k : Z) :
  0 <= x → x <= inject_Z k → (k < 2 ^ 53)%Z →
  ∃ v, round64 x = finite v ∧ 0 <= v <= inject_Z k.
Proof.
  intros Hx Hk Hk53.
  destruct (round64_grid x k 0) as (v & Hv & Hb); try done.
  - change (pow2 0) with 1. lra.
  - exists v. split; [done|]. change (pow2 0) with 1 in Hb. lra.
Qed.

End Binary64Facts.

(** ** The fit score in doubles *)

Module SkillMatcher64Facts.
Import PyStr SkillProcessor Binary64 SkillMatcher64.
Import SkillMatcherSpec SkillMatcher64Spec.
Import SkillProcessorFacts PyFloatFacts SkillMatcherFacts Binary64Facts.
Local Open Scope Q_scope.

(** A share of [weight] points for [m] out of [l]. *)
Lemma weighted_ratio (m l : list string) (weight : Z) :
  (length m <= length l)%nat → (0 < weight < 2 ^ 53)%Z →
  ∃ v,
    (if negb (SkillMatcher.is_nil l)
     then ratio ← div_int (length m) (length l); Ok (mul_int ratio weight)
     else Ok (finite 0)) = Ok (finite v)
    ∧ 0 <= v <= inject_Z weight.
Proof.
  intros Hlen Hw.
  assert (0 <= inject_Z weight) as Hw0.
  { change 0 with (inject_Z 0). rewrite <- Zle_Qle. lia. }
  destruct l as [|x l]; simpl.
  { exists 0. split; [done|]. lra. }
  set (a := inject_Z (Z.of_nat (length m))).
  set (b := inject_Z (Z.of_nat (S (length l)))).
  assert (0 <= a) as Ha.
  { unfold a. change 0 with (inject_Z 0). rewrite <- Zle_Qle. lia. }
  assert (a <= b) as Hab.
  { unfold a, b. rewrite <- Zle_Qle. simpl in Hlen. lia. }
  assert (0 < b) as Hb.
  { unfold b. change 0 with (inject_Z 0). rewrite <- Zlt_Qlt. lia. }
  destruct (round64_grid_int (a / b) 1) as (ratio & -> & Hratio).
  - apply Qle_shift_div_l; [done|]. lra.
  - apply Qle_shift_div_r; [done|]. change (inject_Z 1) with 1. lra.
  - done.
  - change (inject_Z 1) with 1 in Hratio. simpl.
    destruct (round64_grid_int (ratio * inject_Z weight) weight) as (v & -> & Hv).
    + apply Qmult_le_0_compat; lra.
    + rewrite <- (Qmult_1_l (inject_Z weight)) at 2.
      apply Qmult_le_compat_r; lra.
    + lia.
    + by exists v.
Qed.

Section WithVectorizer.
Variable tfidf_cosine : string → string → result double.

Local Abbreviation analyze_skill_gap := (analyze_skill_gap tfidf_cosine).
Local Abbreviation calculate_similarity := (calculate_similarity tfidf_cosine).

(** What the cosine of two vectors without negative entries comes to in
    doubles: a number from 0 to 1, or a rounding error above 1. *)
Hypothesis cosine_range :
  ∀ a b s, tfidf_cosine a b = Ok s →
           ∃ q, s = finite q ∧ 0 <= q <= 1 + (1 # 10000).

Lemma calculate_similarity64_range A B :
  ∃ q, calculate_similarity A B = finite q ∧ 0 <= q <= 1 + (1 # 10000).
Proof.
  unfold SkillMatcher64.calculate_similarity.
  destruct (_ || _); [exists 0; split; [done|lra]|].
  destruct (tfidf_cosine _ _) as [s|e] eqn:Hs; [by eapply cosine_range|].
  exists 0. split; [done|lra].
Qed.


End WithVectorizer.

Lemma sample_cosine_above_one_range a b s :
  sample_cosine_above_one a b = Ok s →
  ∃ q, s = finite q ∧ 0 <= q <= 1 + (1 # 10000).
Proof.
  unfold sample_cosine_above_one.
  destruct (String.eqb a b); intros [= <-]; eexists; (split; [reflexivity|]);
    split; by vm_compute.
Qed.



(** The score is the rounding of the double, not of the exact sum: one
    of 25 required and 5 of 32 preferred skills make 2.4 + 3.125, which
    in doubles lies above 5.525 and goes to 5.53. *)
Example fit_score_rounds_the_double :
  _calculate_job_fit_score (replicate 1 "x") (replicate 25 "x")
    (replicate 5 "y") (replicate 32 "y") (finite 0)
  = Ok (round64 (553 # 100)).
Proof. by vm_compute. Qed.

End SkillMatcher64Facts.

(** ** Recommendations *)

Module RecommendationFacts.
Import PyStr SkillMatcher PyFloat SkillMatcherSpec.
Local Open Scope Q_scope.

(** The character after the opening bracket tells the kinds of line
    apart: E, G, M, L for the headlines. *)
Lemma headline_tag s :
  s ∈ headlines →
  ∃ c, String.get 1 s = Some c ∧ c ∈ ["E"; "G"; "M"; "L"]%char.
Proof.
  unfold headlines. rewrite !elem_of_cons, elem_of_nil.
  intros [-> | [-> | [-> | [-> | []]]]]; eexists; (split; [reflexivity|]);
    rewrite !elem_of_cons; tauto.
Qed.

Lemma not_headline s c :
  String.get 1 s = Some c → c ∉ ["E"; "G"; "M"; "L"]%char → s ∉ headlines.
Proof.
  intros Hc Hnot (c' & Hc' & Hin)%headline_tag. congruence.
Qed.

Lemma Qle_bool_false a b : Qle_bool a b = false ↔ b < a.
Proof.
  rewrite <- not_true_iff_false, Qle_bool_iff. split.
  - apply Qnot_le_lt.
  - apply Qlt_not_le.
Qed.

Lemma headline_for_band (job_fit_score : Q) :
  (80 <= job_fit_score → headline_for job_fit_score = headline_excellent)
  ∧ (60 <= job_fit_score < 80 → headline_for job_fit_score = headline_good)
  ∧ (40 <= job_fit_score < 60 → headline_for job_fit_score = headline_moderate)
  ∧ (job_fit_score < 40 → headline_for job_fit_score = headline_low).
Proof.
  unfold headline_for, ge.
  destruct (Qle_bool 80 job_fit_score) eqn:H80;
    [|destruct (Qle_bool 60 job_fit_score) eqn:H60;
      [|destruct (Qle_bool 40 job_fit_score) eqn:H40]];
    rewrite ?Qle_bool_iff, ?Qle_bool_false in *;
    split_and!; intros; first [reflexivity | lra].
Qed.

Lemma headline_for_headline (job_fit_score : Q) :
  headline_for job_fit_score ∈ headlines.
Proof.
  unfold headline_for, headlines.
  repeat (destruct (ge job_fit_score _)); rewrite !elem_of_cons; tauto.
Qed.

Lemma generate_recommendations_cons missing_required missing_preferred score :
  ∃ rest,
    generate_recommendations missing_required missing_preferred score
    = headline_for score :: rest
    ∧ Forall (λ line, line ∉ headlines) rest.
Proof.
  unfold generate_recommendations.
  replace (if ge score 80 then [] ++ [headline_excellent]
           else if ge score 60 then [] ++ [headline_good]
           else if ge score 40 then [] ++ [headline_moderate]
           else [] ++ [headline_low])
    with [headline_for score]
    by (unfold headline_for; by repeat (destruct (ge score _))).
  destruct (is_nil missing_required), (is_nil missing_preferred),
    (lt score 90), (lt score 50), (lt score 70);
    simpl;
    match goal with |- ∃ rest, _ :: ?tail = _ :: rest ∧ _ => exists tail end;
    (split; [reflexivity|]);
    repeat (apply Forall_cons; split; [not_a_headline not_headline|]);
    by apply Forall_nil.
Qed.

(** C7: the list starts with the headline of the score band, and no
    other element is a headline. *)
Theorem generate_recommendations_headline
    (missing_required missing_preferred : list string) (job_fit_score : Q) :
  ∃ headline rest,
    generate_recommendations missing_required missing_preferred job_fit_score
    = headline :: rest
    ∧ (80 <= job_fit_score → headline = headline_excellent)
    ∧ (60 <= job_fit_score < 80 → headline = headline_good)
    ∧ (40 <= job_fit_score < 60 → headline = headline_moderate)
    ∧ (job_fit_score < 40 → headline = headline_low)
    ∧ headline ∈ headlines
    ∧ Forall (λ line, line ∉ headlines) rest.
Proof.
  destruct (generate_recommendations_cons
              missing_required missing_preferred job_fit_score)
    as (rest & Heq & Hrest).
  destruct (headline_for_band job_fit_score) as (He & Hg & Hm & Hl).
  exists (headline_for job_fit_score), rest.
  split_and!; auto using headline_for_headline.
Qed.

End RecommendationFacts.

(** ** Sorting *)

Module PySortFacts.
Import PySort PySortSpec.
Local Open Scope Q_scope.

Section ByKey.
Context {A : Type}.
Variable key : A → Q.

Abbreviation ascending := (ascending key).
Abbreviation descending := (descending key).

Lemma insert_asc_Permutation x l : insert_asc key x l ≡ₚ x :: l.
Proof.
  induction l as [|y r IH]; simpl; [done|].
  destruct (Qle_bool (key x) (key y)); [done|].
  rewrite IH. apply Permutation_swap.
Qed.

Lemma sort_asc_Permutation l : sort_asc key l ≡ₚ l.
Proof.
  induction l as [|x r IH]; simpl; [done|].
  by rewrite insert_asc_Permutation, IH.
Qed.

Lemma insert_asc_sorted x l :
  StronglySorted ascending l → StronglySorted ascending (insert_asc key x l).
Proof.
  induction 1 as [|y r Hr IH Hy]; simpl.
  - repeat constructor.
  - destruct (Qle_bool (key x) (key y)) eqn:Hxy.
    + apply Qle_bool_iff in Hxy.
      constructor; [by constructor|].
      constructor; [done|].
      eapply Forall_impl; [exact Hy|]. unfold ascending. intros z Hz. lra.
    + assert (key y < key x) as Hlt.
      { apply Qnot_le_lt. rewrite <- Qle_bool_iff. congruence. }
      constructor; [done|].
      rewrite insert_asc_Permutation. constructor; [|done].
      unfold ascending. lra.
Qed.

Lemma sort_asc_sorted l : StronglySorted ascending (sort_asc key l).
Proof.
  induction l as [|x r IH]; simpl; [constructor|by apply insert_asc_sorted].
Qed.

(** Elements of one key keep their order: stability. *)
Lemma filter_insert_asc v x l :
  filter (λ a, key a == v) (insert_asc key x l)
  = filter (λ a, key a == v) (x :: l).
Proof.
  induction l as [|y r IH]; simpl; [done|].
  destruct (Qle_bool (key x) (key y)) eqn:Hxy; [done|].
  assert (key y < key x) as Hlt.
  { apply Qnot_le_lt. rewrite <- Qle_bool_iff. congruence. }
  rewrite (filter_cons _ y), IH, !filter_cons.
  repeat case_decide; try done. lra.
Qed.

Lemma filter_sort_asc v l :
  filter (λ a, key a == v) (sort_asc key l) = filter (λ a, key a == v) l.
Proof.
  induction l as [|x r IH]; simpl; [done|].
  by rewrite filter_insert_asc, !filter_cons, IH.
Qed.

Lemma StronglySorted_reverse l :
  StronglySorted ascending l → StronglySorted descending (reverse l).
Proof.
  induction 1 as [|x r Hr IH Hx]; [constructor|].
  rewrite reverse_cons. apply StronglySorted_app_2; [|done|repeat constructor].
  intros a b Ha ->%list_elem_of_singleton.
  rewrite elem_of_reverse in Ha. rewrite Forall_forall in Hx. by apply Hx.
Qed.

Lemma sort_reverse_Permutation l : sort_reverse key l ≡ₚ l.
Proof.
  unfold sort_reverse.
  by rewrite reverse_Permutation, sort_asc_Permutation, reverse_Permutation.
Qed.

Lemma sort_reverse_sorted l : StronglySorted descending (sort_reverse key l).
Proof. apply StronglySorted_reverse, sort_asc_sorted. Qed.

Lemma sort_reverse_stable v l :
  filter (λ a, key a == v) (sort_reverse key l) = filter (λ a, key a == v) l.
Proof.
  unfold sort_reverse.
  by rewrite filter_reverse, filter_sort_asc, filter_reverse, reverse_involutive.
Qed.

End ByKey.

End PySortFacts.

(** ** The batch endpoint *)

Module BackendFacts.
Import PyStr SkillProcessor SkillMatcher Backend PyFloat.
Import SkillMatcherSpec PySortSpec BackendSpec SkillMatcherFacts PySortFacts.
Local Open Scope Q_scope.

Section WithVectorizer.
Variable tfidf_cosine : string → string → result Q.

Abbreviation analyze_skill_gap := (analyze_skill_gap tfidf_cosine).
Abbreviation batch_row := (batch_row tfidf_cosine).
Abbreviation batch_loop := (batch_loop tfidf_cosine).
Abbreviation rank_jobs := (rank_jobs tfidf_cosine).
Abbreviation batch_match_resume := (batch_match_resume tfidf_cosine).

Lemma batch_row_returns resume job :
  ∃ r row,
    analyze_skill_gap (skills resume) (required_skills job)
                      (or_empty (preferred_skills job)) = Ok r
    ∧ batch_row resume job = Ok row
    ∧ fit_score row = job_fit_score r
    ∧ skills_matched row = total_skills_matched r
    ∧ missing_required_count row = length (missing_required r).
Proof.
  destruct (analyze_skill_gap_returns tfidf_cosine (skills resume)
              (required_skills job) (or_empty (preferred_skills job)))
    as (r & Hr & _).
  exists r. eexists. split; [exact Hr|].
  unfold Backend.batch_row. rewrite Hr. simpl. by split_and!.
Qed.

(** The loop appends one row per job, in the order of the jobs. *)
Lemma batch_loop_returns resume jobs results :
  ∃ rows,
    batch_loop resume jobs results = Ok (results ++ rows)
    ∧ Forall2 (λ job row, batch_row resume job = Ok row) jobs rows.
Proof.
  revert results. induction jobs as [|job jobs IH]; intros results; simpl.
  - exists []. by rewrite app_nil_r.
  - destruct (batch_row_returns resume job) as (_ & row & _ & Hrow & _).
    rewrite Hrow. simpl.
    destruct (IH (results ++ [row])) as (rows & Hloop & Hrows).
    exists (row :: rows). rewrite Hloop, <- app_assoc. by split; [|constructor].
Qed.

Lemma rank_jobs_returns resume jobs :
  ∃ rows,
    Forall2 (λ job row, batch_row resume job = Ok row) jobs rows
    ∧ rank_jobs resume jobs = Ok (PySort.sort_reverse fit_score rows).
Proof.
  destruct (batch_loop_returns resume jobs []) as (rows & Hloop & Hrows).
  exists rows. split; [done|].
  unfold Backend.rank_jobs. by rewrite Hloop.
Qed.

(** X24: the ranking of the endpoint [/batch_match] returns the rows of
    the jobs, one per job, in descending order of fit score, rows of equal
    score in the order of their jobs.  This is the reply of the endpoint
    for every request that passes its two guards; the others are refused
    with status 400. *)
Theorem batch_match_resume_ranked
    (resume : ResumeSkills) (jobs : list JobRequirement) :
  ∃ rows results,
    Forall2 (λ job row, batch_row resume job = Ok row) jobs rows
    ∧ rank_jobs resume jobs = Ok results
    ∧ results ≡ₚ rows
    ∧ length results = length jobs
    ∧ StronglySorted by_fit_descending results
    ∧ (∀ v, filter (λ row, fit_score row == v) results
            = filter (λ row, fit_score row == v) rows)
    ∧ (skills resume ≠ [] → jobs ≠ [] →
       batch_match_resume resume jobs = Ok results)
    ∧ (skills resume = [] ∨ jobs = [] →
       ∃ detail, batch_match_resume resume jobs = Raise (HTTPException 400 detail)).
Proof.
  destruct (rank_jobs_returns resume jobs) as (rows & Hrows & Hrank).
  exists rows, (PySort.sort_reverse fit_score rows).
  split_and!.
  - done.
  - done.
  - apply sort_reverse_Permutation.
  - rewrite sort_reverse_Permutation. symmetry. by eapply Forall2_length.
  - apply sort_reverse_sorted.
  - intros v. apply sort_reverse_stable.
  - intros Hskills Hjobs. unfold Backend.batch_match_resume. rewrite Hrank.
    destruct (skills resume); [done|]. by destruct jobs.
  - unfold Backend.batch_match_resume.
    intros [-> | ->]; simpl; [by eexists|].
    destruct (is_nil (skills resume)); by eexists.
Qed.

(** C10: the count is the sum of the two lengths, so a skill that is
    matched as required and as preferred counts twice; the batch row
    carries the same number. *)
Theorem total_skills_matched_counts_shared_twice :
  (∀ A B P, ∃ r,
      analyze_skill_gap A B P = Ok r
      ∧ total_skills_matched r
        = (length (matching_required r) + length (matching_preferred r))%nat
      ∧ total_skills_matched r
        = (size (normalized A ∩ (normalized B ∪ normalized P))
           + size (normalized A ∩ normalized B ∩ normalized P))%nat)
  ∧ (∀ resume job, ∃ r row,
      analyze_skill_gap (skills resume) (required_skills job)
                        (or_empty (preferred_skills job)) = Ok r
      ∧ batch_row resume job = Ok row
      ∧ skills_matched row = total_skills_matched r)
  ∧ (∃ A B P r,
      analyze_skill_gap A B P = Ok r
      ∧ (size (normalized A ∩ (normalized B ∪ normalized P))
         < total_skills_matched r)%nat).
Proof.
  split_and!.
  - intros A B P.
    destruct (analyze_skill_gap_returns tfidf_cosine A B P)
      as (r & Hr & Hmr & Hmp & _ & _ & _ & _ & _ & Htot).
    exists r. split_and!; [done..|].
    rewrite Htot, Hmr, Hmp.
    change (length (elements ?X)) with (size X).
    set (X := normalized A ∩ normalized B).
    set (Y := normalized A ∩ normalized P).
    replace (normalized A ∩ (normalized B ∪ normalized P)) with (X ∪ Y)
      by (unfold X, Y; set_solver).
    replace (X ∩ normalized P) with (X ∩ Y) by (unfold X, Y; set_solver).
    rewrite size_union_alt.
    assert (size Y = size (Y ∖ X) + size (X ∩ Y))%nat as ->; [|lia].
    rewrite <- size_union by set_solver. f_equal.
    apply set_eq. intros x. destruct (decide (x ∈ X)); set_solver.
  - intros resume job.
    destruct (batch_row_returns resume job) as (r & row & ? & ? & _ & ? & _).
    by exists r, row.
  - exists ["python"], ["python"], ["py"].
    destruct (analyze_skill_gap_returns tfidf_cosine
                ["python"] ["python"] ["py"])
      as (r & Hr & Hmr & Hmp & _ & _ & _ & _ & _ & Htot).
    exists r. split; [done|]. rewrite Htot, Hmr, Hmp. by vm_compute.
Qed.

End WithVectorizer.

(** The sample request: jobs [a] and [c] tie and stay in order. *)
Example batch_match_resume_sample :
  match batch_match_resume sample_cosine sample_resume sample_jobs with
  | Ok results => List.map res_job_title results = ["b"; "a"; "c"; "d"]
  | Raise _ => False
  end.
Proof. by vm_compute. Qed.

End BackendFacts.

(** ** The text extractor *)

Module ResumeParserFacts.
Import PyStr ResumeParser ResumeParserSpec.

(** *** [extract_name] *)

Lemma remove_period word : remove_char "." word = without_periods word.
Proof.
  unfold remove_char, without_periods, on_chars. f_equal.
Qed.

Section WithBuiltins.
Variable str_strip : string → string.
Variable str_split : string → list string.
Variable str_upper : string → string.
Variable str_isalpha : string → bool.

Local Abbreviation extract_name_loop :=
  (extract_name_loop str_strip str_split str_upper str_isalpha).
Local Abbreviation extract_name :=
  (extract_name str_strip str_split str_upper str_isalpha).
Local Abbreviation name_line := (name_line str_split str_upper str_isalpha).
Local Abbreviation name_window := (name_window str_strip).

Lemma extract_name_loop_cons line rest :
  extract_name_loop (line :: rest)
  = if name_line (str_strip line) then Some (str_strip line)
    else extract_name_loop rest.
Proof.
  cbn [ResumeParser.extract_name_loop]. unfold ResumeParserSpec.name_line.
  destruct (is_empty (str_strip line)); [done|].
  change name_headers with header_lines.
  destruct (bool_decide (str_upper (str_strip line) ∈ header_lines)); [done|].
  cbn [negb orb andb].
  destruct (1 <=? length (str_split (str_strip line)))%nat; [|done].
  destruct (length (str_split (str_strip line)) <=? 4)%nat; [|done].
  cbn [andb].
  assert (∀ words, forallb (name_word str_isalpha) words
                   = forallb (λ word, str_isalpha (without_periods word)) words)
    as ->.
  { intros words. induction words as [|word words IH]; [done|].
    cbn [forallb]. unfold name_word at 1. by rewrite remove_period, IH. }
  by destruct (forallb _ _).
Qed.

Lemma extract_name_loop_Some lines name :
  extract_name_loop lines = Some name ↔
  ∃ i, (str_strip <$> lines) !! i = Some name
       ∧ name_line name = true
       ∧ ∀ j line, (j < i)%nat → (str_strip <$> lines) !! j = Some line →
                   name_line line = false.
Proof.
  induction lines as [|line rest IH].
  - simpl. split; [done|]. by intros (i & Hi & _).
  - rewrite extract_name_loop_cons.
    destruct (name_line (str_strip line)) eqn:Hline.
    + split.
      * intros [= <-]. exists 0%nat. split_and!; [done..|]. intros; lia.
      * intros ([|i] & Hi & Hname & Hbefore); simpl in *; [congruence|].
        specialize (Hbefore 0%nat (str_strip line)). simpl in Hbefore.
        rewrite Hbefore in Hline; [done|lia|done].
    + rewrite IH. split.
      * intros (i & Hi & Hname & Hbefore). exists (S i).
        split_and!; [done..|].
        intros [|j] l Hj Hl; simpl in *; [congruence|].
        apply (Hbefore j); [lia|done].
      * intros ([|i] & Hi & Hname & Hbefore); simpl in *; [congruence|].
        exists i. split_and!; [done..|].
        intros j l Hj Hl. apply (Hbefore (S j)); [lia|done].
Qed.

Lemma extract_name_loop_None lines :
  extract_name_loop lines = None ↔
  ∀ line, line ∈ str_strip <$> lines → name_line line = false.
Proof.
  induction lines as [|line rest IH].
  - simpl. split; [|done]. by intros _ l ?%elem_of_nil.
  - rewrite extract_name_loop_cons, fmap_cons.
    destruct (name_line (str_strip line)) eqn:Hline.
    + split; [done|]. intros H. rewrite H in Hline; [done|]. by left.
    + rewrite IH. split.
      * intros H l [->|Hl]%elem_of_cons; auto.
      * intros H l Hl. apply H. by right.
Qed.

(** C8, as amended: the result is the first line of the window that is a
    name line, and there is no result exactly when the window has no such
    line.  The window is the first five lines of the trimmed text, blank
    ones included; a name line is not empty, is none of the three headers
    in any letter case, and has one to four words that are alphabetic
    once all their periods are removed.  Trimming, splitting into words,
    upper case and alphabetic are those of Python, for every script. *)
Theorem extract_name_first_name_line (text : string) :
  (∀ name,
      extract_name text = Some name ↔
      ∃ i, name_window text !! i = Some name
           ∧ name_line name = true
           ∧ ∀ j line, (j < i)%nat → name_window text !! j = Some line →
                       name_line line = false)
  ∧ (extract_name text = None ↔
     ∀ line, line ∈ name_window text → name_line line = false)
  ∧ (length (name_window text) <= 5)%nat.
Proof.
  unfold ResumeParser.extract_name, ResumeParserSpec.name_window. split_and!.
  - intros name. apply extract_name_loop_Some.
  - apply extract_name_loop_None.
  - rewrite length_fmap, length_take. lia.
Qed.

End WithBuiltins.

(** C8 as stated fails twice.  Blank lines use up the window: with four
    of them behind the header the name on the sixth line is not reached,
    although it is the second non-empty line.  And periods are removed
    wherever they stand, so a word with an inner period passes.  Both
    texts are ASCII, where the builtins are those of [PyStr]. *)
Lemma extract_name_differs_from_spec :
  extract_name strip split_ws upper isalpha sample_blank_lines = None
  ∧ extract_name_spec strip split_ws upper isalpha sample_blank_lines
    = Some "John Doe"
  ∧ extract_name strip split_ws upper isalpha "A.B Smith" = Some "A.B Smith"
  ∧ extract_name_spec strip split_ws upper isalpha "A.B Smith" = None.
Proof. by vm_compute. Qed.

Example extract_name_header_then_name :
  extract_name strip split_ws upper isalpha
    (join newline ["  CV"; ""; "Dr. Jane  Q. Public "; "jane@example.org"])
  = Some "Dr. Jane  Q. Public".
Proof. by vm_compute. Qed.

(** *** [extract_education] *)

Lemma first_of_app_l label visited more m :
  first_of label visited = Some m → first_of label (visited ++ more) = Some m.
Proof.
  unfold first_of. induction visited as [|[l m'] visited IH]; simpl; [done|].
  by destruct (String.eqb l label).
Qed.

Lemma first_of_None label visited :
  first_of label visited = None ↔ label ∉ visited.*1.
Proof.
  unfold first_of. induction visited as [|[l m] visited IH]; simpl.
  - split; [intros _ ?%elem_of_nil|]; done.
  - destruct (String.eqb l label) eqn:Hl; simpl.
    + apply String.eqb_eq in Hl as ->. split; [done|]. intros []. by left.
    + apply String.eqb_neq in Hl. rewrite IH, not_elem_of_cons. naive_solver.
Qed.

Lemma first_of_snoc label visited m :
  label ∉ visited.*1 → first_of label (visited ++ [(label, m)]) = Some m.
Proof.
  unfold first_of. induction visited as [|[l m'] visited IH]; simpl.
  - intros _. by rewrite String.eqb_refl.
  - intros [Hne Hnot]%not_elem_of_cons.
    apply not_eq_sym, String.eqb_neq in Hne. rewrite Hne. by apply IH.
Qed.

Section WithRegex.
Variable re_search : string → list re_flag → string → option re_match.
Variable re_finditer : string → list re_flag → string → list re_match.

Abbreviation education_entry := (education_entry re_search).
Abbreviation match_step := (match_step re_search).
Abbreviation pattern_step := (pattern_step re_search re_finditer).
Abbreviation extract_education := (extract_education re_search re_finditer).
Abbreviation education_section := (education_section re_search).
Abbreviation visits := (visits re_finditer).
Abbreviation visit_step := (visit_step re_search).
Abbreviation entry_for := (entry_for re_search re_finditer).
Abbreviation edu_inv := (edu_inv re_search).

Lemma fold_matches edu_text degree_name ms st :
  List.fold_left (match_step edu_text degree_name) ms st
  = List.fold_left (visit_step edu_text) ((λ m, (degree_name, m)) <$> ms) st.
Proof. revert st. induction ms as [|m ms IH]; intros st; simpl; [done|apply IH]. Qed.

Lemma fold_patterns edu_text table st :
  List.fold_left (pattern_step edu_text) table st
  = List.fold_left (visit_step edu_text) (visits edu_text table) st.
Proof.
  revert st. induction table as [|[pattern degree_name] table IH]; intros st.
  - done.
  - simpl. rewrite fold_left_app, <- fold_matches. apply IH.
Qed.

Lemma edu_inv_step edu_text visited st visit :
  edu_inv edu_text visited st →
  edu_inv edu_text (visited ++ [visit]) (visit_step edu_text st visit).
Proof.
  destruct st as [seen education], visit as [label m].
  intros (labels & Hseen & Hnd & Hdom & Hentries). simpl in *. subst seen.
  unfold visit_step, ResumeParser.match_step. simpl.
  case_bool_decide as Hin; rewrite elem_of_list_to_set in Hin.
  - exists labels. split_and!; simpl; [done..| |].
    + intros l. rewrite Hdom, fmap_app, elem_of_app. simpl.
      rewrite list_elem_of_singleton. split; [auto|].
      intros [?| ->]; [done|]. by apply Hdom.
    + eapply Forall2_impl; [exact Hentries|]. simpl.
      intros l e He.
      destruct (first_of l visited) as [m'|] eqn:Hfirst; [|done].
      by rewrite (first_of_app_l _ _ _ _ Hfirst).
  - exists (labels ++ [label]). split_and!; simpl.
    + rewrite list_to_set_app_L. simpl. by rewrite union_empty_r_L.
    + apply NoDup_app. split_and!; [done| |apply NoDup_singleton].
      by intros l Hl ->%list_elem_of_singleton.
    + intros l. rewrite fmap_app, !elem_of_app, Hdom. simpl.
      by rewrite !list_elem_of_singleton.
    + apply Forall2_app.
      * eapply Forall2_impl; [exact Hentries|]. simpl.
        intros l e He.
        destruct (first_of l visited) as [m'|] eqn:Hfirst; [|done].
        by rewrite (first_of_app_l _ _ _ _ Hfirst).
      * constructor; [|constructor].
        rewrite first_of_snoc; [done|]. by rewrite <- Hdom.
Qed.

Lemma edu_inv_fold edu_text more visited st :
  edu_inv edu_text visited st →
  edu_inv edu_text (visited ++ more)
          (List.fold_left (visit_step edu_text) more st).
Proof.
  revert visited st. induction more as [|visit more IH]; intros visited st Hinv.
  - by rewrite app_nil_r.
  - simpl. replace (visited ++ visit :: more) with ((visited ++ [visit]) ++ more)
      by (by rewrite <- app_assoc).
    by apply IH, edu_inv_step.
Qed.

Lemma edu_inv_init edu_text : edu_inv edu_text [] (∅, []).
Proof.
  exists []. split_and!; simpl; [done|constructor| |constructor].
  intros l. by rewrite !elem_of_nil.
Qed.

Lemma visits_labels edu_text table label :
  label ∈ (visits edu_text table).*1 → label ∈ table.*2.
Proof.
  induction table as [|[pattern degree_name] table IH]; simpl; [done|].
  rewrite fmap_app, elem_of_app, elem_of_cons.
  intros [Hhere|Hlater]; [left|right; by apply IH].
  apply list_elem_of_fmap in Hhere as ([l m] & -> & Hin).
  by apply list_elem_of_fmap in Hin as (m' & [= -> _] & _).
Qed.

Lemma degree_patterns_labels label :
  label ∈ degree_patterns.*2 → label ∈ degree_labels.
Proof.
  unfold degree_patterns, degree_labels. simpl.
  rewrite !elem_of_cons, !elem_of_nil. tauto.
Qed.

Local Opaque degree_patterns.

(** C9: the entries correspond one to one to distinct canonical
    labels, those that have a match; the entry of a label is built from
    its first match, and later matches of the label add nothing. *)
Theorem extract_education_one_per_label (text : string) :
  ∃ labels : list string,
    NoDup labels
    ∧ (∀ label, label ∈ labels → label ∈ degree_labels)
    ∧ (∀ label, label ∈ labels ↔ is_Some (entry_for text label))
    ∧ Forall2 (λ label entry, entry_for text label = Some entry)
              labels (extract_education text)
    ∧ (length (extract_education text) <= length degree_labels)%nat.
Proof.
  assert (∃ labels : list string,
    NoDup labels
    ∧ (∀ label, label ∈ labels → label ∈ degree_labels)
    ∧ (∀ label, label ∈ labels ↔ is_Some (entry_for text label))
    ∧ Forall2 (λ label entry, entry_for text label = Some entry)
              labels (extract_education text)) as (labels & Hnd & Hsub & Hdom & Hall).
  { unfold ResumeParser.extract_education, entry_for, education_section.
    destruct (re_search edu_section_pattern [IGNORECASE; DOTALL] text)
      as [m|]; simpl.
    - destruct (edu_inv_fold (m_group m 1)
                  (visits (m_group m 1) degree_patterns) [] (∅, [])
                  (edu_inv_init _)) as (labels & _ & Hnd & Hdom & Hentries).
      rewrite fold_patterns. simpl in Hdom, Hentries.
      exists labels. split_and!; [done| | |done].
      + intros l Hl%Hdom. by apply degree_patterns_labels, (visits_labels _ _ _ Hl).
      + intros l. rewrite Hdom, fmap_is_Some, <- not_eq_None_Some, first_of_None.
        split; [auto|apply dec_stable].
    - exists []. split_and!; [constructor| | |constructor].
      + by intros l ?%elem_of_nil.
      + intros l. rewrite elem_of_nil. split; [done|by intros [? [=]]]. }
  exists labels. split_and!; [done..|].
  rewrite <- (Forall2_length _ _ _ Hall).
  apply submseteq_length, NoDup_submseteq; [done|].
  intros l. apply Hsub.
Qed.

End WithRegex.

(** The loops on a text with two matches of one label and matches of
    both patterns of another: one entry each, the one of [B.Tech] from the
    pattern that stands first in the table, not first in the text. *)
Example extract_education_sample :
  degree <$> extract_education sample_search sample_finditer sample_education_text
  = ["B.Tech CSE"; "MBA"].
Proof. by vm_compute. Qed.

End ResumeParserFacts.

(** ** More on the normaliser *)

Module NormalizerProps.
Import PyStr SkillProcessor SkillProcessorSpec TextSpec SkillProcessorFacts.

Lemma lower_upper_char c : lower_char (upper_char c) = lower_char c.
Proof. by destruct c as [[] [] [] [] [] [] [] []]. Qed.

Lemma lower_char_fixed c : lower_char c = c ↔ is_upper c = false.
Proof. by destruct c as [[] [] [] [] [] [] [] []]. Qed.

Lemma chars_str l : chars (str l) = l.
Proof. apply list_ascii_of_string_of_list_ascii. Qed.

Lemma str_chars s : str (chars s) = s.
Proof. apply string_of_list_ascii_of_string. Qed.

(** The trim goes through a map that keeps white space white. *)
Lemma lstrip_chars_map (f : ascii → ascii) l :
  (∀ c, is_space (f c) = is_space c) →
  lstrip_chars (List.map f l) = List.map f (lstrip_chars l).
Proof.
  intros Hf. induction l as [|c l IH]; simpl; [done|].
  rewrite Hf. by destruct (is_space c).
Qed.

Lemma strip_chars_map (f : ascii → ascii) l :
  (∀ c, is_space (f c) = is_space c) →
  strip_chars (List.map f l) = List.map f (strip_chars l).
Proof.
  intros Hf. unfold strip_chars, rstrip_chars.
  by rewrite lstrip_chars_map, <- map_rev, lstrip_chars_map, map_rev.
Qed.

Lemma strip_chars_idem l : strip_chars (strip_chars l) = strip_chars l.
Proof. apply strip_chars_id, strip_chars_tight. Qed.

Lemma norm_chars_lower l : norm_chars (List.map lower_char l) = norm_chars l.
Proof.
  unfold norm_chars. rewrite map_map.
  f_equal. f_equal. f_equal. apply map_ext, lower_char_idem.
Qed.

Lemma norm_chars_upper l : norm_chars (List.map upper_char l) = norm_chars l.
Proof.
  unfold norm_chars. rewrite map_map.
  f_equal. f_equal. f_equal. apply map_ext, lower_upper_char.
Qed.

Lemma norm_chars_strip l : norm_chars (strip_chars l) = norm_chars l.
Proof.
  unfold norm_chars.
  by rewrite <- (strip_chars_map lower_char), strip_chars_idem
    by apply lower_char_space.
Qed.

(** The de-duplication loop only drops elements: what it returns is what
    it held, followed by a sublist of what it visited. *)
Lemma dedup_fold_sublist l acc :
  ∃ kept, snd (List.fold_left dedup_step l acc) = snd acc ++ kept
          ∧ (kept `sublist_of` l).
Proof.
  revert acc. induction l as [|x l IH]; intros [seen res]; simpl.
  - exists []. by rewrite app_nil_r.
  - destruct (negb (is_empty x) && bool_decide (x ∉ seen)).
    + destruct (IH (seen ∪ {[x]}, res ++ [x])) as (kept & -> & Hsub). simpl.
      exists (x :: kept). rewrite <- app_assoc. split; [done|by constructor].
    + destruct (IH (seen, res)) as (kept & -> & Hsub). simpl.
      exists kept. split; [done|by constructor].
Qed.

(** The loop keeps the order of first appearance. *)
Lemma dedup_step_order visited acc skill :
  dedup_inv visited acc →
  (∀ before y after, snd acc = before ++ y :: after →
     ∀ x, x ∈ before → first_before visited x y) →
  ∀ before y after, snd (dedup_step acc skill) = before ++ y :: after →
    ∀ x, x ∈ before → first_before (visited ++ [skill]) x y.
Proof.
  destruct acc as [seen res]. intros (Hseen & Hnd & Hel) Hord. simpl in *.
  assert (∀ x y, first_before visited x y → first_before (visited ++ [skill]) x y)
    as Hmore.
  { intros x y (front & back & -> & Hx & Hy).
    exists front, (back ++ [skill]). by rewrite <- app_assoc. }
  unfold dedup_step.
  destruct (negb (is_empty skill) && bool_decide (skill ∉ seen)) eqn:Hadd; simpl.
  - apply andb_true_iff in Hadd as [Hne Hnew].
    apply bool_decide_eq_true in Hnew. apply negb_true_iff in Hne.
    assert (skill ≠ "") as Hskill by (intros ->; discriminate Hne).
    intros before y after Hsplit x Hx.
    destruct after as [|a after _] using rev_ind.
    + apply app_inj_tail in Hsplit as [-> ->].
      exists visited, [y]. split_and!; [done|by apply Hel in Hx as [_ ?]|].
      intros Hin. apply Hnew. rewrite Hseen, elem_of_list_to_set. by apply Hel.
    + rewrite app_comm_cons, app_assoc in Hsplit.
      apply app_inj_tail in Hsplit as [Hres _]. eauto.
  - intros before y after Hsplit x Hx. eauto.
Qed.

Lemma dedup_fold_order l visited acc :
  dedup_inv visited acc →
  (∀ before y after, snd acc = before ++ y :: after →
     ∀ x, x ∈ before → first_before visited x y) →
  ∀ before y after, snd (List.fold_left dedup_step l acc) = before ++ y :: after →
    ∀ x, x ∈ before → first_before (visited ++ l) x y.
Proof.
  revert visited acc. induction l as [|s l IH]; intros visited acc Hinv Hord; simpl.
  - by rewrite app_nil_r.
  - replace (visited ++ s :: l) with ((visited ++ [s]) ++ l)
      by (by rewrite <- app_assoc).
    apply IH; [by apply dedup_step_inv|by apply dedup_step_order].
Qed.

(** X1: [normalize_skills] returns the normalised skills in the order of
    their first appearance: no repetition, no empty string, nothing that
    is not the normal form of an input, nothing non-empty left out, and a
    skill stands before another one exactly as its first appearance among
    the normal forms of the inputs does. *)
Theorem normalize_skills_first_seen (skills : list string) :
  NoDup (normalize_skills skills)
  ∧ ("" ∉ normalize_skills skills)
  ∧ (∀ x, x ∈ normalize_skills skills ↔
          x ≠ "" ∧ ∃ raw, raw ∈ skills ∧ normalize_skill raw = x)
  ∧ (normalize_skills skills `sublist_of` (normalize_skill <$> skills))
  ∧ (∀ before y after, normalize_skills skills = before ++ y :: after →
       ∀ x, x ∈ before → first_before (normalize_skill <$> skills) x y)
  ∧ length (normalize_skills skills) ≤ length skills.
Proof.
  assert (normalize_skills skills `sublist_of` (normalize_skill <$> skills)) as Hsub.
  { unfold normalize_skills.
    by destruct (dedup_fold_sublist (List.map normalize_skill skills) (∅, []))
      as (kept & -> & Hsub). }
  split_and!.
  - apply NoDup_normalize_skills.
  - apply normalize_skills_nonempty_elems.
  - apply elem_of_normalize_skills.
  - done.
  - unfold normalize_skills.
    apply (dedup_fold_order (List.map normalize_skill skills) [] (∅, []));
      [apply dedup_inv_init|].
    simpl. intros before y after Hnil. by destruct before.
  - apply sublist_length in Hsub. by rewrite length_fmap in Hsub.
Qed.

Lemma normalize_skill_tidy skill : tidy (chars (normalize_skill skill)).
Proof.
  rewrite normalize_skill_chars. unfold resolve.
  destruct (skill_synonyms !! str (norm_chars (chars skill))) as [v|] eqn:Hk.
  - apply elem_of_list_to_map_2 in Hk.
    repeat (apply elem_of_cons in Hk as [[= _ ->]|Hk]; [by vm_compute|]).
    by apply elem_of_nil in Hk.
  - rewrite chars_str. apply norm_chars_tidy.
Qed.

Lemma tidy_char_spec c :
  tidy_char c = true →
  is_upper c = false ∧ kept_char c = true ∧ (is_space c = true → c = " "%char).
Proof.
  unfold tidy_char. rewrite !andb_true_iff, orb_true_iff.
  intros [[Hk Hlow%Ascii.eqb_eq] Hs]. split_and!.
  - by apply lower_char_fixed.
  - done.
  - intros Hsp. destruct Hs as [Hs|Hs%Ascii.eqb_eq]; [|done]. by rewrite Hsp in Hs.
Qed.

(** X2: the normal form of a skill written in ASCII has no upper-case
    letter, no character the pattern deletes, and no white space but
    single blanks. *)
Theorem normalize_skill_canonical_characters (skill : string) :
  ascii_text skill →
  Forall (λ c, is_upper c = false
               ∧ kept_char c = true
               ∧ (is_space c = true → c = " "%char))
         (chars (normalize_skill skill))
  ∧ single_spaced false (chars (normalize_skill skill)) = true.
Proof.
  intros _. destruct (normalize_skill_tidy skill) as [Hall Hsp].
  split; [|done].
  apply Forall_forall. intros c Hc.
  rewrite forallb_forall in Hall. by apply tidy_char_spec, Hall, list_elem_of_In.
Qed.

(** X3: for a skill written in ASCII, letter case and white space
    around it make no difference to its normal form. *)
Theorem normalize_skill_ignores_case_and_margins (skill : string) :
  ascii_text skill →
  normalize_skill (upper skill) = normalize_skill skill
  ∧ normalize_skill (lower skill) = normalize_skill skill
  ∧ normalize_skill (strip skill) = normalize_skill skill.
Proof.
  intros _. rewrite !normalize_skill_chars. unfold upper, lower, strip, on_chars.
  by rewrite !chars_str, norm_chars_upper, norm_chars_lower, norm_chars_strip.
Qed.

(** X2 and X3 at a concrete skill. *)
Lemma normalize_skill_canonical_characters_witness :
  ascii_text "  Node.JS  (v18) "
  ∧ Forall (λ c, is_upper c = false
                 ∧ kept_char c = true
                 ∧ (is_space c = true → c = " "%char))
           (chars (normalize_skill "  Node.JS  (v18) "))
  ∧ single_spaced false (chars (normalize_skill "  Node.JS  (v18) ")) = true.
Proof.
  assert (ascii_text "  Node.JS  (v18) ") as Hascii by ascii_text_holds.
  split; [done|]. by apply (normalize_skill_canonical_characters "  Node.JS  (v18) ").
Defined.

Lemma normalize_skill_ignores_case_and_margins_witness :
  ascii_text "  Node.JS  (v18) "
  ∧ normalize_skill (upper "  Node.JS  (v18) ") = normalize_skill "  Node.JS  (v18) "
  ∧ normalize_skill (lower "  Node.JS  (v18) ") = normalize_skill "  Node.JS  (v18) "
  ∧ normalize_skill (strip "  Node.JS  (v18) ") = normalize_skill "  Node.JS  (v18) ".
Proof.
  assert (ascii_text "  Node.JS  (v18) ") as Hascii by ascii_text_holds.
  split; [done|].
  by apply (normalize_skill_ignores_case_and_margins "  Node.JS  (v18) ").
Defined.

(** X29 at a concrete skill. *)
Lemma normalize_skill_idempotent_on_kept_edges_witness :
  edge_kept (strip_chars (List.map lower_char (chars " Node.js / React ")))
  ∧ edge_kept (List.rev (strip_chars (List.map lower_char (chars " Node.js / React "))))
  ∧ normalize_skill (normalize_skill " Node.js / React ")
    = normalize_skill " Node.js / React ".
Proof.
  split; [by vm_compute|]. split; [by vm_compute|].
  apply (normalize_skill_idempotent_on_kept_edges " Node.js / React "); by vm_compute.
Defined.

End NormalizerProps.

(** ** More on the gap analyser *)

Module AnalyzerProps.
Import PyStr SkillProcessor SkillMatcher PyFloat.
Import SkillMatcherSpec SkillProcessorFacts PyFloatFacts SkillMatcherFacts.
Local Open Scope Q_scope.

Lemma normalized_ext (A A' : list string) :
  (∀ x, x ∈ A ↔ x ∈ A') → normalized A = normalized A'.
Proof.
  intros HA. apply set_eq. intros x. rewrite !elem_of_normalized.
  split; intros (Hx & raw & Hraw & Hn); (split; [done|]); exists raw;
    (split; [by apply HA|done]).
Qed.

Lemma normalized_mono (A A' : list string) :
  (∀ x, x ∈ A → x ∈ A') → normalized A ⊆ normalized A'.
Proof.
  intros HA x. rewrite !elem_of_normalized.
  intros (Hx & raw & Hraw & Hn). split; [done|]. exists raw. auto.
Qed.

Lemma normalized_empty (A : list string) :
  normalize_skills A = [] → normalized A = ∅.
Proof. unfold normalized. by intros ->. Qed.

Lemma normalize_skills_nil_iff (A : list string) :
  normalize_skills A = [] ↔ normalized A = ∅.
Proof.
  split; [apply normalized_empty|].
  intros HA. apply length_zero_iff_nil. rewrite <- size_normalized, HA.
  apply size_empty.
Qed.

Lemma len_elements (X : gset string) : len (elements X) = inject_Z (Z.of_nat (size X)).
Proof. done. Qed.

Lemma is_nil_false {A} (l : list A) : is_nil l = false ↔ l ≠ [].
Proof. by destruct l. Qed.

Section WithVectorizer.
Variable tfidf_cosine : string → string → result Q.

Abbreviation analyze_skill_gap := (analyze_skill_gap tfidf_cosine).
Abbreviation calculate_similarity := (calculate_similarity tfidf_cosine).

(** X4: the required skills split into the matching and the missing
    ones, and the preferred skills likewise: no skill is in both lists and
    the two lengths add up to the number of normalised skills. *)
Theorem analyze_skill_gap_splits_requirements (A B P : list string) :
  ∃ r, analyze_skill_gap A B P = Ok r
    ∧ (length (matching_required r) + length (missing_required r)
       = length (normalize_skills B))%nat
    ∧ (∀ x, x ∈ matching_required r → x ∉ missing_required r)
    ∧ (length (matching_preferred r) + length (missing_preferred r)
       = length (normalize_skills P))%nat
    ∧ (∀ x, x ∈ matching_preferred r → x ∉ missing_preferred r).
Proof.
  destruct (analyze_skill_gap_returns tfidf_cosine A B P)
    as (r & Hr & Hmr & Hmp & Hmiss & Hmissp & _).
  exists r. split; [done|]. rewrite Hmr, Hmp, Hmiss, Hmissp.
  assert (∀ X Y : gset string,
            (length (elements (X ∩ Y)) + length (elements (Y ∖ X)) = size Y)%nat
            ∧ ∀ x, x ∈ elements (X ∩ Y) → x ∉ elements (Y ∖ X)) as Hsplit.
  { intros X Y. split.
    - change (length (elements ?Z)) with (size Z).
      rewrite <- size_union by set_solver. f_equal.
      apply set_eq. intros x. destruct (decide (x ∈ X)); set_solver.
    - intros x. rewrite !elem_of_elements. set_solver. }
  rewrite <- !size_normalized.
  destruct (Hsplit (normalized A) (normalized B)), (Hsplit (normalized A) (normalized P)).
  by split_and!.
Qed.

Lemma analyze_skill_gap_accounts_for_resume_aux (A B P : list string) :
  ∃ r, analyze_skill_gap A B P = Ok r
    ∧ additional_skills r = elements (normalized A ∖ normalized B ∖ normalized P).
Proof.
  unfold SkillMatcher.analyze_skill_gap.
  rewrite calculate_job_fit_score_ok. simpl.
  destruct (is_nil (normalize_skills B)) eqn:HB; simpl.
  - eexists. by split.
  - rewrite div_len by done. simpl. eexists. by split.
Qed.

(** X5: every normalised resume skill is matching (required or
    preferred) or additional, and an additional skill is neither required
    nor preferred. *)
Theorem analyze_skill_gap_accounts_for_resume (A B P : list string) :
  ∃ r, analyze_skill_gap A B P = Ok r
    ∧ (∀ x, x ∈ normalize_skills A ↔
            x ∈ matching_required r ∨ x ∈ matching_preferred r
            ∨ x ∈ additional_skills r)
    ∧ (∀ x, x ∈ additional_skills r →
            (x ∉ normalize_skills B) ∧ (x ∉ normalize_skills P))
    ∧ NoDup (additional_skills r).
Proof.
  destruct (analyze_skill_gap_accounts_for_resume_aux A B P) as (r & Hr & Hadd).
  destruct (analyze_skill_gap_returns tfidf_cosine A B P)
    as (r0 & Hr0 & Hmr & Hmp & _).
  assert (r0 = r) as -> by congruence.
  exists r. split; [done|]. rewrite Hadd, Hmr, Hmp. unfold normalized.
  split_and!.
  - intros x. rewrite !elem_of_elements, !elem_of_difference, !elem_of_intersection,
      !elem_of_list_to_set.
    destruct (decide (x ∈ normalize_skills B)), (decide (x ∈ normalize_skills P));
      tauto.
  - intros x. rewrite elem_of_elements, !elem_of_difference, !elem_of_list_to_set.
    tauto.
  - apply NoDup_elements.
Qed.

(** X6: the required percentage lies between 0 and 100; it is 100
    exactly when some required skill is left after normalisation and none
    of them is missing. *)
Theorem required_match_percentage_range (A B P : list string) :
  ∃ r, analyze_skill_gap A B P = Ok r
    ∧ 0 <= required_match_percentage r <= 100
    ∧ (required_match_percentage r == 100 ↔
       normalize_skills B ≠ [] ∧ missing_required r = []).
Proof.
  destruct (analyze_skill_gap_returns tfidf_cosine A B P)
    as (r & Hr & Hmr & _ & Hmiss & _ & _ & _ & Hpct & _).
  exists r. split; [done|]. rewrite Hpct, Hmiss.
  assert (length (matching_required r) ≤ length (normalize_skills B))%nat as Hle.
  { rewrite Hmr. apply length_elements_le, intersection_subseteq_r. }
  destruct (normalize_skills B) as [|b B'] eqn:HB; simpl.
  { split; [lra|]. split; [lra|]. by intros [? _]. }
  assert (0 < len (b :: B')) as Hpos by (by apply len_pos).
  pose proof (len_nonneg (matching_required r)) as Hnn.
  pose proof (len_le _ _ Hle) as Hlen.
  assert (0 <= len (matching_required r) / len (b :: B') <= 1) as [Hlo Hhi].
  { split; [apply Qle_shift_div_l|apply Qle_shift_div_r]; try done; lra. }
  split; [lra|].
  assert (len (matching_required r) / len (b :: B') * 100 == 100 ↔
          length (matching_required r) = length (b :: B')) as ->.
  { unfold len in *. rewrite <- Nat2Z.inj_iff, <- inject_Z_injective. split; intros Heq.
    - assert (inject_Z (Z.of_nat (length (matching_required r)))
              / inject_Z (Z.of_nat (length (b :: B'))) == 1) as H1 by lra.
      rewrite <- (Qmult_1_l (inject_Z (Z.of_nat (length (b :: B'))))), <- H1.
      field. lra.
    - rewrite Heq. field. lra. }
  rewrite elements_empty_iff, Hmr, <- HB.
  change (length (elements ?X)) with (size X). rewrite <- size_normalized.
  split.
  - intros Hsize. split; [by rewrite HB|].
    assert (normalized A ∩ normalized B = normalized B) as Heq
      by (apply set_subseteq_size_eq; [set_solver|lia]).
    set_solver.
  - intros [_ Hnone]. f_equal. apply set_eq. intros x.
    assert (x ∉ normalized B ∖ normalized A) as Hx by (rewrite Hnone; set_solver).
    rewrite elem_of_difference in Hx.
    destruct (decide (x ∈ normalized A)); set_solver.
Qed.

(** X7: what is matching and what is missing depends on the skills that
    occur in the three lists, not on their order or on repetitions: each
    of the four lists holds the same skills (in an order that Python
    leaves open), and the required percentage and the count are equal. *)
Theorem analyze_skill_gap_order_independent (A A' B B' P P' : list string) :
  (∀ x, x ∈ A ↔ x ∈ A') → (∀ x, x ∈ B ↔ x ∈ B') → (∀ x, x ∈ P ↔ x ∈ P') →
  ∃ r r', analyze_skill_gap A B P = Ok r
    ∧ analyze_skill_gap A' B' P' = Ok r'
    ∧ matching_required r ≡ₚ matching_required r'
    ∧ matching_preferred r ≡ₚ matching_preferred r'
    ∧ missing_required r ≡ₚ missing_required r'
    ∧ missing_preferred r ≡ₚ missing_preferred r'
    ∧ required_match_percentage r = required_match_percentage r'
    ∧ total_skills_matched r = total_skills_matched r'.
Proof.
  intros HA%normalized_ext HB%normalized_ext HP%normalized_ext.
  destruct (analyze_skill_gap_returns tfidf_cosine A B P)
    as (r & Hr & Hmr & Hmp & Hmiss & Hmissp & _ & _ & Hpct & Htot).
  destruct (analyze_skill_gap_returns tfidf_cosine A' B' P')
    as (r' & Hr' & Hmr' & Hmp' & Hmiss' & Hmissp' & _ & _ & Hpct' & Htot').
  exists r, r'.
  assert (length (normalize_skills B) = length (normalize_skills B')) as Hlen
    by (by rewrite <- !size_normalized, HB).
  assert (is_nil (normalize_skills B) = is_nil (normalize_skills B')) as Hnil.
  { destruct (normalize_skills B), (normalize_skills B'); done. }
  rewrite Hpct, Hpct', Htot, Htot', Hmr, Hmr', Hmp, Hmp', Hmiss, Hmiss',
    Hmissp, Hmissp', HA, HB, HP, Hnil.
  unfold len. rewrite Hlen. by split_and!.
Qed.

(** X8: a resume that has every skill of another one matches at least as
    much of the required skills. *)
Theorem required_match_percentage_monotone (A A' B P : list string) :
  (∀ x, x ∈ A → x ∈ A') →
  ∃ r r', analyze_skill_gap A B P = Ok r
    ∧ analyze_skill_gap A' B P = Ok r'
    ∧ required_match_percentage r <= required_match_percentage r'
    ∧ (length (missing_required r') ≤ length (missing_required r))%nat.
Proof.
  intros HA%normalized_mono.
  destruct (analyze_skill_gap_returns tfidf_cosine A B P)
    as (r & Hr & Hmr & _ & Hmiss & _ & _ & _ & Hpct & _).
  destruct (analyze_skill_gap_returns tfidf_cosine A' B P)
    as (r' & Hr' & Hmr' & _ & Hmiss' & _ & _ & _ & Hpct' & _).
  exists r, r'. split; [done|]. split; [done|].
  rewrite Hpct, Hpct', Hmr, Hmr', Hmiss, Hmiss'.
  change (length (elements ?X)) with (size X).
  split.
  - destruct (normalize_skills B) as [|b B'] eqn:HB; simpl; [lra|].
    assert (0 < len (b :: B')) as Hpos by (by apply len_pos).
    assert (len (elements (normalized A ∩ normalized B))
            <= len (elements (normalized A' ∩ normalized B))) as Hle.
    { apply len_le. change (length (elements ?X)) with (size X).
      apply subseteq_size. set_solver. }
    apply Qmult_le_compat_r; [|lra].
    apply Qmult_le_compat_r; [done|]. apply Qlt_le_weak, Qinv_lt_0_compat, Hpos.
  - apply subseteq_size. set_solver.
Qed.

(** X9: when no required skill is left after normalisation, nothing is
    matching or missing as required, the similarity and the required
    percentage are 0, and the fit score is at most 20. *)
Theorem no_required_skills_score_at_most_20 (A B P : list string) :
  normalize_skills B = [] →
  ∃ r, analyze_skill_gap A B P = Ok r
    ∧ matching_required r = []
    ∧ missing_required r = []
    ∧ similarity_score r = 0
    ∧ required_match_percentage r = 0
    ∧ 0 <= job_fit_score r <= 20.
Proof.
  intros HB.
  destruct (analyze_skill_gap_returns tfidf_cosine A B P)
    as (r & Hr & Hmr & Hmp & Hmiss & _ & Hsim & Hfit & Hpct & _).
  exists r. split; [done|].
  assert (similarity_score r = 0) as Hs.
  { rewrite Hsim. apply calculate_similarity_empty. right.
    by apply skills_to_text_empty. }
  rewrite (normalized_empty B HB) in Hmr, Hmiss.
  rewrite intersection_empty_r_L, elements_empty in Hmr.
  rewrite empty_difference_L, elements_empty in Hmiss.
  split_and!; [done..| | |].
  - rewrite Hpct. by rewrite HB.
  - rewrite Hfit. change 0 with (inject_Z 0). apply round2_ge.
    change (inject_Z 0) with 0. rewrite Hs, HB. unfold similarity_component.
    assert (0 <= ratio (matching_preferred r) (normalize_skills P) <= 1)
      by (apply ratio_range; rewrite Hmp; apply length_elements_le,
            intersection_subseteq_r).
    unfold ratio at 1. simpl. lra.
  - rewrite Hfit. change 20 with (inject_Z 20). apply round2_le.
    change (inject_Z 20) with 20. rewrite Hs, HB. unfold similarity_component.
    assert (0 <= ratio (matching_preferred r) (normalize_skills P) <= 1)
      by (apply ratio_range; rewrite Hmp; apply length_elements_le,
            intersection_subseteq_r).
    unfold ratio at 1. simpl. lra.
Qed.

(** X10: a resume of which no skill is left after normalisation matches
    nothing: every required and preferred skill is missing and the fit
    score is 0. *)
Theorem empty_resume_scores_zero (A B P : list string) :
  normalize_skills A = [] →
  ∃ r, analyze_skill_gap A B P = Ok r
    ∧ matching_required r = []
    ∧ matching_preferred r = []
    ∧ additional_skills r = []
    ∧ list_to_set (missing_required r) = normalized B
    ∧ list_to_set (missing_preferred r) = normalized P
    ∧ total_skills_matched r = 0%nat
    ∧ required_match_percentage r == 0
    ∧ job_fit_score r == 0.
Proof.
  intros HA.
  destruct (analyze_skill_gap_accounts_for_resume_aux A B P) as (r & Hr & Hadd).
  destruct (analyze_skill_gap_returns tfidf_cosine A B P)
    as (r0 & Hr0 & Hmr & Hmp & Hmiss & Hmissp & Hsim & Hfit & Hpct & Htot).
  assert (r0 = r) as -> by congruence.
  exists r. split; [done|].
  assert (similarity_score r = 0) as Hs.
  { rewrite Hsim. apply calculate_similarity_empty. left.
    by apply skills_to_text_empty. }
  rewrite (normalized_empty A HA) in Hmr, Hmp, Hmiss, Hmissp, Hadd.
  rewrite intersection_empty_l_L, elements_empty in Hmr, Hmp.
  rewrite difference_empty_L in Hmiss, Hmissp.
  split_and!; [done|done| | | | | |].
  - rewrite Hadd. replace (∅ ∖ normalized B ∖ normalized P) with (∅ : gset string)
      by set_solver. apply elements_empty.
  - by rewrite Hmiss, list_to_set_elements_L.
  - by rewrite Hmissp, list_to_set_elements_L.
  - by rewrite Htot, Hmr, Hmp.
  - rewrite Hpct, Hmr. destruct (is_nil (normalize_skills B)); [done|].
    change (len []) with 0. unfold Qdiv. by rewrite !Qmult_0_l.
  - assert (∀ l, ratio [] l == 0) as Hratio.
    { intros l. unfold ratio. destruct (is_nil l); [done|].
      change (len []) with 0. unfold Qdiv. by rewrite Qmult_0_l. }
    rewrite Hfit, Hmr, Hmp, Hs. change 0 with (inject_Z 0) at 2.
    apply round2_eq. change (inject_Z 0) with 0. unfold similarity_component.
    rewrite !Hratio. lra.
Qed.

End WithVectorizer.

(** X7 and X8 at concrete lists. *)
Lemma analyze_skill_gap_order_independent_witness :
  (∀ x, x ∈ ["JS"; "React"] ↔ x ∈ ["React"; "JS"; "React"])
  ∧ ∃ r r',
      analyze_skill_gap sample_cosine ["JS"; "React"] ["react"; "go"] ["js"] = Ok r
      ∧ analyze_skill_gap sample_cosine ["React"; "JS"; "React"] ["react"; "go"] ["js"]
        = Ok r'
      ∧ matching_required r ≡ₚ matching_required r'
      ∧ matching_preferred r ≡ₚ matching_preferred r'
      ∧ missing_required r ≡ₚ missing_required r'
      ∧ missing_preferred r ≡ₚ missing_preferred r'
      ∧ required_match_percentage r = required_match_percentage r'
      ∧ total_skills_matched r = total_skills_matched r'.
Proof.
  assert (∀ x, x ∈ ["JS"; "React"] ↔ x ∈ ["React"; "JS"; "React"]) as H.
  { intros x. rewrite !elem_of_cons, !elem_of_nil. tauto. }
  split; [exact H|].
  by apply (analyze_skill_gap_order_independent sample_cosine
              ["JS"; "React"] ["React"; "JS"; "React"]
              ["react"; "go"] ["react"; "go"] ["js"] ["js"]).
Defined.

Lemma required_match_percentage_monotone_witness :
  (∀ x, x ∈ ["JS"] → x ∈ ["JS"; "Go"])
  ∧ ∃ r r',
      analyze_skill_gap sample_cosine ["JS"] ["javascript"; "go"] [] = Ok r
      ∧ analyze_skill_gap sample_cosine ["JS"; "Go"] ["javascript"; "go"] [] = Ok r'
      ∧ required_match_percentage r <= required_match_percentage r'
      ∧ (length (missing_required r') ≤ length (missing_required r))%nat.
Proof.
  assert (∀ x, x ∈ ["JS"] → x ∈ ["JS"; "Go"]) as H.
  { intros x. rewrite !elem_of_cons, !elem_of_nil. tauto. }
  split; [exact H|].
  by apply (required_match_percentage_monotone sample_cosine).
Defined.

Lemma no_required_skills_score_at_most_20_witness :
  normalize_skills ["!!"; ""] = []
  ∧ ∃ r, analyze_skill_gap sample_cosine ["JS"; "Go"] ["!!"; ""] ["go"; "rust"] = Ok r
      ∧ matching_required r = []
      ∧ missing_required r = []
      ∧ similarity_score r = 0
      ∧ required_match_percentage r = 0
      ∧ 0 <= job_fit_score r <= 20.
Proof.
  split; [by vm_compute|].
  apply (no_required_skills_score_at_most_20 sample_cosine). by vm_compute.
Defined.

Lemma empty_resume_scores_zero_witness :
  normalize_skills [" "; "?"] = []
  ∧ ∃ r, analyze_skill_gap sample_cosine [" "; "?"] ["JS"; "Go"] ["rust"] = Ok r
      ∧ matching_required r = []
      ∧ matching_preferred r = []
      ∧ additional_skills r = []
      ∧ list_to_set (missing_required r) = normalized ["JS"; "Go"]
      ∧ list_to_set (missing_preferred r) = normalized ["rust"]
      ∧ total_skills_matched r = 0%nat
      ∧ required_match_percentage r == 0
      ∧ job_fit_score r == 0.
Proof.
  split; [by vm_compute|].
  apply (empty_resume_scores_zero sample_cosine). by vm_compute.
Defined.

End AnalyzerProps.

(** ** More on the recommendations *)

Module RecommendationProps.
Import PyStr SkillMatcher PyFloat SkillMatcherSpec RecommendationSpec RecommendationFacts.
Local Open Scope Q_scope.

Lemma headline_for_untagged score :
  String.prefix "[PRIORITY]" (headline_for score) = false
  ∧ String.prefix "[BONUS]" (headline_for score) = false
  ∧ String.prefix "[ADVICE]" (headline_for score) = false.
Proof. unfold headline_for. by repeat (destruct (ge score _)). Qed.

Lemma generate_recommendations_counts missing_required missing_preferred score :
  let lines := generate_recommendations missing_required missing_preferred score in
  tagged "[PRIORITY]" lines = (if is_nil missing_required then 0 else 1)%nat
  ∧ tagged "[BONUS]" lines
    = (if negb (is_nil missing_preferred) && lt score 90 then 1 else 0)%nat
  ∧ tagged "[ADVICE]" lines = 2%nat
  ∧ length lines
    = (1 + tagged "[PRIORITY]" lines + tagged "[BONUS]" lines + 2)%nat.
Proof.
  unfold generate_recommendations.
  replace (if ge score 80 then [] ++ [headline_excellent]
           else if ge score 60 then [] ++ [headline_good]
           else if ge score 40 then [] ++ [headline_moderate]
           else [] ++ [headline_low])
    with [headline_for score]
    by (unfold headline_for; by repeat (destruct (ge score _))).
  destruct (headline_for_untagged score) as (Hp & Hb & Ha).
  unfold tagged.
  destruct (is_nil missing_required), (is_nil missing_preferred),
    (lt score 90), (lt score 50), (lt score 70);
    cbn [negb andb app List.filter]; rewrite Hp, Hb, Ha; by split_and!.
Qed.

(** X11: besides the headline there is one priority line exactly when a
    required skill is missing, one bonus line exactly when a preferred
    skill is missing and the score is below 90, and always two lines of
    advice: three to five lines in all. *)
Theorem generate_recommendations_lines
    (missing_required missing_preferred : list string) (job_fit_score : Q) :
  let lines :=
    generate_recommendations missing_required missing_preferred job_fit_score in
  (tagged "[PRIORITY]" lines ≤ 1)%nat
  ∧ (tagged "[PRIORITY]" lines = 1%nat ↔ missing_required ≠ [])
  ∧ (tagged "[BONUS]" lines ≤ 1)%nat
  ∧ (tagged "[BONUS]" lines = 1%nat ↔ missing_preferred ≠ [] ∧ job_fit_score < 90)
  ∧ tagged "[ADVICE]" lines = 2%nat
  ∧ length lines
    = (1 + tagged "[PRIORITY]" lines + tagged "[BONUS]" lines + 2)%nat
  ∧ (3 ≤ length lines ≤ 5)%nat.
Proof.
  intros lines.
  destruct (generate_recommendations_counts
              missing_required missing_preferred job_fit_score)
    as (Hp & Hb & Ha & Hlen).
  fold lines in Hp, Hb, Ha, Hlen. rewrite Hlen, Ha, Hp, Hb.
  assert (lt job_fit_score 90 = true ↔ job_fit_score < 90) as Hlt.
  { unfold lt. rewrite negb_true_iff. apply Qle_bool_false. }
  assert (negb (is_nil missing_preferred) && lt job_fit_score 90 = true
          ↔ missing_preferred ≠ [] ∧ job_fit_score < 90) as Hbonus.
  { rewrite andb_true_iff, Hlt. destruct missing_preferred; simpl; naive_solver. }
  destruct (negb (is_nil missing_preferred) && lt job_fit_score 90);
    destruct missing_required; simpl; split_and!; try lia; try done.
  all: split; try done; try lia.
  all: try (intros _; by apply Hbonus).
  all: intros H; by apply Hbonus in H.
Qed.

End RecommendationProps.

(** ** Overlap and vectors *)

Module OverlapProps.
Import PyStr PyStrMore SkillProcessor SkillProcessorTools PyFloat.
Import SkillMatcherSpec SkillProcessorFacts PyFloatFacts SkillMatcherFacts AnalyzerProps.
Local Open Scope Q_scope.

Lemma size_pos_div (n m : nat) :
  (0 < m)%nat →
  PyFloat.div (inject_Z (Z.of_nat n)) (inject_Z (Z.of_nat m))
  = Ok (inject_Z (Z.of_nat n) / inject_Z (Z.of_nat m)).
Proof.
  intros Hm. unfold PyFloat.div.
  destruct (Qeq_bool (inject_Z (Z.of_nat m)) 0) eqn:He; [|done].
  apply Qeq_bool_iff in He. change 0 with (inject_Z 0) in He.
  rewrite inject_Z_injective in He. lia.
Qed.

(** [calculate_skill_overlap] returns, and this is what it returns. *)
Lemma calculate_skill_overlap_returns (skills1 skills2 : list string) :
  ∃ o, calculate_skill_overlap skills1 skills2 = Ok o
    ∧ matching o = elements (normalized skills1 ∩ normalized skills2)
    ∧ only_in_first o = elements (normalized skills1 ∖ normalized skills2)
    ∧ only_in_second o = elements (normalized skills2 ∖ normalized skills1)
    ∧ match_count o = size (normalized skills1 ∩ normalized skills2)
    ∧ total_unique o = size (normalized skills1 ∪ normalized skills2)
    ∧ overlap_ratio o
      = (if (0 <? total_unique o)%nat
         then inject_Z (Z.of_nat (match_count o)) / inject_Z (Z.of_nat (total_unique o))
         else 0).
Proof.
  unfold calculate_skill_overlap. fold (normalized skills1) (normalized skills2).
  destruct (0 <? size (normalized skills1 ∪ normalized skills2))%nat eqn:Hpos.
  - unfold len. rewrite size_pos_div by (by apply Nat.ltb_lt). simpl.
    eexists. split; [reflexivity|]. simpl. rewrite Hpos. by split_and!.
  - simpl. eexists. split; [reflexivity|]. simpl. rewrite Hpos. by split_and!.
Qed.

(** X12: the distinct skills of the two lists are the common ones, those
    of the first list only and those of the second only, each counted
    once. *)
Theorem calculate_skill_overlap_partition (skills1 skills2 : list string) :
  ∃ o, calculate_skill_overlap skills1 skills2 = Ok o
    ∧ match_count o = length (matching o)
    ∧ total_unique o
      = (match_count o + length (only_in_first o) + length (only_in_second o))%nat
    ∧ (∀ x, x ∈ matching o → (x ∉ only_in_first o) ∧ (x ∉ only_in_second o))
    ∧ (∀ x, x ∈ only_in_first o → x ∉ only_in_second o)
    ∧ (∀ x, x ∈ normalize_skills skills1 ↔ x ∈ matching o ∨ x ∈ only_in_first o)
    ∧ (∀ x, x ∈ normalize_skills skills2 ↔ x ∈ matching o ∨ x ∈ only_in_second o).
Proof.
  destruct (calculate_skill_overlap_returns skills1 skills2)
    as (o & Ho & Hm & H1 & H2 & Hc & Ht & _).
  exists o. split; [done|]. rewrite Hc, Ht, Hm, H1, H2.
  change (length (elements ?X)) with (size X).
  set (X := normalized skills1). set (Y := normalized skills2).
  assert (∀ x, x ∈ normalize_skills skills1 ↔ x ∈ X) as HX
    by (intros x; unfold X, normalized; by rewrite elem_of_list_to_set).
  assert (∀ x, x ∈ normalize_skills skills2 ↔ x ∈ Y) as HY
    by (intros x; unfold Y, normalized; by rewrite elem_of_list_to_set).
  split_and!.
  - done.
  - rewrite <- !size_union by set_solver. f_equal.
    apply set_eq. intros x. destruct (decide (x ∈ X)), (decide (x ∈ Y)); set_solver.
  - intros x. rewrite !elem_of_elements. set_solver.
  - intros x. rewrite !elem_of_elements. set_solver.
  - intros x. rewrite HX, !elem_of_elements. destruct (decide (x ∈ Y)); set_solver.
  - intros x. rewrite HY, !elem_of_elements. destruct (decide (x ∈ X)); set_solver.
Qed.

(** X13: the ratio lies between 0 and 1, it is 0 when there is no skill
    at all (no division takes place), and it is 1 exactly when the two
    lists have the same, non-empty, set of normalised skills. *)
Theorem overlap_ratio_range (skills1 skills2 : list string) :
  ∃ o, calculate_skill_overlap skills1 skills2 = Ok o
    ∧ 0 <= overlap_ratio o <= 1
    ∧ (total_unique o = 0%nat → overlap_ratio o = 0)
    ∧ (overlap_ratio o == 1 ↔
       normalized skills1 = normalized skills2 ∧ normalize_skills skills1 ≠ [])
    ∧ (overlap_ratio o == 0 ↔ matching o = []).
Proof.
  destruct (calculate_skill_overlap_returns skills1 skills2)
    as (o & Ho & Hm & _ & _ & Hc & Ht & Hr).
  exists o. split; [done|]. rewrite Hr, Hm, Hc, Ht.
  set (X := normalized skills1). set (Y := normalized skills2).
  assert (size (X ∩ Y) ≤ size (X ∪ Y))%nat as Hle by (apply subseteq_size; set_solver).
  assert (normalize_skills skills1 ≠ [] ↔ X ≠ ∅) as ->
    by (unfold X; by rewrite normalize_skills_nil_iff).
  rewrite elements_empty_iff.
  destruct (0 <? size (X ∪ Y))%nat eqn:Hpos.
  - apply Nat.ltb_lt in Hpos.
    set (m := inject_Z (Z.of_nat (size (X ∩ Y)))).
    set (t := inject_Z (Z.of_nat (size (X ∪ Y)))).
    assert (0 < t) as Ht0 by (unfold t; change 0 with (inject_Z 0);
                              rewrite <- Zlt_Qlt; lia).
    assert (0 <= m) as Hm0 by (unfold m; change 0 with (inject_Z 0);
                               rewrite <- Zle_Qle; lia).
    assert (m <= t) as Hmt by (unfold m, t; rewrite <- Zle_Qle; lia).
    assert (m / t == 1 ↔ m == t) as H1.
    { split; intros H.
      - rewrite <- (Qmult_1_l t), <- H. field. lra.
      - rewrite H. field. lra. }
    assert (m / t == 0 ↔ m == 0) as H0.
    { split; intros H.
      - rewrite <- (Qmult_0_l t), <- H. field. lra.
      - rewrite H. field. lra. }
    split_and!.
    + apply Qle_shift_div_l; [done|lra].
    + apply Qle_shift_div_r; [done|lra].
    + lia.
    + rewrite H1. unfold m, t. rewrite inject_Z_injective, Nat2Z.inj_iff. split.
      * intros Hsz.
        assert (X ∩ Y = X ∪ Y) as Heq
          by (apply set_subseteq_size_eq; [set_solver|lia]).
        split; [set_solver|].
        intros HX. assert (size (X ∪ Y) = 0)%nat; [|lia].
        rewrite <- Heq, HX. by rewrite intersection_empty_l_L, size_empty.
      * intros [-> _]. f_equal. set_solver.
    + rewrite H0. unfold m. change 0 with (inject_Z 0).
      rewrite inject_Z_injective. change 0%Z with (Z.of_nat 0).
      rewrite Nat2Z.inj_iff, size_empty_iff. by unfold_leibniz.
  - apply Nat.ltb_ge in Hpos.
    assert (X ∪ Y = ∅) as HXY by (apply leibniz_equiv, size_empty_iff; lia).
    assert (X = ∅ ∧ Y = ∅) as [HX HY] by set_solver.
    split_and!; [lra|lra|done| |].
    + split; [by intros ?|]. intros [_ H]. done.
    + split; [|done]. intros _. rewrite HX. set_solver.
Qed.

(** X14: exchanging the two lists exchanges the skills of the two
    one-sided lists and changes nothing else: the common skills, the
    counts and the ratio stay.  (Python leaves the order within each of
    the three lists open.) *)
Theorem calculate_skill_overlap_symmetric (skills1 skills2 : list string) :
  ∃ o o', calculate_skill_overlap skills1 skills2 = Ok o
    ∧ calculate_skill_overlap skills2 skills1 = Ok o'
    ∧ matching o' ≡ₚ matching o
    ∧ only_in_first o' ≡ₚ only_in_second o
    ∧ only_in_second o' ≡ₚ only_in_first o
    ∧ match_count o' = match_count o
    ∧ total_unique o' = total_unique o
    ∧ overlap_ratio o' = overlap_ratio o.
Proof.
  destruct (calculate_skill_overlap_returns skills1 skills2)
    as (o & Ho & Hm & H1 & H2 & Hc & Ht & Hr).
  destruct (calculate_skill_overlap_returns skills2 skills1)
    as (o' & Ho' & Hm' & H1' & H2' & Hc' & Ht' & Hr').
  exists o, o'. split; [done|]. split; [done|].
  assert (match_count o' = match_count o) as Hcc
    by (by rewrite Hc, Hc', (comm_L (∩))).
  assert (total_unique o' = total_unique o) as Htt
    by (by rewrite Ht, Ht', (comm_L (∪))).
  split_and!; [|by rewrite H1', H2|by rewrite H2', H1|done|done|].
  - by rewrite Hm, Hm', (comm_L (∩)).
  - by rewrite Hr, Hr', Hcc, Htt.
Qed.

Lemma sum_indicator (S : gset string) (l : list string) :
  sum_list (List.map (λ x, if bool_decide (x ∈ S) then 1 else 0)%nat l)
  = length (filter (.∈ S) l).
Proof.
  induction l as [|x l IH]; simpl; [done|].
  rewrite filter_cons. case_bool_decide; case_decide; simpl; try done; lia.
Qed.

Lemma sorted_Permutation (s : gset string) : sorted s ≡ₚ elements s.
Proof. apply merge_sort_Permutation. Qed.

(** X15: the vector has one entry, 0 or 1, for each element of
    [all_skills] in increasing order, 1 where the element is a normalised
    skill of the list; the entries add up to the number of normalised
    skills that are in [all_skills]. *)
Theorem create_skill_vector_counts (skills : list string) (all_skills : gset string) :
  length (create_skill_vector skills all_skills) = size all_skills
  ∧ Sorted String.le (sorted all_skills)
  ∧ (∀ i skill, sorted all_skills !! i = Some skill →
       create_skill_vector skills all_skills !! i
       = Some (if bool_decide (skill ∈ normalize_skills skills) then 1 else 0)%nat)
  ∧ sum_list (create_skill_vector skills all_skills)
    = size (normalized skills ∩ all_skills).
Proof.
  unfold create_skill_vector. fold (normalized skills). split_and!.
  - rewrite length_map, sorted_Permutation. done.
  - apply (Sorted_merge_sort String.le).
  - intros i skill Hi.
    change (List.map ?f ?l) with (f <$> l). rewrite list_lookup_fmap, Hi. simpl.
    f_equal. unfold normalized.
    case_bool_decide as H1; case_bool_decide as H2; try done;
      rewrite elem_of_list_to_set in H1; done.
  - rewrite sum_indicator, sorted_Permutation.
    rewrite <- (size_list_to_set (C:=gset string)).
    + f_equal. apply set_eq. intros x.
      rewrite elem_of_list_to_set, list_elem_of_filter, elem_of_elements. set_solver.
    + apply NoDup_filter, NoDup_elements.
Qed.

End OverlapProps.

(** ** Splitting a text into skills *)

Module SplitProps.
Import TextSpec.
Import PyStr PyStrMore SkillProcessor SkillProcessorTools Frontend.
Import SkillProcessorSpec SkillProcessorFacts NormalizerProps.

(** What [split_where] cuts out has no cut character in it, and a property
    of all characters that the cut characters have holds of the text when
    it holds of the pieces. *)
Lemma split_where_chars_pieces p cur l :
  Forall (λ c, p c = false) cur →
  Forall (Forall (λ c, p c = false)) (split_where_chars p cur l).
Proof.
  revert cur. induction l as [|c l IH]; intros cur Hcur; simpl.
  - repeat constructor. by apply Forall_rev.
  - destruct (p c) eqn:Hc.
    + constructor; [by apply Forall_rev|]. by apply IH.
    + apply IH. by constructor.
Qed.

Lemma split_where_chars_Forall (Q : ascii → Prop) p cur l :
  (∀ c, p c = true → Q c) →
  Forall (Forall Q) (split_where_chars p cur l) ↔ Forall Q (List.rev cur ++ l).
Proof.
  intros HQ. revert cur. induction l as [|c l IH]; intros cur; simpl.
  - rewrite app_nil_r, Forall_singleton. done.
  - destruct (p c) eqn:Hc; simpl.
    + rewrite Forall_cons, (IH []). simpl. rewrite Forall_app, Forall_cons.
      naive_solver.
    + rewrite (IH (c :: cur)). simpl. by rewrite <- app_assoc.
Qed.

Lemma split_where_chars_whole p cur l :
  Forall (λ c, p c = false) l → split_where_chars p cur l = [List.rev cur ++ l].
Proof.
  revert cur. induction l as [|c l IH]; intros cur Hl; simpl.
  - by rewrite app_nil_r.
  - apply Forall_cons in Hl as [-> Hl]. rewrite IH by done. simpl.
    by rewrite <- app_assoc.
Qed.

Lemma split_where_chars_cut p cur l c rest :
  Forall (λ c, p c = false) l → p c = true →
  split_where_chars p cur (l ++ c :: rest)
  = (List.rev cur ++ l) :: split_where_chars p [] rest.
Proof.
  revert cur. induction l as [|d l IH]; intros cur Hl Hc; simpl.
  - by rewrite Hc, app_nil_r.
  - apply Forall_cons in Hl as [-> Hl]. rewrite IH by done. simpl.
    by rewrite <- app_assoc.
Qed.

Lemma elem_of_split_where p text piece :
  piece ∈ split_where p text → Forall (λ c, p c = false) (chars piece).
Proof.
  unfold split_where. change (List.map str ?l) with (str <$> l).
  intros (l & -> & Hl)%list_elem_of_fmap. rewrite chars_str.
  pose proof (split_where_chars_pieces p [] (chars text) (Forall_nil_2 _)) as H.
  rewrite Forall_forall in H. by apply H.
Qed.

(** The trim takes characters away and adds none. *)
Lemma strip_chars_subseteq l : strip_chars l ⊆ l.
Proof.
  unfold strip_chars.
  destruct (rstrip_chars_take (lstrip_chars l)) as [k ->].
  destruct (lstrip_chars_drop l) as [n ->].
  etrans; [apply subseteq_take|apply subseteq_drop].
Qed.

Lemma lstrip_chars_nil l : lstrip_chars l = [] ↔ Forall (λ c, is_space c = true) l.
Proof.
  induction l as [|c l IH]; simpl; [by split; [constructor|]|].
  destruct (is_space c) eqn:Hc.
  - rewrite IH, Forall_cons. naive_solver.
  - split; [done|]. intros [? _]%Forall_cons. congruence.
Qed.

Lemma strip_chars_nil l : strip_chars l = [] ↔ Forall (λ c, is_space c = true) l.
Proof.
  unfold strip_chars, rstrip_chars. split.
  - intros H. apply (f_equal (@List.rev _)) in H. rewrite rev_involutive in H.
    simpl in H. apply lstrip_chars_nil, Forall_rev in H.
    rewrite rev_involutive in H. apply lstrip_chars_nil.
    pose proof (lstrip_chars_edge l) as Hedge.
    destruct (lstrip_chars l) as [|c r]; [done|].
    apply Forall_cons in H as [Hc _]. simpl in Hedge. congruence.
  - intros H. apply lstrip_chars_nil in H. by rewrite H.
Qed.

Lemma is_empty_strip s :
  is_empty (strip s) = true ↔ Forall (λ c, is_space c = true) (chars s).
Proof.
  rewrite is_empty_spec, <- strip_chars_nil. unfold strip, on_chars. split.
  - intros H. apply (f_equal chars) in H. by rewrite chars_str in H.
  - by intros ->.
Qed.

Lemma strip_strip s : strip (strip s) = strip s.
Proof. unfold strip, on_chars. by rewrite chars_str, strip_chars_idem. Qed.

Lemma chars_strip_subseteq s : chars (strip s) ⊆ chars s.
Proof. unfold strip, on_chars. rewrite chars_str. apply strip_chars_subseteq. Qed.

Lemma normalize_skill_strip s : normalize_skill (strip s) = normalize_skill s.
Proof.
  rewrite !normalize_skill_chars. unfold strip, on_chars.
  by rewrite chars_str, norm_chars_strip.
Qed.

Lemma tidy_no_delimiter c : tidy_char c = true → is_delimiter c = false.
Proof. by destruct c as [[] [] [] [] [] [] [] []]. Qed.

(** *** [SkillProcessor.extract_skills_from_text] *)

Lemma fold_keep_piece pieces acc :
  List.fold_left keep_piece pieces acc
  = acc ++ filter (λ s, 2 ≤ String.length s ≤ 50) (strip <$> pieces).
Proof.
  revert acc. induction pieces as [|piece pieces IH]; intros acc; simpl.
  - by rewrite app_nil_r.
  - rewrite IH, filter_cons. unfold keep_piece.
    destruct (Nat.leb_spec 2 (String.length (strip piece)));
      destruct (Nat.leb_spec (String.length (strip piece)) 50); simpl;
      case_decide; try lia; by rewrite <- ?app_assoc.
Qed.

(** X16: the skills extracted from a text written in ASCII are the
    normal forms of the pieces between delimiters that have 2 to 50
    characters once trimmed, each once, and none contains a delimiter. *)
Theorem extract_skills_from_text_pieces (text : string) :
  ascii_text text →
  NoDup (extract_skills_from_text text)
  ∧ (∀ x, x ∈ extract_skills_from_text text ↔
          x ≠ "" ∧ ∃ piece, piece ∈ split_where is_delimiter text
                            ∧ 2 ≤ String.length (strip piece) ≤ 50
                            ∧ normalize_skill piece = x)
  ∧ Forall (λ x, Forall (λ c, is_delimiter c = false) (chars x))
           (extract_skills_from_text text).
Proof.
  intros _. unfold extract_skills_from_text. rewrite fold_keep_piece. simpl.
  split_and!.
  - apply NoDup_normalize_skills.
  - intros x. rewrite elem_of_normalize_skills. split.
    + intros (Hx & raw & Hraw & Hn). split; [done|].
      apply list_elem_of_filter in Hraw as [Hlen Hraw].
      apply list_elem_of_fmap in Hraw as (piece & -> & Hpiece).
      exists piece. by rewrite <- normalize_skill_strip.
    + intros (Hx & piece & Hpiece & Hlen & Hn). split; [done|].
      exists (strip piece). rewrite normalize_skill_strip. split; [|done].
      apply list_elem_of_filter. split; [done|]. by apply list_elem_of_fmap_2.
  - apply Forall_forall. intros x Hx.
    apply elem_of_normalize_skills in Hx as (_ & raw & _ & <-).
    destruct (normalize_skill_tidy raw) as [Hall _].
    apply Forall_forall. intros c Hc. apply tidy_no_delimiter.
    rewrite forallb_forall in Hall. by apply Hall, list_elem_of_In.
Qed.

Lemma extract_skills_from_text_pieces_witness :
  ascii_text "Python, ML; x | Docker"
  ∧ NoDup (extract_skills_from_text "Python, ML; x | Docker")
  ∧ (∀ x, x ∈ extract_skills_from_text "Python, ML; x | Docker" ↔
          x ≠ "" ∧ ∃ piece, piece ∈ split_where is_delimiter "Python, ML; x | Docker"
                            ∧ 2 ≤ String.length (strip piece) ≤ 50
                            ∧ normalize_skill piece = x)
  ∧ Forall (λ x, Forall (λ c, is_delimiter c = false) (chars x))
           (extract_skills_from_text "Python, ML; x | Docker").
Proof.
  assert (ascii_text "Python, ML; x | Docker") as Hascii by ascii_text_holds.
  split; [done|]. by apply (extract_skills_from_text_pieces "Python, ML; x | Docker").
Defined.

Example extract_skills_from_text_sample :
  extract_skills_from_text "Python, ML; x | Docker"
  = ["python"; "machine learning"; "docker"].
Proof. by vm_compute. Qed.

(** *** [parse_skills_input] *)

Lemma parse_skills_input_eq text :
  parse_skills_input text
  = strip <$> filter (λ s, strip s ≠ "") (split_where is_separator text).
Proof.
  unfold parse_skills_input. change (List.map strip ?l) with (strip <$> l).
  f_equal. induction (split_where is_separator text) as [|s l IH]; simpl; [done|].
  rewrite filter_cons, IH.
  destruct (is_empty (strip s)) eqn:He; simpl; case_decide as Hd; try done.
  - apply is_empty_spec in He. done.
  - apply is_empty_spec in Hd. congruence.
Qed.

(** X17: the skills read from the form are trimmed and not empty, and
    none contains a separator. *)
Theorem parse_skills_input_clean (skills_text : string) :
  Forall (λ skill, skill ≠ ""
                   ∧ strip skill = skill
                   ∧ Forall (λ c, is_separator c = false) (chars skill))
         (parse_skills_input skills_text).
Proof.
  rewrite parse_skills_input_eq. apply Forall_forall. intros skill Hskill.
  apply list_elem_of_fmap in Hskill as (piece & -> & Hpiece).
  apply list_elem_of_filter in Hpiece as [Hne Hpiece].
  split_and!; [done|apply strip_strip|].
  apply elem_of_split_where in Hpiece. rewrite Forall_forall in *.
  intros c Hc. by apply Hpiece, chars_strip_subseteq.
Qed.

Lemma filter_nil_Forall {A} (P : A → Prop) `{!∀ x, Decision (P x)} (l : list A) :
  filter P l = [] ↔ Forall (λ x, ¬ P x) l.
Proof.
  induction l as [|x l IH]; [by split; [constructor|]|].
  rewrite filter_cons, Forall_cons. case_decide; [|rewrite IH]; naive_solver.
Qed.

(** X18: from a text written in ASCII no skill is read exactly when the
    text consists of separators and white space only. *)
Theorem parse_skills_input_empty (skills_text : string) :
  ascii_text skills_text →
  parse_skills_input skills_text = [] ↔
  Forall (λ c, is_separator c = true ∨ is_space c = true) (chars skills_text).
Proof.
  intros _. rewrite parse_skills_input_eq.
  rewrite <- (split_where_chars_Forall _ is_separator [] (chars skills_text)) by auto.
  pose proof (split_where_chars_pieces is_separator [] (chars skills_text)
                (Forall_nil_2 _)) as Hpieces.
  unfold split_where. change (List.map str ?l) with (str <$> l).
  split.
  - intros H%fmap_nil_inv. apply filter_nil_Forall in H.
    rewrite Forall_fmap in H. rewrite Forall_forall in *.
    intros l Hl. specialize (H l Hl). simpl in H. apply dec_stable in H.
    assert (is_empty (strip (str l)) = true) as He by (by apply is_empty_spec).
    apply is_empty_strip in He. rewrite chars_str in He.
    eapply Forall_impl; [exact He|]. auto.
  - intros H.
    assert (filter (λ s, strip s ≠ "") (str <$> split_where_chars is_separator []
                                                  (chars skills_text)) = []) as ->;
      [|done].
    apply filter_nil_Forall. rewrite Forall_fmap. rewrite Forall_forall in *.
    intros l Hl. simpl. intros Hne. apply Hne.
    apply is_empty_spec, is_empty_strip. rewrite chars_str.
    specialize (H l Hl). specialize (Hpieces l Hl). rewrite Forall_forall in *.
    intros c Hc. destruct (H c Hc) as [Hsep|Hsp]; [|done].
    rewrite (Hpieces c Hc) in Hsep. done.
Qed.

Lemma parse_skills_input_empty_witness :
  ascii_text " ,; | "
  ∧ (parse_skills_input " ,; | " = [] ↔
     Forall (λ c, is_separator c = true ∨ is_space c = true) (chars " ,; | ")).
Proof.
  assert (ascii_text " ,; | ") as Hascii by ascii_text_holds.
  split; [done|]. by apply (parse_skills_input_empty " ,; | ").
Defined.

(** The round trip through the form. *)
Lemma chars_append s t : chars (s +:+ t) = chars s ++ chars t.
Proof. induction s as [|c s IH]; simpl; [done|]. by rewrite <- IH. Qed.

Lemma split_where_chars_cur p cur l :
  split_where_chars p cur l
  = match split_where_chars p [] l with
    | hd :: tl => (List.rev cur ++ hd) :: tl
    | [] => []
    end.
Proof.
  revert cur. induction l as [|c l IH]; intros cur; simpl.
  - by rewrite app_nil_r.
  - destruct (p c); [by rewrite app_nil_r|].
    rewrite (IH (c :: cur)), (IH [c]).
    destruct (split_where_chars p [] l); [done|]. simpl. by rewrite <- app_assoc.
Qed.

Lemma split_joined (x : string) (rest : list string) :
  Forall (λ skill, Forall (λ c, is_separator c = false) (chars skill)) (x :: rest) →
  split_where_chars is_separator [] (chars (join ", " (x :: rest)))
  = chars x :: ((λ s, " "%char :: chars s) <$> rest).
Proof.
  revert x. induction rest as [|y rest IH]; intros x [Hx Hrest]%Forall_cons.
  - simpl. by rewrite split_where_chars_whole.
  - change (join ", " (x :: y :: rest)) with (x +:+ ", " +:+ join ", " (y :: rest)).
    rewrite !chars_append. set (R := chars (join ", " (y :: rest))).
    change (chars x ++ chars ", " ++ R) with (chars x ++ ","%char :: " "%char :: R).
    rewrite split_where_chars_cut by done. rewrite fmap_cons. f_equal.
    change (split_where_chars is_separator [] (" "%char :: R))
      with (split_where_chars is_separator [" "%char] R).
    rewrite split_where_chars_cur. unfold R. by rewrite IH.
Qed.

(** X19: skills written in ASCII that are trimmed, not empty and free of
    separators come back unchanged when they are joined with a comma and
    a blank and read again. *)
Theorem parse_skills_input_join (skills : list string) :
  Forall ascii_text skills →
  Forall (λ skill, skill ≠ ""
                   ∧ strip skill = skill
                   ∧ Forall (λ c, is_separator c = false) (chars skill)) skills →
  parse_skills_input (join ", " skills) = skills.
Proof.
  intros _ Hclean. rewrite parse_skills_input_eq. unfold split_where.
  destruct skills as [|x rest]; [done|].
  rewrite split_joined by (eapply Forall_impl; [exact Hclean|]; naive_solver).
  assert (∀ s, strip (str (" "%char :: chars s)) = strip s) as Hlead.
  { intros s. unfold strip, on_chars. by rewrite chars_str. }
  apply Forall_cons in Hclean as [(Hx & Hsx & _) Hrest].
  change (List.map str ?l) with (str <$> l). rewrite fmap_cons, str_chars.
  rewrite filter_cons, decide_True by congruence. rewrite fmap_cons, Hsx. f_equal.
  induction Hrest as [|y rest (Hy & Hsy & _) Hrest IH]; [done|].
  rewrite !fmap_cons, filter_cons, decide_True by (rewrite Hlead; congruence).
  by rewrite fmap_cons, Hlead, Hsy, IH.
Qed.

Lemma parse_skills_input_join_witness :
  Forall ascii_text ["Python"; "Machine Learning"; "C++"]
  ∧ Forall (λ skill, skill ≠ ""
                   ∧ strip skill = skill
                   ∧ Forall (λ c, is_separator c = false) (chars skill))
         ["Python"; "Machine Learning"; "C++"]
  ∧ parse_skills_input (join ", " ["Python"; "Machine Learning"; "C++"])
    = ["Python"; "Machine Learning"; "C++"].
Proof.
  assert (Forall (λ skill, skill ≠ ""
                   ∧ strip skill = skill
                   ∧ Forall (λ c, is_separator c = false) (chars skill))
            ["Python"; "Machine Learning"; "C++"]) as H.
  { repeat constructor; by vm_compute. }
  assert (Forall ascii_text ["Python"; "Machine Learning"; "C++"]) as Hascii.
  { repeat (apply Forall_cons_2; [ascii_text_holds|]). apply Forall_nil_2. }
  split; [exact Hascii|]. split; [exact H|].
  exact (parse_skills_input_join _ Hascii H).
Defined.

End SplitProps.

(** ** The resume parser: display names, skills, work experience *)

Module ParserProps.
Import PyStr PyStrMore SkillProcessor ResumeParser ResumeParserTools.
Import SkillProcessorSpec ResumeParserToolsSpec TextSpec ReportSpec.
Import SkillProcessorFacts NormalizerProps OverlapProps SplitProps.

Lemma lower_idem s : lower (lower s) = lower s.
Proof.
  unfold lower, on_chars. rewrite chars_str, map_map.
  f_equal. apply map_ext, lower_char_idem.
Qed.

Lemma lower_upper s : lower (upper s) = lower s.
Proof.
  unfold lower, upper, on_chars. rewrite chars_str, map_map.
  f_equal. apply map_ext, lower_upper_char.
Qed.

Lemma normalize_skill_lower s : normalize_skill (lower s) = normalize_skill s.
Proof.
  rewrite !normalize_skill_chars. unfold lower, on_chars.
  by rewrite chars_str, norm_chars_lower.
Qed.

Lemma skill_map_pairs : Forall display_pair skill_map_items.
Proof.
  unfold skill_map_items.
  repeat (apply Forall_cons; split;
          [split_and!; [by vm_compute|by vm_compute|simpl; lia|simpl; lia]|]).
  apply Forall_nil_2.
Qed.

Lemma skill_map_lookup k v : skill_map !! k = Some v → display_pair (k, v).
Proof.
  intros H%elem_of_list_to_map_2.
  pose proof skill_map_pairs as Hall. rewrite Forall_forall in Hall. by apply Hall.
Qed.

(** The display name of a skill is looked up like the skill itself. *)
Lemma display_name_lookup skill :
  skill_map !! lower (_normalize_skill_name skill) = skill_map !! lower skill.
Proof.
  unfold _normalize_skill_name.
  destruct (skill_map !! lower skill) as [name|] eqn:Hk; [|done].
  by apply skill_map_lookup in Hk as (Hname & _).
Qed.

(** X20: giving a skill its display name twice is the same as giving
    it once. *)
Theorem normalize_skill_name_idempotent (skill : string) :
  _normalize_skill_name (_normalize_skill_name skill) = _normalize_skill_name skill.
Proof.
  unfold _normalize_skill_name at 1. rewrite display_name_lookup.
  unfold _normalize_skill_name. by destruct (skill_map !! lower skill).
Qed.

(** X21: the display name of a skill has the same normal form as the
    skill, so skills read from a resume are matched as they were written. *)
Theorem display_name_keeps_normal_form (skill : string) :
  normalize_skill (_normalize_skill_name skill) = normalize_skill skill.
Proof.
  unfold _normalize_skill_name.
  destruct (skill_map !! lower skill) as [name|] eqn:Hk; [|done].
  apply skill_map_lookup in Hk as (_ & Hnorm & _). simpl in Hnorm.
  by rewrite Hnorm, normalize_skill_lower.
Qed.

Section WithLibraries.
Variable re_search : string → list re_flag → string → option re_match.
Variable re_finditer : string → list re_flag → string → list re_match.

Local Abbreviation _is_valid_skill := (_is_valid_skill re_search).
Local Abbreviation _extract_skills_section := (_extract_skills_section re_search re_finditer).
Local Abbreviation extract_skills_from_text := (extract_skills_from_text re_search re_finditer).
Local Abbreviation extract_work_experience := (extract_work_experience re_search).

Lemma is_valid_skill_length text :
  _is_valid_skill text = true → 2 ≤ String.length text ≤ 50.
Proof.
  unfold ResumeParserTools._is_valid_skill.
  destruct (is_empty text); simpl; [done|].
  destruct (Nat.ltb_spec (String.length text) 2); simpl; [done|].
  destruct (Nat.ltb_spec 50 (String.length text)); simpl; [done|]. lia.
Qed.

Lemma reported_name text :
  _is_valid_skill text = true → reported (_normalize_skill_name text).
Proof.
  intros Hlen%is_valid_skill_length. split.
  - unfold _normalize_skill_name.
    destruct (skill_map !! lower text) as [name|] eqn:Hk; [|done].
    by apply skill_map_lookup in Hk as (_ & _ & Hname).
  - unfold _normalize_skill_name at 1. rewrite display_name_lookup.
    unfold _normalize_skill_name. by destruct (skill_map !! lower text).
Qed.

Lemma item_step_reported skills item :
  Forall reported skills → Forall reported (item_step re_search skills item).
Proof.
  intros H. unfold item_step.
  destruct (_is_valid_skill _) eqn:Hv; [|done].
  apply Forall_app. split; [done|]. apply Forall_singleton. by apply reported_name.
Qed.

Lemma section_step_reported skills m :
  Forall reported skills → Forall reported (section_step re_search skills m).
Proof.
  unfold section_step. generalize (split_where is_item_separator (m_group m 1)).
  intros items. revert skills.
  induction items as [|item items IH]; intros skills H; simpl; [done|].
  by apply IH, item_step_reported.
Qed.

Lemma extract_skills_section_reported text :
  Forall reported (_extract_skills_section text).
Proof.
  unfold ResumeParserTools._extract_skills_section.
  generalize (re_finditer skills_pattern [IGNORECASE; DOTALL] text).
  intros ms. generalize (Forall_nil_2 reported).
  generalize (@nil string). induction ms as [|m ms IH]; intros skills H; simpl; [done|].
  by apply IH, section_step_reported.
Qed.

Lemma keyword_step_reported (skills : gset string) m :
  set_Forall reported skills → set_Forall reported (keyword_step re_search skills m).
Proof.
  intros H. unfold keyword_step.
  destruct (_is_valid_skill _) eqn:Hv; [|done].
  apply set_Forall_union; [done|]. apply set_Forall_singleton.
  split; [by apply is_valid_skill_length|].
  unfold _normalize_skill_name at 1. rewrite display_name_lookup.
  unfold _normalize_skill_name. by destruct (skill_map !! lower _).
Qed.

Lemma pattern_step_reported text_lower (skills : gset string) pattern :
  set_Forall reported skills →
  set_Forall reported (pattern_step re_search re_finditer text_lower skills pattern).
Proof.
  unfold pattern_step. generalize (re_finditer pattern [IGNORECASE] text_lower).
  intros ms. revert skills.
  induction ms as [|m ms IH]; intros skills H; simpl; [done|].
  by apply IH, keyword_step_reported.
Qed.

Lemma keyword_skills_reported text_lower patterns (skills : gset string) :
  set_Forall reported skills →
  set_Forall reported
    (List.fold_left (pattern_step re_search re_finditer text_lower) patterns skills).
Proof.
  revert skills. induction patterns as [|p ps IH]; intros skills H; simpl; [done|].
  by apply IH, pattern_step_reported.
Qed.

(** The set that [extract_skills_from_text] sorts. *)
Lemma extract_skills_from_text_set text :
  ∃ found : gset string,
    extract_skills_from_text text = sorted (found ∪ list_to_set (_extract_skills_section text))
    ∧ set_Forall reported found.
Proof.
  exists (List.fold_left (pattern_step re_search re_finditer (lower text)) skill_patterns ∅).
  split; [|by apply keyword_skills_reported].
  unfold ResumeParserTools.extract_skills_from_text.
  destruct (_extract_skills_section text) as [|x l]; simpl; [|done].
  by rewrite (right_id_L ∅ (∪)).
Qed.

(** X22: the skills read from a resume come in increasing order, each
    once; each is under its display name and, when it is written in
    ASCII, has 2 to 50 characters; and every skill that the skills
    sections give is among them. *)
Theorem extract_skills_from_text_sorted (text : string) :
  Sorted String.le (extract_skills_from_text text)
  ∧ NoDup (extract_skills_from_text text)
  ∧ Forall listed (extract_skills_from_text text)
  ∧ (∀ skill, skill ∈ _extract_skills_section text →
              skill ∈ extract_skills_from_text text).
Proof.
  destruct (extract_skills_from_text_set text) as (found & -> & Hfound).
  split_and!.
  - apply (Sorted_merge_sort String.le).
  - rewrite sorted_Permutation. apply NoDup_elements.
  - rewrite sorted_Permutation. apply Forall_forall. intros x Hx.
    assert (reported x) as [Hlen Hname]; [|by split].
    apply elem_of_elements, elem_of_union in Hx as [Hx|Hx]; [by apply Hfound|].
    apply elem_of_list_to_set in Hx.
    pose proof (extract_skills_section_reported text) as Hall.
    rewrite Forall_forall in Hall. by apply Hall.
  - intros skill Hskill. rewrite sorted_Permutation.
    apply elem_of_elements, elem_of_union. right. by apply elem_of_list_to_set.
Qed.

Lemma line_step_inv st line : exp_inv st → exp_inv (line_step re_search st line).
Proof.
  destruct st as [seen exps]. intros (Hseen & Hnd & Htrim). simpl in *.
  unfold line_step. destruct (is_empty (strip line)); [done|].
  destruct (re_search exp_line_pattern [IGNORECASE] (strip line)) as [m|]; [|done].
  case_bool_decide as Hnew; [|done].
  unfold exp_inv. simpl. rewrite fmap_app. simpl. split_and!.
  - rewrite list_to_set_app_L, Hseen. simpl. by rewrite (right_id_L ∅ (∪)).
  - apply NoDup_app. split_and!; [done| |apply NoDup_singleton].
    intros x Hx [->|[]%elem_of_nil]%elem_of_cons. apply Hnew.
    rewrite Hseen. by apply elem_of_list_to_set.
  - apply Forall_app. split; [done|]. apply Forall_singleton.
    unfold trimmed. simpl. by rewrite !strip_strip.
Qed.

Lemma line_fold_inv lines st :
  exp_inv st → exp_inv (List.fold_left (line_step re_search) lines st).
Proof.
  revert st. induction lines as [|l ls IH]; intros st H; simpl; [done|].
  by apply IH, line_step_inv.
Qed.

(** X23: no two work-experience entries have the same title and company,
    and no field of an entry has white space at either end. *)
Theorem extract_work_experience_distinct (text : string) :
  NoDup (key_of <$> extract_work_experience text)
  ∧ NoDup ((λ e, (title e, company e)) <$> extract_work_experience text)
  ∧ Forall trimmed (extract_work_experience text).
Proof.
  assert (exp_inv (∅, [])) as Hinit.
  { unfold exp_inv. simpl. split_and!; [done|constructor|constructor]. }
  assert (NoDup (key_of <$> extract_work_experience text)
          ∧ Forall trimmed (extract_work_experience text)) as [Hnd Htrim].
  { unfold ResumeParserTools.extract_work_experience.
    destruct (re_search exp_section_pattern _ text) as [m|].
    - destruct (line_fold_inv (split_on "010" (m_group m 1)) _ Hinit) as (_ & ? & ?).
      done.
    - simpl. split; constructor. }
  split_and!; [done| |done].
  eapply (NoDup_fmap_1 (λ p : string * string, entry_key p.1 p.2)).
  by rewrite <- list_fmap_compose.
Qed.

End WithLibraries.

End ParserProps.

(** ** Reading a file: [parse_resume] and the endpoint [/upload_resume] *)

Module UploadProps.
Import PyStr PyStrMore ResumeParser ResumeParserTools Endpoints.
Import ResumeParserToolsSpec EndpointsSpec.
Import SkillProcessorFacts NormalizerProps SplitProps ParserProps.

Section WithLibraries.
Variable tfidf_cosine : string → string → result Q.
Variable re_search : string → list re_flag → string → option re_match.
Variable re_finditer : string → list re_flag → string → list re_match.
Variable str_strip : string → string.
Variable str_split : string → list string.
Variable str_upper : string → string.
Variable str_isalpha : string → bool.
Variable py_float : string → option Binary64.double.
Variable pdf_pages : bytes → result (list string).
Variable docx_document : bytes → result (list string * list (list (list string))).
Variable exn_text : exn → string.

Local Abbreviation parse_pdf := (parse_pdf pdf_pages exn_text).
Local Abbreviation parse_docx := (parse_docx docx_document exn_text).
Local Abbreviation parse_resume := (parse_resume pdf_pages docx_document exn_text).
Local Abbreviation parse_resume_full :=
  (parse_resume_full re_search re_finditer str_strip str_split str_upper
     str_isalpha py_float pdf_pages docx_document exn_text).
Local Abbreviation upload_resume :=
  (upload_resume re_search re_finditer str_strip str_split str_upper
     str_isalpha py_float pdf_pages docx_document exn_text).

(** What [parse_resume] does with a file name of each kind. *)
Lemma parse_resume_dispatch file_content filename :
  (file_extension filename = "pdf"
   ∧ parse_resume file_content filename = parse_pdf file_content)
  ∨ (file_extension filename ∈ ["docx"; "doc"]
     ∧ parse_resume file_content filename = parse_docx file_content)
  ∨ ((file_extension filename ∉ allowed_extensions)
     ∧ parse_resume file_content filename
       = Raise (ValueError ("Unsupported file format: " +:+ file_extension filename
                            +:+ ". Please upload PDF or DOCX files."))).
Proof.
  unfold ResumeParserTools.parse_resume.
  destruct (String.eqb_spec (file_extension filename) "pdf") as [Hpdf|Hpdf]; [by left|].
  right. case_bool_decide as Hdoc; [by left|]. right. split; [|done].
  unfold allowed_extensions. rewrite elem_of_cons. by intros [?|?].
Qed.

(** X25: [parse_resume] returns a text without white space at either
    end, for a file with one of the three extensions, or raises a
    [ValueError]: the errors of the readers do not come through as they
    are. *)
Theorem parse_resume_outcome (file_content : bytes) (filename : string) :
  match parse_resume file_content filename with
  | Ok text => strip text = text ∧ file_extension filename ∈ allowed_extensions
  | Raise e => ∃ msg, e = ValueError msg
  end.
Proof.
  destruct (parse_resume_dispatch file_content filename)
    as [[Hext ->]|[[Hext ->]|[Hext ->]]].
  - unfold ResumeParserTools.parse_pdf. destruct (pdf_pages file_content).
    + split; [apply strip_strip|]. rewrite Hext. by left.
    + by eexists.
  - unfold ResumeParserTools.parse_docx.
    destruct (docx_document file_content) as [[paragraphs tables]|].
    + split; [apply strip_strip|]. by right.
    + by eexists.
  - by eexists.
Qed.

Lemma length_substring_le n s : String.length (String.substring 0 n s) ≤ n.
Proof.
  revert s. induction n as [|n IH]; intros [|c s]; simpl; try lia.
  specialize (IH s). lia.
Qed.

Lemma length_append s t :
  String.length (s +:+ t) = String.length s + String.length t.
Proof. induction s as [|c s IH]; simpl; [done|]. by rewrite IH. Qed.

Lemma preview_length text : String.length (preview text) ≤ 503.
Proof.
  unfold preview. destruct (Nat.ltb_spec 500 (String.length text)); [|lia].
  rewrite length_append. pose proof (length_substring_le 500 text). simpl. lia.
Qed.

(** X26: an upload that the endpoint itself turns down, for its
    extension or because it is empty, is answered with status 500: the
    status 400 raised in the body is caught by the last handler. *)
Theorem upload_resume_rejects_with_500 (filename : string) (file_content : bytes) :
  (file_extension filename ∉ allowed_extensions) ∨ file_content = [] →
  ∃ detail,
    upload_resume filename file_content
    = Raise (HTTPException 500
               ("Error processing resume: " +:+ exn_text (HTTPException 400 detail))).
Proof.
  intros Hbad. unfold Endpoints.upload_resume, upload_resume_body.
  case_bool_decide as Hext; [by eexists|].
  destruct Hbad as [Hbad| ->]; [done|]. by eexists.
Qed.


End WithLibraries.

(** X26 for an empty text file, X27 for a PDF file of one byte; the
    names in the samples are ASCII, where the builtins are those of
    [PyStr]. *)
Lemma upload_resume_rejects_with_500_witness :
  ((file_extension "resume.txt" ∉ allowed_extensions) ∨ [] = @nil Byte.byte)
  ∧ ∃ detail,
      upload_resume sample_no_search sample_no_finditer strip split_ws upper isalpha
        sample_float sample_pdf_pages sample_docx_document sample_exn_text
        "resume.txt" []
      = Raise (HTTPException 500
                 ("Error processing resume: "
                  +:+ sample_exn_text (HTTPException 400 detail))).
Proof.
  split; [by right|].
  apply (upload_resume_rejects_with_500 sample_no_search sample_no_finditer
           strip split_ws upper isalpha sample_float
           sample_pdf_pages sample_docx_document sample_exn_text "resume.txt" []).
  by right.
Defined.


(** A number too large for a double comes back as an infinity. *)
Example upload_resume_infinite_years :
  ∃ response,
    upload_resume sample_digits_search sample_no_finditer strip split_ws upper isalpha
      sample_float_overflow sample_pdf_pages sample_docx_document sample_exn_text
      "cv.pdf" [Byte.x25]
    = Ok response
    ∧ up_experience_years response = Some (Binary64.infinite false).
Proof. eexists. split; by vm_compute. Qed.

End UploadProps.

(** ** The endpoint [/match_resume] *)

Module MatchProps.
Import PyStr SkillProcessor Endpoints.
Import SkillMatcherSpec ReportSpec.
Import SkillProcessorFacts SkillMatcherFacts AnalyzerProps.

(** In a list without repetition an element occurs once or not at all. *)
Lemma occurrences_NoDup (x : string) (l : list string) :
  NoDup l → occurrences x l = if bool_decide (x ∈ l) then 1 else 0.
Proof.
  unfold occurrences. induction 1 as [|y l Hy Hl IH]; [done|].
  rewrite filter_cons. destruct (decide (y = x)) as [->|Hxy].
  - simpl. rewrite IH, bool_decide_eq_false_2 by done.
    by rewrite bool_decide_eq_true_2 by left.
  - rewrite IH. case_bool_decide as Hin.
    + by rewrite bool_decide_eq_true_2 by (by right).
    + rewrite bool_decide_eq_false_2; [done|].
      intros [->|?]%elem_of_cons; done.
Qed.

Lemma occurrences_app (x : string) (l k : list string) :
  occurrences x (l ++ k) = occurrences x l + occurrences x k.
Proof. unfold occurrences. by rewrite filter_app, length_app. Qed.

Section WithLibraries.
Variable tfidf_cosine : string → string → result Q.
Variable exn_text : exn → string.

Local Abbreviation match_resume := (match_resume tfidf_cosine exn_text).

(** X28: [/match_resume] answers with status 400 exactly when the resume
    has no skill or the job no required skill, and otherwise with the
    analysis: never with status 500.  The matching skills of the reply are
    the resume skills that are required or preferred; each is listed once
    for being required and once for being preferred, so twice when it is
    both.  The missing skills are the required ones the resume lacks, the
    additional ones those neither required nor preferred, and the
    recommendations are made from the missing required and preferred
    skills and the score. *)
Theorem match_resume_outcome (request : MatchRequest) :
  let resume := Backend.skills (resume_skills request) in
  let job := job_requirement request in
  let A := normalized resume in
  let B := normalized (Backend.required_skills job) in
  let P := normalized (Backend.or_empty (Backend.preferred_skills job)) in
  ((resume = [] ∨ Backend.required_skills job = [])
   ∧ ∃ detail, match_resume request = Raise (HTTPException 400 detail))
  ∨ (resume ≠ [] ∧ Backend.required_skills job ≠ []
     ∧ ∃ response,
         match_resume request = Ok response
         ∧ status response = "success"
         ∧ job_title response = Backend.job_title job
         ∧ (∀ x, x ∈ matching_skills (analysis response) ↔ x ∈ A ∧ (x ∈ B ∨ x ∈ P))
         ∧ (∀ x, occurrences x (matching_skills (analysis response))
                 = (if bool_decide (x ∈ A ∩ B) then 1 else 0)
                   + (if bool_decide (x ∈ A ∩ P) then 1 else 0))
         ∧ (∀ x, x ∈ missing_skills (analysis response) ↔ x ∈ B ∧ x ∉ A)
         ∧ (∀ x, x ∈ additional_skills (analysis response) ↔
                 x ∈ A ∧ (x ∉ B) ∧ (x ∉ P))
         ∧ ∃ missing_preferred,
             NoDup missing_preferred
             ∧ (∀ x, x ∈ missing_preferred ↔ x ∈ P ∧ x ∉ A)
             ∧ recommendations (analysis response)
               = SkillMatcher.generate_recommendations
                   (missing_skills (analysis response))
                   missing_preferred
                   (job_fit_score (analysis response))).
Proof.
  cbv zeta. unfold Endpoints.match_resume, match_resume_body.
  destruct request as [[resume ? ? ?] job]. simpl.
  destruct resume as [|s resume']; simpl.
  { left. split; [by left|by eexists]. }
  destruct (Backend.required_skills job) as [|q required'] eqn:Hrequired; simpl.
  { left. split; [by right|by eexists]. }
  right. split; [done|]. split; [done|].
  destruct (analyze_skill_gap_returns tfidf_cosine (s :: resume') (q :: required')
              (Backend.or_empty (Backend.preferred_skills job)))
    as (r & Hr & Hmr & Hmp & Hmiss & Hmissp & _).
  destruct (analyze_skill_gap_accounts_for_resume_aux tfidf_cosine (s :: resume')
              (q :: required') (Backend.or_empty (Backend.preferred_skills job)))
    as (r' & Hr' & Hadd).
  rewrite Hr in Hr'. injection Hr' as <-.
  rewrite Hr. simpl. eexists. split; [reflexivity|]. simpl.
  rewrite Hmr, Hmp, Hmiss, Hadd.
  set (A := normalized (s :: resume')). set (B := normalized (q :: required')).
  set (P := normalized (Backend.or_empty (Backend.preferred_skills job))).
  split_and!; try done.
  - intros x. rewrite elem_of_app, !elem_of_elements. set_solver.
  - intros x. rewrite occurrences_app, !occurrences_NoDup by apply NoDup_elements.
    by rewrite !(bool_decide_ext _ _ (elem_of_elements _ x)).
  - intros x. rewrite elem_of_elements. set_solver.
  - intros x. rewrite elem_of_elements. set_solver.
  - exists (SkillMatcher.missing_preferred r). rewrite Hmissp. split_and!.
    + apply NoDup_elements.
    + intros x. rewrite elem_of_elements. set_solver.
    + done.
Qed.

End WithLibraries.

End MatchProps.
